(** * Instance provisioning and teardown (pkg/cloud/services/compute/instance.go)

    A shallow embedding of the compute service of the OpenStack cluster-api
    provider.  The Go functions become functions in a small state monad that
    threads the backend's state and records every backend call together with
    its response; a nil-pointer dereference is a [Panic] outcome.  The
    backend client (gophercloud), the Kubernetes helpers and the error
    classification live outside instance.go and are the fields of [Env].

    The file has five parts: the model of instance.go with an in-memory
    backend to run it on; the vocabulary in which the properties are stated;
    sample data; the properties with their proofs; and further properties
    of the functions of instance.go. *)

From Stdlib Require Import ZArith List Lia Bool Ascii.
From stdpp Require Import base gmap strings list.
Import ListNotations.

Open Scope Z_scope.
Open Scope string_scope.
Open Scope list_scope.

(** ** Errors *)

(** [BackendErr] is an error value produced by the backend client, tagged
    with the HTTP status it carries; [Errorf] is the value of a call to
    fmt.Errorf, kept as its format string and operands; [ErrWaitTimeout] is
    the sentinel of the polling helper. *)
Inductive error : Type :=
| BackendErr (status : Z) (msg : string)
| Errorf (format : string) (args : list fmtarg)
| ErrWaitTimeout
with fmtarg : Type :=
| ArgS (s : string)
| ArgE (e : error)
| ArgI (z : Z).

(** Response of [Extract()]: a value or an error. *)
Inductive result (A : Type) : Type :=
| Ok (a : A)
| Err (e : error).
Arguments Ok {A} a.
Arguments Err {A} e.

(** Response of a paginated listing: [AllPages()] may fail, and the
    extraction of the fetched pages may fail. *)
Inductive listing (A : Type) : Type :=
| Listed (items : list A)
| PageErr (e : error)
| ExtractErr (e : error).
Arguments Listed {A} items.
Arguments PageErr {A} e.
Arguments ExtractErr {A} e.

(** ** Data model (fields that instance.go reads or writes) *)

Record Extension := { ext_Alias : string }.

Record SecurityGroupFilter := {
  sgf_ID : string; sgf_Name : string; sgf_Description : string;
  sgf_TenantID : string; sgf_ProjectID : string }.
Record SecurityGroupParam := {
  sg_UUID : string; sg_Name : string; sg_Filter : SecurityGroupFilter }.
Record SecGroup := { secgroup_ID : string }.

Record Filter := {
  nf_ID : string; nf_Name : string; nf_Description : string;
  nf_TenantID : string; nf_ProjectID : string }.
Record SubnetFilter := {
  sf_ID : string; sf_Name : string; sf_NetworkID : string; sf_CIDR : string;
  sf_ProjectID : string }.
Record SubnetParam := { sp_UUID : string; sp_Filter : SubnetFilter }.
(** [np_Subnets] is a Go slice compared with nil: [None] is the nil slice. *)
Record NetworkParam := {
  np_UUID : string; np_Filter : Filter; np_Subnets : option (list SubnetParam) }.

Record NetworkRes := { netres_ID : string }.
Record SubnetRes := { subres_ID : string; subres_NetworkID : string }.

Record Subnet := { subnet_ID : string }.
(** [net_Subnet] is a pointer. *)
Record Network := { net_ID : string; net_Subnet : option Subnet }.

Record IP := { ip_SubnetID : string; ip_IPAddress : string }.
Record Port := {
  port_ID : string; port_Name : string; port_NetworkID : string;
  port_FixedIPs : list IP }.
Record PortListOpts := { plo_Name : string; plo_NetworkID : string }.
Record PortCreateOpts := {
  pco_Name : string; pco_NetworkID : string;
  pco_SecurityGroups : option (list string);
  pco_Description : string;
  pco_FixedIPs : list IP }.

Record Trunk := { trunk_ID : string }.
Record TrunkListOpts := { tlo_Name : string; tlo_PortID : string }.
Record TrunkCreateOpts := { tco_Name : string; tco_PortID : string }.

Record Image := { image_ID : string }.
Record Interface := { if_PortID : string }.

Record ServerNetwork := { sn_Port : string }.

Record RootVolume := {
  rv_SourceType : string; rv_SourceUUID : string; rv_DeviceType : string;
  rv_Size : Z }.

Inductive DestinationType := DestinationLocal | DestinationVolume.
Record BlockDevice := {
  bd_SourceType : string; bd_BootIndex : Z; bd_UUID : string;
  bd_DeleteOnTermination : bool; bd_DestinationType : DestinationType;
  bd_VolumeSize : Z; bd_DeviceType : string }.
Record SchedulerHints := { sh_Group : string }.

Record CreateOpts := {
  co_Name : string; co_ImageRef : string; co_FlavorRef : string;
  co_AvailabilityZone : string; co_Networks : list ServerNetwork;
  co_UserData : string; co_SecurityGroups : list string;
  co_Tags : list string; co_Metadata : gmap string string;
  co_ConfigDrive : option bool; co_AccessIPv4 : string }.

(** servers.CreateOptsBuilder: the base options and the extensions that wrap
    a builder. *)
Inductive CreateOptsBuilder : Type :=
| BaseOpts (o : CreateOpts)
| BootFromVolumeExt (inner : CreateOptsBuilder) (blockDevice : list BlockDevice)
| SchedulerHintsExt (inner : CreateOptsBuilder) (hints : SchedulerHints)
| KeypairExt (inner : CreateOptsBuilder) (keyName : string).

Record ServerListOpts := { slo_Name : string }.

(** One entry of a server's address list after the JSON round trip of
    GetIPFromInstance; the version is the integer it decodes to. *)
Record networkInterface := {
  ni_Address : string; ni_Version : Z; ni_Type : string }.
(** A server's addresses: per network, the entries in the order the range
    loop visits them; [Err] stands for a value that the JSON round trip
    rejects. *)
Record Server := {
  srv_ID : string; srv_Name : string; srv_KeyName : string;
  srv_Status : string; srv_AccessIPv4 : string;
  srv_Addresses : list (string * result (list (result networkInterface))) }.

Record Instance := {
  inst_ID : string; inst_Name : string; inst_Trunk : bool;
  inst_FailureDomain : string; inst_SecurityGroups : option (list string);
  inst_Networks : option (list Network); inst_Subnet : string;
  inst_Tags : list string; inst_Image : string; inst_Flavor : string;
  inst_SSHKeyName : string; inst_UserData : string;
  inst_Metadata : gmap string string; inst_ConfigDrive : option bool;
  inst_RootVolume : option RootVolume; inst_ServerGroupID : string;
  inst_State : string; inst_IP : string; inst_FloatingIP : string }.

Definition InstanceStateActive : string := "ACTIVE".

Record MachineSpec := {
  ms_FailureDomain : option string; ms_ProviderID : option string }.
Record Machine := { m_Name : string; m_Spec : MachineSpec }.

Record OpenStackMachineSpec := {
  oms_Image : string; oms_Flavor : string; oms_SSHKeyName : string;
  oms_ServerMetadata : gmap string string; oms_ConfigDrive : option bool;
  oms_RootVolume : option RootVolume; oms_Subnet : string; oms_Trunk : bool;
  oms_Tags : list string; oms_SecurityGroups : list SecurityGroupParam;
  oms_Networks : list NetworkParam }.
Record OpenStackMachine := { osm_Name : string; osm_Spec : OpenStackMachineSpec }.

Record OpenStackClusterSpec := {
  ocs_Tags : list string; ocs_ManagedSecurityGroups : bool }.
Record OpenStackClusterStatus := {
  ocst_Network : Network;
  ocst_ControlPlaneSecurityGroup : SecGroup;
  ocst_WorkerSecurityGroup : SecGroup }.
Record OpenStackCluster := {
  osc_Spec : OpenStackClusterSpec; osc_Status : OpenStackClusterStatus }.

(** ** Backend calls and their responses, as recorded in the trace *)

Inductive Event : Type :=
| EvExtensionsList (r : listing Extension)
| EvSecGroupsList (opts : SecurityGroupFilter) (r : listing SecGroup)
| EvNetworksList (opts : Filter) (r : listing NetworkRes)
| EvSubnetsByFilter (opts : SubnetFilter) (r : result (list SubnetRes))
| EvPortsList (opts : PortListOpts) (r : listing Port)
| EvPortsCreate (opts : PortCreateOpts) (r : result Port)
| EvPortsGet (id : string) (r : result Port)
| EvPortsDelete (id : string) (r : option error)
| EvTrunksList (opts : TrunkListOpts) (r : listing Trunk)
| EvTrunksCreate (opts : TrunkCreateOpts) (r : result Trunk)
| EvTrunksDelete (id : string) (r : option error)
| EvTagsReplaceAll (kind id : string) (tags : list string) (r : result (list string))
| EvFlavorIDFromName (name : string) (r : result string)
| EvImagesList (name : string) (r : listing Image)
| EvServersCreate (opts : CreateOptsBuilder) (r : result Server)
| EvServersGet (id : string) (r : result Server)
| EvServersDelete (id : string) (r : option error)
| EvServersList (opts : ServerListOpts) (r : listing Server)
| EvInterfacesList (server : string) (r : listing Interface)
| EvInterfacesDelete (server port : string) (r : option error).

(** Notifications sent to the event recorder (record.Warnf, record.Eventf). *)
Inductive Notice : Type :=
| Warnf (reason format : string) (args : list fmtarg)
| Eventf (reason format : string) (args : list fmtarg).

(** ** The environment of instance.go

    [W] is the state of the backend.  Every operation of the backend client
    takes the request and the backend's state to a response and a new state.
    The remaining fields are the helpers that instance.go imports. *)
Record Env (W : Type) : Type := {
  extensions_List : W -> listing Extension * W;
  groups_List : SecurityGroupFilter -> W -> listing SecGroup * W;
  networks_List : Filter -> W -> listing NetworkRes * W;
  (* networking.GetSubnetsByFilter, of pkg/cloud/services/networking *)
  GetSubnetsByFilter : SubnetFilter -> W -> result (list SubnetRes) * W;
  ports_List : PortListOpts -> W -> listing Port * W;
  ports_Create : PortCreateOpts -> W -> result Port * W;
  ports_Get : string -> W -> result Port * W;
  ports_Delete : string -> W -> option error * W;
  trunks_List : TrunkListOpts -> W -> listing Trunk * W;
  trunks_Create : TrunkCreateOpts -> W -> result Trunk * W;
  trunks_Delete : string -> W -> option error * W;
  attributestags_ReplaceAll :
    string -> string -> list string -> W -> result (list string) * W;
  flavors_IDFromName : string -> W -> result string * W;
  images_List : string -> W -> listing Image * W;
  servers_Create : CreateOptsBuilder -> W -> result Server * W;
  servers_Get : string -> W -> result Server * W;
  servers_Delete : string -> W -> option error * W;
  servers_List : ServerListOpts -> W -> listing Server * W;
  attachinterfaces_List : string -> W -> listing Interface * W;
  attachinterfaces_Delete : string -> string -> W -> option error * W;
  (* capoerrors *)
  IsNotFound : error -> bool;
  IsRetryable : error -> bool;
  (* cluster-api util, noderefutil *)
  IsControlPlaneMachine : Machine -> bool;
  NewProviderID : string -> result string;
  (* net, os, strconv *)
  ParseIP_valid : string -> bool;
  Getenv : string -> string;
  Atoi : string -> option Z;
  (* the number of further evaluations of the condition that
     wait.PollImmediate makes, for an interval and a timeout, after the
     immediate one *)
  pollBudget : Z -> Z -> nat }.
Arguments extensions_List {W} e.
Arguments groups_List {W} e.
Arguments networks_List {W} e.
Arguments GetSubnetsByFilter {W} e.
Arguments ports_List {W} e.
Arguments ports_Create {W} e.
Arguments ports_Get {W} e.
Arguments ports_Delete {W} e.
Arguments trunks_List {W} e.
Arguments trunks_Create {W} e.
Arguments trunks_Delete {W} e.
Arguments attributestags_ReplaceAll {W} e.
Arguments flavors_IDFromName {W} e.
Arguments images_List {W} e.
Arguments servers_Create {W} e.
Arguments servers_Get {W} e.
Arguments servers_Delete {W} e.
Arguments servers_List {W} e.
Arguments attachinterfaces_List {W} e.
Arguments attachinterfaces_Delete {W} e.
Arguments IsNotFound {W} e.
Arguments IsRetryable {W} e.
Arguments IsControlPlaneMachine {W} e.
Arguments NewProviderID {W} e.
Arguments ParseIP_valid {W} e.
Arguments Getenv {W} e.
Arguments Atoi {W} e.
Arguments pollBudget {W} e.

(** ** The monad of the service: backend state, trace, notifications *)

Inductive outcome (A : Type) : Type :=
| Val (a : A)
| Panic.
Arguments Val {A} a.
Arguments Panic {A}.

Record State (W : Type) : Type := {
  world : W;
  trace : list Event;
  notices : list Notice }.
Arguments world {W} s.
Arguments trace {W} s.
Arguments notices {W} s.

Definition M (W A : Type) : Type := State W -> outcome A * State W.

Definition ret {W A} (a : A) : M W A := fun s => (Val a, s).

Definition bind {W A B} (m : M W A) (k : A -> M W B) : M W B :=
  fun s => match m s with
           | (Val a, s') => k a s'
           | (Panic, s') => (Panic, s')
           end.

Definition panic {W A} : M W A := fun s => (Panic, s).

(** A backend call: run the operation on the backend's state and append the
    call with its response to the trace. *)
Definition call {W R} (op : W -> R * W) (ev : R -> Event) : M W R :=
  fun s => let (r, w') := op (world s) in
           (Val r, {| world := w'; trace := trace s ++ [ev r];
                      notices := notices s |}).

Definition notify {W} (n : Notice) : M W unit :=
  fun s => (Val tt, {| world := world s; trace := trace s;
                       notices := notices s ++ [n] |}).

Declare Scope svc_scope.
Delimit Scope svc_scope with svc.
Notation "x <- c1 ;; c2" := (bind c1 (fun x => c2))
  (at level 100, c1 at next level, right associativity) : svc_scope.
Open Scope svc_scope.

(** The events a computation appends to the trace of a state. *)
Definition emitted {W A} (m : M W A) (s : State W) : list Event :=
  drop (length (trace s)) (trace (snd (m s))).

(** ** Constants (time.Duration counts nanoseconds in 64 bits) *)

Definition Second : Z := 1000000000.
Definition Minute : Z := 60 * Second.
Definition TimeoutInstanceCreate : Z := 5.
Definition RetryIntervalInstanceStatus : Z := 10 * Second.
Definition TimeoutTrunkDelete : Z := 3 * Minute.
Definition RetryIntervalTrunkDelete : Z := 5 * Second.
Definition TimeoutPortDelete : Z := 3 * Minute.
Definition RetryIntervalPortDelete : Z := 5 * Second.
Definition TimeoutInstanceDelete : Z := 5 * Minute.

Definition wrap64 (z : Z) : Z := (z + 2 ^ 63) mod 2 ^ 64 - 2 ^ 63.

(** ** Pure helpers of instance.go *)

(** deduplicate: [set] is the Go map used as a set, [unique] the slice that
    grows by append. *)
Definition deduplicate_step (acc : list string * gmap string bool) (s : string)
  : list string * gmap string bool :=
  let '(unique, set) := acc in
  match set !! s with
  | Some _ => (unique, set)
  | None => (unique ++ [s], <[s := true]> set)
  end.

Definition deduplicate (sequence : list string) : list string :=
  fst (fold_left deduplicate_step sequence ([], ∅)).

Fixpoint isDuplicate (list : list string) (name : string) : bool :=
  match list with
  | [] => false
  | element :: rest => if (element =? name)%string then true else isDuplicate rest name
  end.

Definition applyRootVolume (opts : CreateOptsBuilder) (rootVolume : option RootVolume)
  : CreateOptsBuilder :=
  match rootVolume with
  | Some rv =>
      if negb (rv_Size rv =? 0)%Z then
        let block := {| bd_SourceType := rv_SourceType rv;
                        bd_BootIndex := 0;
                        bd_UUID := rv_SourceUUID rv;
                        bd_DeleteOnTermination := true;
                        bd_DestinationType := DestinationVolume;
                        bd_VolumeSize := rv_Size rv;
                        bd_DeviceType := rv_DeviceType rv |} in
        BootFromVolumeExt opts [block]
      else opts
  | None => opts
  end.

Definition applyServerGroupID (opts : CreateOptsBuilder) (serverGroupID : string)
  : CreateOptsBuilder :=
  if negb (serverGroupID =? "")%string then
    SchedulerHintsExt opts {| sh_Group := serverGroupID |}
  else opts.

(** The base options that a builder wraps. *)
Fixpoint baseOpts (b : CreateOptsBuilder) : CreateOpts :=
  match b with
  | BaseOpts o => o
  | BootFromVolumeExt inner _ => baseOpts inner
  | SchedulerHintsExt inner _ => baseOpts inner
  | KeypairExt inner _ => baseOpts inner
  end.

(** The zero value of infrav1.Instance. *)
Definition zeroInstance : Instance := {|
  inst_ID := ""; inst_Name := ""; inst_Trunk := false; inst_FailureDomain := "";
  inst_SecurityGroups := None; inst_Networks := None; inst_Subnet := "";
  inst_Tags := []; inst_Image := ""; inst_Flavor := ""; inst_SSHKeyName := "";
  inst_UserData := ""; inst_Metadata := ∅; inst_ConfigDrive := None;
  inst_RootVolume := None; inst_ServerGroupID := ""; inst_State := "";
  inst_IP := ""; inst_FloatingIP := "" |}.

Definition set_addresses (i : Instance) (ip floating : string) : Instance := {|
  inst_ID := inst_ID i; inst_Name := inst_Name i; inst_Trunk := inst_Trunk i;
  inst_FailureDomain := inst_FailureDomain i;
  inst_SecurityGroups := inst_SecurityGroups i; inst_Networks := inst_Networks i;
  inst_Subnet := inst_Subnet i; inst_Tags := inst_Tags i; inst_Image := inst_Image i;
  inst_Flavor := inst_Flavor i; inst_SSHKeyName := inst_SSHKeyName i;
  inst_UserData := inst_UserData i; inst_Metadata := inst_Metadata i;
  inst_ConfigDrive := inst_ConfigDrive i; inst_RootVolume := inst_RootVolume i;
  inst_ServerGroupID := inst_ServerGroupID i; inst_State := inst_State i;
  inst_IP := ip; inst_FloatingIP := floating |}.

(** GetIPFromInstance: the address map of a server.  The error operand of a
    failed JSON round trip is the one the entry carries. *)
Definition addrStep (addrMap : gmap string string) (n : networkInterface)
  : gmap string string :=
  if (ni_Version n =? 4)%Z then
    if (ni_Type n =? "floating")%string
    then <["floating" := ni_Address n]> addrMap
    else <["internal" := ni_Address n]> addrMap
  else addrMap.

Fixpoint addrNetworkList (networkList : list (result networkInterface))
  (addrMap : gmap string string) : result (gmap string string) :=
  match networkList with
  | [] => Ok addrMap
  | Err e :: _ => Err (Errorf "extract IP from instance err: %v" [ArgE e])
  | Ok netInterface :: rest => addrNetworkList rest (addrStep addrMap netInterface)
  end.

Fixpoint addrAddresses
  (addresses : list (string * result (list (result networkInterface))))
  (addrMap : gmap string string) : result (gmap string string) :=
  match addresses with
  | [] => Ok addrMap
  | (_, Err e) :: _ => Err (Errorf "extract IP from instance err: %v" [ArgE e])
  | (_, Ok networkList) :: rest =>
      match addrNetworkList networkList addrMap with
      | Err e => Err e
      | Ok addrMap' => addrAddresses rest addrMap'
      end
  end.

Section Service.

Context {W : Type} (env : Env W).

(** The receiver: the clients are the operations of [env]. *)
Variable projectID : string.

Definition GetIPFromInstance (v : Server) : result (gmap string string) :=
  if negb (srv_AccessIPv4 v =? "")%string && ParseIP_valid env (srv_AccessIPv4 v)
  then Ok (<["internal" := srv_AccessIPv4 v]> ∅)
  else addrAddresses (srv_Addresses v) ∅.

Definition serverToInstance (v : option Server) : option Instance * option error :=
  match v with
  | None => (None, None)
  | Some v =>
      let i := {|
        inst_ID := srv_ID v; inst_Name := srv_Name v; inst_Trunk := false;
        inst_FailureDomain := ""; inst_SecurityGroups := None;
        inst_Networks := None; inst_Subnet := ""; inst_Tags := [];
        inst_Image := ""; inst_Flavor := ""; inst_SSHKeyName := srv_KeyName v;
        inst_UserData := ""; inst_Metadata := ∅; inst_ConfigDrive := None;
        inst_RootVolume := None; inst_ServerGroupID := "";
        inst_State := srv_Status v; inst_IP := ""; inst_FloatingIP := "" |} in
      match GetIPFromInstance v with
      | Err e => (Some i, Some e)
      | Ok addrMap =>
          let ip := default "" (addrMap !! "internal") in
          let floating := default "" (addrMap !! "floating") in
          (Some (set_addresses i ip floating), None)
      end
  end.

(** util.PollImmediate: the condition is evaluated at once and then again
    while it reports neither completion nor an error, [n] more times at
    most.  [C] is what the closure assigns to variables of the enclosing
    function. *)
Fixpoint pollLoop {C : Type} (n : nat) (condition : M W (C * bool * option error))
  : M W (C * option error) :=
  x <- condition ;;
  let '(c, done, err) := x in
  match err with
  | Some e => ret (c, Some e)
  | None =>
      if done then ret (c, None)
      else match n with
           | O => ret (c, Some ErrWaitTimeout)
           | S n' => pollLoop n' condition
           end
  end.

Definition PollImmediate {C : Type} (interval timeout : Z)
  (condition : M W (C * bool * option error)) : M W (C * option error) :=
  pollLoop (pollBudget env interval timeout) condition.

Definition getTimeout (name : string) (timeout : Z) : Z :=
  let v := Getenv env name in
  if negb (v =? "")%string then
    match Atoi env v with
    | Some timeout' => timeout'
    | None => timeout
    end
  else timeout.

Fixpoint hasTrunkAlias (allExts : list Extension) : bool :=
  match allExts with
  | [] => false
  | ext :: rest => if (ext_Alias ext =? "trunk")%string then true else hasTrunkAlias rest
  end.

Definition getTrunkSupport : M W (bool * option error) :=
  r <- call (extensions_List env) EvExtensionsList ;;
  match r with
  | PageErr e => ret (false, Some e)
  | ExtractErr e => ret (false, Some e)
  | Listed allExts => ret (hasTrunkAlias allExts, None)
  end.

Fixpoint appendGroups (sgIDs : list string) (SGList : list SecGroup) : list string :=
  match SGList with
  | [] => sgIDs
  | group :: rest =>
      if isDuplicate sgIDs (secgroup_ID group) then appendGroups sgIDs rest
      else appendGroups (sgIDs ++ [secgroup_ID group]) rest
  end.

Fixpoint getSecurityGroups_from (securityGroupParams : list SecurityGroupParam)
  (sgIDs : list string) : M W (list string * option error) :=
  match securityGroupParams with
  | [] => ret (sgIDs, None)
  | sg :: rest =>
      let f := sg_Filter sg in
      let listOpts := {|
        sgf_ID := sg_UUID sg; sgf_Name := sg_Name sg;
        sgf_Description := sgf_Description f; sgf_TenantID := sgf_TenantID f;
        sgf_ProjectID := if (sgf_ProjectID f =? "")%string then projectID
                         else sgf_ProjectID f |} in
      r <- call (groups_List env listOpts) (EvSecGroupsList listOpts) ;;
      match r with
      | PageErr e => ret ([], Some e)
      | ExtractErr e => ret ([], Some e)
      | Listed [] => ret ([], Some (Errorf "security group %s not found" [ArgS (sg_Name sg)]))
      | Listed SGList => getSecurityGroups_from rest (appendGroups sgIDs SGList)
      end
  end.

Definition getSecurityGroups (securityGroupParams : list SecurityGroupParam)
  : M W (list string * option error) :=
  getSecurityGroups_from securityGroupParams [].

(** Modelled from the spec: networking.GetNetworkIDsByFilter is defined in
    pkg/cloud/services/networking, outside instance.go.  A filter is
    resolved to one or more network ids; resolving to zero networks is an
    error, not an empty result. *)
Definition GetNetworkIDsByFilter (opts : Filter) : M W (list string * option error) :=
  r <- call (networks_List env opts) (EvNetworksList opts) ;;
  match r with
  | PageErr e => ret ([], Some e)
  | ExtractErr e => ret ([], Some e)
  | Listed [] =>
      ret ([], Some (Errorf "no networks could be found with the filters provided" []))
  | Listed networkList => ret (map netres_ID networkList, None)
  end.

Definition subnetNetworks (subnetsByFilter : list SubnetRes) : list Network :=
  map (fun subnetByFilter =>
         {| net_ID := subres_NetworkID subnetByFilter;
            net_Subnet := Some {| subnet_ID := subres_ID subnetByFilter |} |})
      subnetsByFilter.

Fixpoint getServerNetworks_subnets (netID : string) (subnets : list SubnetParam)
  (nets : list Network) : M W (list Network * option error) :=
  match subnets with
  | [] => ret (nets, None)
  | subnet :: rest =>
      let f := sp_Filter subnet in
      let subnetOpts := {|
        sf_ID := sp_UUID subnet; sf_Name := sf_Name f; sf_NetworkID := netID;
        sf_CIDR := sf_CIDR f; sf_ProjectID := sf_ProjectID f |} in
      r <- call (GetSubnetsByFilter env subnetOpts) (EvSubnetsByFilter subnetOpts) ;;
      match r with
      | Err e => ret ([], Some e)
      | Ok subnetsByFilter =>
          getServerNetworks_subnets netID rest (nets ++ subnetNetworks subnetsByFilter)
      end
  end.

Fixpoint getServerNetworks_ids (networkParam : NetworkParam) (ids : list string)
  (nets : list Network) : M W (list Network * option error) :=
  match ids with
  | [] => ret (nets, None)
  | netID :: rest =>
      match np_Subnets networkParam with
      | None =>
          getServerNetworks_ids networkParam rest
            (nets ++ [{| net_ID := netID; net_Subnet := None |}])
      | Some subnets =>
          x <- getServerNetworks_subnets netID subnets nets ;;
          match x with
          | (_, Some e) => ret ([], Some e)
          | (nets', None) => getServerNetworks_ids networkParam rest nets'
          end
      end
  end.

(** The listing options of an attachment: its filter, with the id it names. *)
Definition networkListOpts (networkParam : NetworkParam) : Filter :=
  let f := np_Filter networkParam in
  {| nf_ID := np_UUID networkParam; nf_Name := nf_Name f;
     nf_Description := nf_Description f; nf_TenantID := nf_TenantID f;
     nf_ProjectID := nf_ProjectID f |}.

Fixpoint getServerNetworks_from (networkParams : list NetworkParam)
  (nets : list Network) : M W (list Network * option error) :=
  match networkParams with
  | [] => ret (nets, None)
  | networkParam :: rest =>
      let opts := networkListOpts networkParam in
      x <- GetNetworkIDsByFilter opts ;;
      match x with
      | (_, Some e) => ret ([], Some e)
      | (ids, None) =>
          y <- getServerNetworks_ids networkParam ids nets ;;
          match y with
          | (_, Some e) => ret ([], Some e)
          | (nets', None) => getServerNetworks_from rest nets'
          end
      end
  end.

Definition getServerNetworks (networkParams : list NetworkParam)
  : M W (list Network * option error) :=
  getServerNetworks_from networkParams [].

Definition GetInstance (resourceID : string) : M W (option Instance * option error) :=
  if (resourceID =? "")%string then
    ret (None, Some (Errorf "resourceId should be specified to get detail" []))
  else
    r <- call (servers_Get env resourceID) (EvServersGet resourceID) ;;
    match r with
    | Err e =>
        if IsNotFound env e then ret (None, None)
        else ret (None, Some (Errorf "get server %q detail failed: %v"
                                [ArgS resourceID; ArgE e]))
    | Ok server =>
        match serverToInstance (Some server) with
        | (_, Some e) => ret (None, Some e)
        | (i, None) => ret (i, None)
        end
    end.

Fixpoint InstanceExists_instances (serverList : list Server)
  (instanceList : list (option Instance)) : result (list (option Instance)) :=
  match serverList with
  | [] => Ok instanceList
  | server :: rest =>
      match serverToInstance (Some server) with
      | (_, Some e) => Err e
      | (i, None) => InstanceExists_instances rest (instanceList ++ [i])
      end
  end.

Definition InstanceExists (name : string) : M W (option Instance * option error) :=
  let listOpts :=
    if negb (name =? "")%string then {| slo_Name := "^" ++ name ++ "$" |}
    else {| slo_Name := "" |} in
  r <- call (servers_List env listOpts) (EvServersList listOpts) ;;
  match r with
  | PageErr e => ret (None, Some (Errorf "get server list: %v" [ArgE e]))
  | ExtractErr e => ret (None, Some (Errorf "extract server list: %v" [ArgE e]))
  | Listed serverList =>
      match InstanceExists_instances serverList [] with
      | Err e => ret (None, Some e)
      | Ok [] => ret (None, None)
      | Ok (i :: _) => ret (i, None)
      end
  end.

Definition getImageID (imageName : string) : M W (string * option error) :=
  if (imageName =? "")%string then ret ("", None)
  else
    r <- call (images_List env imageName) (EvImagesList imageName) ;;
    match r with
    | PageErr e => ret ("", Some e)
    | ExtractErr e => ret ("", Some e)
    | Listed [] =>
        ret ("", Some (Errorf "no image with the name %s could be found" [ArgS imageName]))
    | Listed [image] => ret (image_ID image, None)
    | Listed _ =>
        ret ("", Some (Errorf "too many images with the name, %s, were found"
                         [ArgS imageName]))
    end.

Definition zeroPort : Port :=
  {| port_ID := ""; port_Name := ""; port_NetworkID := ""; port_FixedIPs := [] |}.

Definition createPort (clusterName name : string) (net : Network)
  (securityGroups : option (list string)) : M W (Port * option error) :=
  match net_Subnet net with
  | None => panic
  | Some subnet =>
      let portCreateOpts := {|
        pco_Name := name;
        pco_NetworkID := net_ID net;
        pco_SecurityGroups := securityGroups;
        pco_Description := "Created by cluster-api-provider-openstack cluster " ++ clusterName;
        pco_FixedIPs :=
          if negb (subnet_ID subnet =? "")%string
          then [{| ip_SubnetID := subnet_ID subnet; ip_IPAddress := "" |}]
          else [] |} in
      r <- call (ports_Create env portCreateOpts) (EvPortsCreate portCreateOpts) ;;
      match r with
      | Err e => ret (zeroPort, Some (Errorf "create port for server: %v" [ArgE e]))
      | Ok newPort => ret (newPort, None)
      end
  end.

Fixpoint deletePorts (nets : list ServerNetwork) : M W (option error) :=
  match nets with
  | [] => ret None
  | n :: rest =>
      r <- call (ports_Get env (sn_Port n)) (EvPortsGet (sn_Port n)) ;;
      if match r with Err e => IsNotFound env e | Ok _ => false end
      then ret None
      else
        err <- call (ports_Delete env (sn_Port n)) (EvPortsDelete (sn_Port n)) ;;
        match err with
        | Some e => ret (Some e)
        | None => deletePorts rest
        end
  end.

(** The access address after the range over a port's fixed IPs. *)
Definition accessAddress (subnet : string) (fixedIPs : list IP) (accessIPv4 : string)
  : string :=
  fold_left (fun acc fip => if (ip_SubnetID fip =? subnet)%string
                            then ip_IPAddress fip else acc)
            fixedIPs accessIPv4.

(** The trunk block of the loop of createInstance. *)
Definition createInstance_trunk (i : Instance) (port : Port) : M W (option error) :=
  let listOpts := {| tlo_Name := inst_Name i; tlo_PortID := port_ID port |} in
  r <- call (trunks_List env listOpts) (EvTrunksList listOpts) ;;
  match r with
  | PageErr e =>
      ret (Some (Errorf "searching for existing trunk for server err: %v" [ArgE e]))
  | ExtractErr e =>
      ret (Some (Errorf "searching for existing trunk for server err: %v" [ArgE e]))
  | Listed trunkList =>
      x <- match trunkList with
           | [] =>
               let trunkCreateOpts :=
                 {| tco_Name := inst_Name i; tco_PortID := port_ID port |} in
               r <- call (trunks_Create env trunkCreateOpts)
                         (EvTrunksCreate trunkCreateOpts) ;;
               match r with
               | Err e => ret (Err (Errorf "create trunk for server err: %v" [ArgE e]))
               | Ok newTrunk => ret (Ok newTrunk)
               end
           | trunk :: _ => ret (Ok trunk)
           end ;;
      match x with
      | Err e => ret (Some e)
      | Ok trunk =>
          r <- call (attributestags_ReplaceAll env "trunks" (trunk_ID trunk) (inst_Tags i))
                    (EvTagsReplaceAll "trunks" (trunk_ID trunk) (inst_Tags i)) ;;
          match r with
          | Err e => ret (Some (Errorf "tagging trunk for server err: %v" [ArgE e]))
          | Ok _ => ret None
          end
      end
  end.

(** The loop of createInstance over the network list; the result is the
    error of an early return, or the access address and the port list. *)
Fixpoint createInstance_networks (clusterName : string) (i : Instance)
  (networkList : list Network) (accessIPv4 : string) (portsList : list ServerNetwork)
  : M W (result (string * list ServerNetwork)) :=
  match networkList with
  | [] => ret (Ok (accessIPv4, portsList))
  | network :: rest =>
      if (net_ID network =? "")%string then
        ret (Err (Errorf "no network was found or provided. Please check your machine configuration and try again" []))
      else
        let listOpts := {| plo_Name := inst_Name i; plo_NetworkID := net_ID network |} in
        r <- call (ports_List env listOpts) (EvPortsList listOpts) ;;
        match r with
        | PageErr e =>
            ret (Err (Errorf "searching for existing port for server: %v" [ArgE e]))
        | ExtractErr e =>
            ret (Err (Errorf "searching for existing port for server err: %v" [ArgE e]))
        | Listed portList =>
            x <- match portList with
                 | [] => createPort clusterName (inst_Name i) network (inst_SecurityGroups i)
                 | port :: _ => ret (port, None)
                 end ;;
            match x with
            | (_, Some e) => ret (Err (Errorf "failed to create port err: %v" [ArgE e]))
            | (port, None) =>
                let accessIPv4 := accessAddress (inst_Subnet i) (port_FixedIPs port) accessIPv4 in
                let portsList := portsList ++ [{| sn_Port := port_ID port |}] in
                err <- (if inst_Trunk i then createInstance_trunk i port else ret None) ;;
                match err with
                | Some e => ret (Err e)
                | None => createInstance_networks clusterName i rest accessIPv4 portsList
                end
            end
        end
  end.

(** The condition polled by createInstance; it assigns [instance]. *)
Definition createInstance_condition (serverID : string)
  : M W (option Instance * bool * option error) :=
  x <- GetInstance serverID ;;
  match x with
  | (instance, Some e) =>
      if IsRetryable env e then ret (instance, false, None)
      else ret (instance, false, Some e)
  | (None, None) => panic
  | (Some instance, None) =>
      ret (Some instance, (inst_State instance =? InstanceStateActive)%string, None)
  end.

Definition createInstance (clusterName : string) (i : Instance)
  : M W (option Instance * option error) :=
  x <- getImageID (inst_Image i) ;;
  match x with
  | (_, Some e) => ret (None, Some (Errorf "create new server err: %v" [ArgE e]))
  | (imageID, None) =>
  match inst_Networks i with
  | None => panic
  | Some networkList =>
  y <- createInstance_networks clusterName i networkList "" [] ;;
  match y with
  | Err e => ret (None, Some e)
  | Ok (accessIPv4, portsList) =>
  if negb (inst_Subnet i =? "")%string && (accessIPv4 =? "")%string then
    errd <- deletePorts portsList ;;
    match errd with
    | Some errd =>
        ret (None, Some (Errorf "no ports with fixed IPs found on Subnet %q: error cleaning up ports: %v"
                           [ArgS (inst_Subnet i); ArgE errd]))
    | None =>
        ret (None, Some (Errorf "no ports with fixed IPs found on Subnet %q"
                           [ArgS (inst_Subnet i)]))
    end
  else
  r <- call (flavors_IDFromName env (inst_Flavor i)) (EvFlavorIDFromName (inst_Flavor i)) ;;
  match r with
  | Err e =>
      ret (None, Some (Errorf "error getting flavor id from flavor name %s: %v"
                         [ArgS (inst_Flavor i); ArgE e]))
  | Ok flavorID =>
  match inst_SecurityGroups i with
  | None => panic
  | Some securityGroups =>
  let serverCreateOpts := BaseOpts {|
    co_Name := inst_Name i;
    co_ImageRef := imageID;
    co_FlavorRef := flavorID;
    co_AvailabilityZone := inst_FailureDomain i;
    co_Networks := portsList;
    co_UserData := inst_UserData i;
    co_SecurityGroups := securityGroups;
    co_Tags := inst_Tags i;
    co_Metadata := inst_Metadata i;
    co_ConfigDrive := inst_ConfigDrive i;
    co_AccessIPv4 := accessIPv4 |} in
  let serverCreateOpts := applyRootVolume serverCreateOpts (inst_RootVolume i) in
  let serverCreateOpts := applyServerGroupID serverCreateOpts (inst_ServerGroupID i) in
  let request := KeypairExt serverCreateOpts (inst_SSHKeyName i) in
  r <- call (servers_Create env request) (EvServersCreate request) ;;
  match r with
  | Err e =>
      errd <- deletePorts portsList ;;
      match errd with
      | Some errd =>
          ret (None, Some (Errorf "error recover creating Openstack instance: error cleaning up ports: %v"
                             [ArgE errd]))
      | None =>
          ret (None, Some (Errorf "error creating Openstack instance: %v" [ArgE e]))
      end
  | Ok server =>
      let instanceCreateTimeout :=
        wrap64 (getTimeout "CLUSTER_API_OPENSTACK_INSTANCE_CREATE_TIMEOUT"
                  TimeoutInstanceCreate * Minute) in
      p <- PollImmediate RetryIntervalInstanceStatus instanceCreateTimeout
             (createInstance_condition (srv_ID server)) ;;
      match p with
      | (_, Some e) =>
          ret (None, Some (Errorf "error creating Openstack instance %s, %v"
                             [ArgS (srv_ID server); ArgE e]))
      | (instance, None) => ret (instance, None)
      end
  end end end end end end.

(** The condition polled for a trunk or a port: one delete call. *)
Definition deleteCondition (delete : M W (option error)) : M W (unit * bool * option error) :=
  err <- delete ;;
  match err with
  | Some e =>
      if IsRetryable env e then ret (tt, false, None)
      else ret (tt, false, Some e)
  | None => ret (tt, true, None)
  end.

Definition deleteTrunk (id : string) : M W (option error) :=
  call (trunks_Delete env id) (EvTrunksDelete id).

Definition deletePort (id : string) : M W (option error) :=
  call (ports_Delete env id) (EvPortsDelete id).

(** The trunk block of the loop of deleteInstance. *)
Definition deleteInstance_trunk (port : Interface) : M W (option error) :=
  let listOpts := {| tlo_Name := ""; tlo_PortID := if_PortID port |} in
  r <- call (trunks_List env listOpts) (EvTrunksList listOpts) ;;
  match r with
  | PageErr e => ret (Some e)
  | ExtractErr e => ret (Some e)
  | Listed [trunk] =>
      p <- PollImmediate RetryIntervalTrunkDelete TimeoutTrunkDelete
             (deleteCondition (deleteTrunk (trunk_ID trunk))) ;;
      match snd p with
      | Some _ => ret (Some (Errorf "error deleting the trunk %v" [ArgS (trunk_ID trunk)]))
      | None => ret None
      end
  | Listed _ => ret None
  end.

(** The loop of deleteInstance over the attached interfaces. *)
Fixpoint deleteInstance_interfaces (serverID : string) (trunkSupport : bool)
  (instanceInterfaces : list Interface) : M W (option error) :=
  match instanceInterfaces with
  | [] => ret None
  | port :: rest =>
      err <- call (attachinterfaces_Delete env serverID (if_PortID port))
                  (EvInterfacesDelete serverID (if_PortID port)) ;;
      match err with
      | Some e => ret (Some e)
      | None =>
          err <- (if trunkSupport then deleteInstance_trunk port else ret None) ;;
          match err with
          | Some e => ret (Some e)
          | None =>
              p <- PollImmediate RetryIntervalPortDelete TimeoutPortDelete
                     (deleteCondition (deletePort (if_PortID port))) ;;
              match snd p with
              | Some _ =>
                  ret (Some (Errorf "error deleting the port %v" [ArgS (if_PortID port)]))
              | None => deleteInstance_interfaces serverID trunkSupport rest
              end
          end
      end
  end.

Definition deleteInstance (serverID : string) : M W (option error) :=
  r <- call (attachinterfaces_List env serverID) (EvInterfacesList serverID) ;;
  match r with
  | PageErr e => ret (Some e)
  | ExtractErr e => ret (Some e)
  | Listed instanceInterfaces =>
      if (length instanceInterfaces <? 1)%nat then
        call (servers_Delete env serverID) (EvServersDelete serverID)
      else
        x <- getTrunkSupport ;;
        match x with
        | (_, Some e) => ret (Some (Errorf "obtaining network extensions: %v" [ArgE e]))
        | (trunkSupport, None) =>
            err <- deleteInstance_interfaces serverID trunkSupport instanceInterfaces ;;
            match err with
            | Some e => ret (Some e)
            | None => call (servers_Delete env serverID) (EvServersDelete serverID)
            end
        end
  end.

(** The condition polled by InstanceDelete. *)
Definition InstanceDelete_condition (id : string) : M W (unit * bool * option error) :=
  x <- GetInstance id ;;
  match snd x with
  | Some e =>
      if IsNotFound env e then ret (tt, true, None)
      else ret (tt, false, Some e)
  | None => ret (tt, false, None)
  end.

Definition InstanceDelete (machine : Machine) (openStackMachine : OpenStackMachine)
  : M W (option error) :=
  match ms_ProviderID (m_Spec machine) with
  | None => ret None
  | Some providerID =>
      match NewProviderID env providerID with
      | Err e => ret (Some e)
      | Ok parsedID =>
          err <- deleteInstance parsedID ;;
          match err with
          | Some e =>
              _ <- notify (Warnf "FailedDeleteServer"
                             "Failed to deleted server %s with id %s: %v"
                             [ArgS (osm_Name openStackMachine); ArgS parsedID; ArgE e]) ;;
              ret (Some e)
          | None =>
              p <- PollImmediate RetryIntervalInstanceStatus TimeoutInstanceDelete
                     (InstanceDelete_condition parsedID) ;;
              match snd p with
              | Some e =>
                  _ <- notify (Warnf "FailedDeleteServer"
                                 "Failed to deleted server %s with id %s: %v"
                                 [ArgS (osm_Name openStackMachine); ArgS parsedID; ArgE e]) ;;
                  ret (Some (Errorf "error deleting Openstack instance %s, %v"
                               [ArgS parsedID; ArgE e]))
              | None =>
                  _ <- notify (Eventf "SuccessfulDeleteServer" "Deleted server %s"
                                 [ArgS parsedID]) ;;
                  ret None
              end
          end
      end
  end.

(** The tag list of InstanceCreate: machine tags, then cluster tags. *)
Definition machineTags (openStackCluster : OpenStackCluster)
  (openStackMachine : OpenStackMachine) : list string :=
  deduplicate (([] ++ oms_Tags (osm_Spec openStackMachine))
                 ++ ocs_Tags (osc_Spec openStackCluster)).

Definition InstanceCreate (openStackCluster : OpenStackCluster) (machine : Machine)
  (openStackMachine : option OpenStackMachine) (clusterName userData : string)
  : M W (option Instance * option error) :=
  match openStackMachine with
  | None =>
      ret (None, Some (Errorf "create Options need be specified to create instace" []))
  | Some osm =>
  let spec := osm_Spec osm in
  match ms_FailureDomain (m_Spec machine) with
  | None => ret (None, Some (Errorf "failure domain not set" []))
  | Some failureDomain =>
  t <- (if oms_Trunk spec then
          x <- getTrunkSupport ;;
          match x with
          | (_, Some e) =>
              ret (Err (Errorf "there was an issue verifying whether trunk support is available, please disable it: %v" [ArgE e]))
          | (false, None) => ret (Err (Errorf "there is no trunk support. Please disable it" []))
          | (true, None) => ret (Ok true)
          end
        else ret (Ok false)) ;;
  match t with
  | Err e => ret (None, Some e)
  | Ok trunk =>
  x <- getSecurityGroups (oms_SecurityGroups spec) ;;
  match x with
  | (_, Some e) => ret (None, Some e)
  | (securityGroups, None) =>
  let status := osc_Status openStackCluster in
  let securityGroups :=
    if ocs_ManagedSecurityGroups (osc_Spec openStackCluster) then
      if IsControlPlaneMachine env machine
      then securityGroups ++ [secgroup_ID (ocst_ControlPlaneSecurityGroup status)]
      else securityGroups ++ [secgroup_ID (ocst_WorkerSecurityGroup status)]
    else securityGroups in
  y <- (if (0 <? length (oms_Networks spec))%nat then getServerNetworks (oms_Networks spec)
        else match net_Subnet (ocst_Network status) with
             | None => panic
             | Some subnet =>
                 ret ([{| net_ID := net_ID (ocst_Network status);
                          net_Subnet := Some {| subnet_ID := subnet_ID subnet |} |}], None)
             end) ;;
  match y with
  | (_, Some e) => ret (None, Some e)
  | (nets, None) =>
  let input := {|
    inst_ID := ""; inst_Name := osm_Name osm; inst_Trunk := trunk;
    inst_FailureDomain := failureDomain;
    inst_SecurityGroups := Some securityGroups;
    inst_Networks := Some nets;
    inst_Subnet := oms_Subnet spec;
    inst_Tags := machineTags openStackCluster osm;
    inst_Image := oms_Image spec; inst_Flavor := oms_Flavor spec;
    inst_SSHKeyName := oms_SSHKeyName spec; inst_UserData := userData;
    inst_Metadata := oms_ServerMetadata spec;
    inst_ConfigDrive := oms_ConfigDrive spec;
    inst_RootVolume := oms_RootVolume spec; inst_ServerGroupID := "";
    inst_State := ""; inst_IP := ""; inst_FloatingIP := "" |} in
  o <- createInstance clusterName input ;;
  match o with
  | (_, Some e) =>
      _ <- notify (Warnf "FailedCreateServer" "Failed to create server %s: %v"
                     [ArgS (inst_Name input); ArgE e]) ;;
      ret (None, Some e)
  | (None, None) => panic
  | (Some out, None) =>
      _ <- notify (Eventf "SuccessfulCreateServer" "Created server %s with id %s"
                     [ArgS (inst_Name out); ArgS (inst_ID out)]) ;;
      ret (Some out, None)
  end end end end end end.

End Service.

(** ** An in-memory backend

    A small test double of the backend, used to run the service on concrete
    inputs.  Identifiers of created resources come from a supply; a port
    listed in [fw_busy] answers its next delete with a conflict; while
    [fw_down] is set the compute service answers a server lookup with 503. *)
Module Fake.

Record World := {
  fw_extensions : list string;
  fw_secgroups : list (string * string);      (* name, id *)
  fw_networks : list (string * string);       (* name, id *)
  fw_subnets : list (string * string);        (* id, network id *)
  fw_ports : list Port;
  fw_trunks : list (string * string * string); (* id, name, parent port *)
  fw_images : list (string * string);         (* name, id *)
  fw_flavors : list (string * string);        (* name, id *)
  fw_servers : list Server;
  fw_interfaces : list (string * string);     (* server id, port id *)
  fw_busy : list string;
  fw_supply : list string;
  fw_down : bool }.

Definition empty : World := {|
  fw_extensions := []; fw_secgroups := []; fw_networks := []; fw_subnets := [];
  fw_ports := []; fw_trunks := []; fw_images := []; fw_flavors := [];
  fw_servers := []; fw_interfaces := []; fw_busy := []; fw_supply := [];
  fw_down := false |}.

Definition with_ports (w : World) (ports : list Port) (busy supply : list string) : World := {|
  fw_extensions := fw_extensions w; fw_secgroups := fw_secgroups w;
  fw_networks := fw_networks w; fw_subnets := fw_subnets w;
  fw_ports := ports; fw_trunks := fw_trunks w; fw_images := fw_images w;
  fw_flavors := fw_flavors w; fw_servers := fw_servers w;
  fw_interfaces := fw_interfaces w; fw_busy := busy; fw_supply := supply;
  fw_down := fw_down w |}.

Definition with_trunks (w : World) (trunks : list (string * string * string))
  (supply : list string) : World := {|
  fw_extensions := fw_extensions w; fw_secgroups := fw_secgroups w;
  fw_networks := fw_networks w; fw_subnets := fw_subnets w;
  fw_ports := fw_ports w; fw_trunks := trunks; fw_images := fw_images w;
  fw_flavors := fw_flavors w; fw_servers := fw_servers w;
  fw_interfaces := fw_interfaces w; fw_busy := fw_busy w; fw_supply := supply;
  fw_down := fw_down w |}.

Definition with_servers (w : World) (servers : list Server)
  (interfaces : list (string * string)) (supply : list string) : World := {|
  fw_extensions := fw_extensions w; fw_secgroups := fw_secgroups w;
  fw_networks := fw_networks w; fw_subnets := fw_subnets w;
  fw_ports := fw_ports w; fw_trunks := fw_trunks w; fw_images := fw_images w;
  fw_flavors := fw_flavors w; fw_servers := servers;
  fw_interfaces := interfaces; fw_busy := fw_busy w; fw_supply := supply;
  fw_down := fw_down w |}.


Definition notFound (what : string) : error := BackendErr 404 (what ++ " not found").
Definition conflict (what : string) : error := BackendErr 409 (what ++ " in use").

(** A filter field selects everything when it is empty. *)
Definition sel (field value : string) : bool :=
  (field =? "")%string || (field =? value)%string.

Definition fresh (w : World) : string := hd "id" (fw_supply w).

Definition f_ports_Create (opts : PortCreateOpts) (w : World) : result Port * World :=
  let fixedIPs :=
    match pco_FixedIPs opts with
    | [] => map (fun s => {| ip_SubnetID := fst s; ip_IPAddress := "192.0.2.10" |})
                (firstn 1 (filter (fun s => (snd s =? pco_NetworkID opts)%string)
                                  (fw_subnets w)))
    | req => map (fun r => {| ip_SubnetID := ip_SubnetID r; ip_IPAddress := "192.0.2.20" |}) req
    end in
  let port := {| port_ID := fresh w; port_Name := pco_Name opts;
                 port_NetworkID := pco_NetworkID opts; port_FixedIPs := fixedIPs |} in
  (Ok port, with_ports w (fw_ports w ++ [port]) (fw_busy w) (tl (fw_supply w))).

Definition f_ports_Get (id : string) (w : World) : result Port * World :=
  match filter (fun p => (port_ID p =? id)%string) (fw_ports w) with
  | p :: _ => (Ok p, w)
  | [] => (Err (notFound "port"), w)
  end.

Fixpoint remove_one (id : string) (l : list string) : list string :=
  match l with
  | [] => []
  | x :: l' => if (x =? id)%string then l' else x :: remove_one id l'
  end.

Definition f_ports_Delete (id : string) (w : World) : option error * World :=
  if existsb (String.eqb id) (fw_busy w) then
    (Some (conflict "port"), with_ports w (fw_ports w) (remove_one id (fw_busy w)) (fw_supply w))
  else if existsb (fun p => (port_ID p =? id)%string) (fw_ports w) then
    (None, with_ports w (filter (fun p => negb (port_ID p =? id)%string) (fw_ports w))
                      (fw_busy w) (fw_supply w))
  else (Some (notFound "port"), w).

Definition f_trunks_Delete (id : string) (w : World) : option error * World :=
  if existsb (fun t => (fst (fst t) =? id)%string) (fw_trunks w) then
    (None, with_trunks w (filter (fun t => negb (fst (fst t) =? id)%string) (fw_trunks w))
                       (fw_supply w))
  else (Some (notFound "trunk"), w).

Definition f_trunks_Create (opts : TrunkCreateOpts) (w : World) : result Trunk * World :=
  (Ok {| trunk_ID := fresh w |},
   with_trunks w (fw_trunks w ++ [(fresh w, tco_Name opts, tco_PortID opts)])
               (tl (fw_supply w))).

Definition f_servers_Create (b : CreateOptsBuilder) (w : World) : result Server * World :=
  let o := baseOpts b in
  let server := {| srv_ID := fresh w; srv_Name := co_Name o; srv_KeyName := "";
                   srv_Status := "ACTIVE"; srv_AccessIPv4 := co_AccessIPv4 o;
                   srv_Addresses := [] |} in
  (Ok server,
   with_servers w (fw_servers w ++ [server])
     (fw_interfaces w ++ map (fun n => (fresh w, sn_Port n)) (co_Networks o))
     (tl (fw_supply w))).

Definition f_servers_Get (id : string) (w : World) : result Server * World :=
  if fw_down w then (Err (BackendErr 503 "service unavailable"), w) else
  match filter (fun s => (srv_ID s =? id)%string) (fw_servers w) with
  | s :: _ => (Ok s, w)
  | [] => (Err (notFound "server"), w)
  end.

Definition f_servers_Delete (id : string) (w : World) : option error * World :=
  if existsb (fun s => (srv_ID s =? id)%string) (fw_servers w) then
    (None, with_servers w (filter (fun s => negb (srv_ID s =? id)%string) (fw_servers w))
                        (fw_interfaces w) (fw_supply w))
  else (Some (notFound "server"), w).

(** The test double lists the servers whose name is the one between the
    anchors of the requested expression, all servers for an empty one. *)
Definition f_servers_List (opts : ServerListOpts) (w : World) : listing Server * World :=
  (Listed (filter (fun s => (slo_Name opts =? "")%string
                            || (slo_Name opts =? "^" ++ srv_Name s ++ "$")%string)
                  (fw_servers w)), w).

Definition f_interfaces_Delete (server port : string) (w : World) : option error * World :=
  (None, with_servers w (fw_servers w)
           (filter (fun x => negb ((fst x =? server)%string && (snd x =? port)%string))
                   (fw_interfaces w))
           (fw_supply w)).

(** "openstack:///ID" is the provider id of the server ID. *)
Definition f_NewProviderID (s : string) : result string :=
  if String.prefix "openstack:///" s
  then Ok (String.substring 13 (String.length s - 13) s)
  else Err (Errorf "invalid provider id" []).

Definition env : Env World := {|
  extensions_List w := (Listed (map Build_Extension (fw_extensions w)), w);
  groups_List opts w :=
    (Listed (map (fun g => {| secgroup_ID := snd g |})
               (filter (fun g => sel (sgf_Name opts) (fst g) && sel (sgf_ID opts) (snd g))
                       (fw_secgroups w))), w);
  networks_List opts w :=
    (Listed (map (fun n => {| netres_ID := snd n |})
               (filter (fun n => sel (nf_Name opts) (fst n) && sel (nf_ID opts) (snd n))
                       (fw_networks w))), w);
  GetSubnetsByFilter opts w :=
    (Ok (map (fun s => {| subres_ID := fst s; subres_NetworkID := snd s |})
           (filter (fun s => sel (sf_ID opts) (fst s) && sel (sf_NetworkID opts) (snd s))
                   (fw_subnets w))), w);
  ports_List opts w :=
    (Listed (filter (fun p => sel (plo_Name opts) (port_Name p)
                              && sel (plo_NetworkID opts) (port_NetworkID p))
                    (fw_ports w)), w);
  ports_Create := f_ports_Create;
  ports_Get := f_ports_Get;
  ports_Delete := f_ports_Delete;
  trunks_List opts w :=
    (Listed (map (fun t => {| trunk_ID := fst (fst t) |})
               (filter (fun t => sel (tlo_Name opts) (snd (fst t))
                                 && sel (tlo_PortID opts) (snd t))
                       (fw_trunks w))), w);
  trunks_Create := f_trunks_Create;
  trunks_Delete := f_trunks_Delete;
  attributestags_ReplaceAll kind id tags w := (Ok tags, w);
  flavors_IDFromName name w :=
    (match filter (fun f => (fst f =? name)%string) (fw_flavors w) with
     | f :: _ => Ok (snd f)
     | [] => Err (notFound "flavor")
     end, w);
  images_List name w :=
    (Listed (map (fun i => {| image_ID := snd i |})
               (filter (fun i => (fst i =? name)%string) (fw_images w))), w);
  servers_Create := f_servers_Create;
  servers_Get := f_servers_Get;
  servers_Delete := f_servers_Delete;
  servers_List := f_servers_List;
  attachinterfaces_List server w :=
    (Listed (map (fun x => {| if_PortID := snd x |})
               (filter (fun x => (fst x =? server)%string) (fw_interfaces w))), w);
  attachinterfaces_Delete := f_interfaces_Delete;
  IsNotFound e := match e with BackendErr 404 _ => true | _ => false end;
  IsRetryable e :=
    match e with
    | BackendErr 409 _ | BackendErr 500 _ | BackendErr 503 _ => true
    | _ => false
    end;
  IsControlPlaneMachine _ := false;
  NewProviderID := f_NewProviderID;
  ParseIP_valid s := negb (s =? "")%string;
  Getenv _ := "";
  Atoi _ := None;
  pollBudget interval timeout := Z.to_nat (timeout / interval) |}.

Definition start (w : World) : State World :=
  {| world := w; trace := []; notices := [] |}.

End Fake.

(** * Vocabulary of the properties *)

(** The order-preserving deduplication in the words of the specification:
    the first occurrence of a string is kept and all its later occurrences
    are removed. *)
Fixpoint first_occurrences (l : list string) : list string :=
  match l with
  | [] => []
  | x :: l' => x :: filter (λ y, y ≠ x) (first_occurrences l')
  end.

(** What an event says about the tag list it carries. *)
Definition uses_tags (tags : list string) (ev : Event) : Prop :=
  match ev with
  | EvServersCreate b _ => co_Tags (baseOpts b) = tags
  | EvTagsReplaceAll _ _ t _ => t = tags
  | _ => True
  end.

(** The boot devices and the scheduler hints that a payload carries. *)
Fixpoint blockDevices (b : CreateOptsBuilder) : list BlockDevice :=
  match b with
  | BaseOpts _ => []
  | BootFromVolumeExt inner devices => devices ++ blockDevices inner
  | SchedulerHintsExt inner _ => blockDevices inner
  | KeypairExt inner _ => blockDevices inner
  end.

Fixpoint schedulerHints (b : CreateOptsBuilder) : list SchedulerHints :=
  match b with
  | BaseOpts _ => []
  | BootFromVolumeExt inner _ => schedulerHints inner
  | SchedulerHintsExt inner hints => hints :: schedulerHints inner
  | KeypairExt inner _ => schedulerHints inner
  end.

(** The kind of a backend call. *)
Inductive Kind : Type :=
| KExtensionsList | KSecGroupsList | KNetworksList | KSubnetsByFilter
| KPortsList | KPortsCreate | KPortsGet | KPortsDelete
| KTrunksList | KTrunksCreate | KTrunksDelete | KTagsReplaceAll
| KFlavorIDFromName | KImagesList
| KServersCreate | KServersGet | KServersDelete | KServersList
| KInterfacesList | KInterfacesDelete.

Definition kind (ev : Event) : Kind :=
  match ev with
  | EvExtensionsList _ => KExtensionsList
  | EvSecGroupsList _ _ => KSecGroupsList
  | EvNetworksList _ _ => KNetworksList
  | EvSubnetsByFilter _ _ => KSubnetsByFilter
  | EvPortsList _ _ => KPortsList
  | EvPortsCreate _ _ => KPortsCreate
  | EvPortsGet _ _ => KPortsGet
  | EvPortsDelete _ _ => KPortsDelete
  | EvTrunksList _ _ => KTrunksList
  | EvTrunksCreate _ _ => KTrunksCreate
  | EvTrunksDelete _ _ => KTrunksDelete
  | EvTagsReplaceAll _ _ _ _ => KTagsReplaceAll
  | EvFlavorIDFromName _ _ => KFlavorIDFromName
  | EvImagesList _ _ => KImagesList
  | EvServersCreate _ _ => KServersCreate
  | EvServersGet _ _ => KServersGet
  | EvServersDelete _ _ => KServersDelete
  | EvServersList _ _ => KServersList
  | EvInterfacesList _ _ => KInterfacesList
  | EvInterfacesDelete _ _ _ => KInterfacesDelete
  end.

(** The event is a call of one of the kinds [ks]. *)
Definition among (ks : list Kind) (ev : Event) : Prop := In (kind ev) ks.

(** The lookups that precede the creation of resources in InstanceCreate. *)
Definition lookups : list Kind :=
  [KExtensionsList; KSecGroupsList; KNetworksList; KSubnetsByFilter].

Definition teardown_kinds : list Kind :=
  [KInterfacesDelete; KTrunksList; KTrunksDelete; KPortsDelete].

(** Every event that [m] appends to the trace satisfies [P]. *)
Definition emits {W A} (P : Event → Prop) (m : M W A) : Prop :=
  ∀ s, ∃ evs, trace (snd (m s)) = trace s ++ evs ∧ Forall P evs.

(** [m] does not panic, and every event it appends satisfies [P]. *)
Definition total {W A} (P : Event → Prop) (m : M W A) : Prop :=
  ∀ s, ∃ a evs, fst (m s) = Val a ∧ trace (snd (m s)) = trace s ++ evs ∧ Forall P evs.

(** Every run of [m] extends the trace by events that, with the outcome,
    satisfy [R]. *)
Definition observes {W A} (R : list Event → outcome A → Prop) (m : M W A) : Prop :=
  ∀ s, ∃ evs, trace (snd (m s)) = trace s ++ evs ∧ R evs (fst (m s)).



(** The events of a poll of delete calls that ran to completion: the
    attempts that failed with a retryable error, then the successful one. *)
Definition polled {W} (env : Env W) (del : option error → Event) (evs : list Event)
  : Prop :=
  ∃ retried, evs = map (λ e, del (Some e)) retried ++ [del None]
             ∧ Forall (λ e, IsRetryable env e = true) retried.

(** The events of the trunk block for one interface, run to completion. *)
Definition trunk_events {W} (env : Env W) (trunkSupport : bool) (port : Interface)
  (evs : list Event) : Prop :=
  if trunkSupport then
    ∃ trunkInfo rest,
      evs = EvTrunksList {| tlo_Name := ""; tlo_PortID := if_PortID port |}
                         (Listed trunkInfo) :: rest
      ∧ match trunkInfo with
        | [trunk] => polled env (EvTrunksDelete (trunk_ID trunk)) rest
        | _ => rest = []
        end
  else evs = [].

(** The events for one interface: detach, trunk block, polled port delete. *)
Definition interface_events {W} (env : Env W) (serverID : string)
  (trunkSupport : bool) (port : Interface) (evs : list Event) : Prop :=
  ∃ tevs pevs,
    evs = EvInterfacesDelete serverID (if_PortID port) None :: tevs ++ pevs
    ∧ trunk_events env trunkSupport port tevs
    ∧ polled env (EvPortsDelete (if_PortID port)) pevs.

(** The events of the loop over the interfaces, run to completion. *)
Fixpoint teardown_events {W} (env : Env W) (serverID : string) (trunkSupport : bool)
  (ports : list Interface) (evs : list Event) : Prop :=
  match ports with
  | [] => evs = []
  | port :: rest =>
      ∃ evs1 evs2, evs = evs1 ++ evs2
                   ∧ interface_events env serverID trunkSupport port evs1
                   ∧ teardown_events env serverID trunkSupport rest evs2
  end.

(** The shape of the trace of deleteInstance with result [err]: a nil
    result comes from an issued server delete; and when the server delete
    is issued, its result is the result of the teardown, it is the last
    call, and what precedes it is the listing alone, or the listing, the
    extension query and the completed loop. *)
Definition deleteInstance_shape {W} (env : Env W) (serverID : string)
  (err : option error) (evs : list Event) : Prop :=
  (err = None → In (EvServersDelete serverID None) evs)
  ∧ ∀ rd, In (EvServersDelete serverID rd) evs →
      err = rd
      ∧ (evs = [EvInterfacesList serverID (Listed []); EvServersDelete serverID rd]
         ∨ ∃ ports exts body,
             evs = EvInterfacesList serverID (Listed ports)
                   :: EvExtensionsList (Listed exts)
                   :: body ++ [EvServersDelete serverID rd]
             ∧ Forall (among teardown_kinds) body
             ∧ teardown_events env serverID (hasTrunkAlias exts) ports body).


(** The name filter of a server listing is a regular expression (comment
    of InstanceExists).  The expressions that the properties need are made
    of literal characters, the dot, which stands for any character, and
    the anchors: ^ in front binds the match to the start of the text, $ at
    the end binds it to the end of the text, and an expression without ^
    matches anywhere in the text. *)
Fixpoint matchHere (re text : string) : bool :=
  match re with
  | EmptyString => true
  | String c re' =>
      if Ascii.eqb c "$"%char && (re' =? "")%string then (text =? "")%string
      else match text with
           | EmptyString => false
           | String t text' => (Ascii.eqb c "."%char || Ascii.eqb c t) && matchHere re' text'
           end
  end.

Fixpoint matchAnywhere (re text : string) : bool :=
  matchHere re text
  || match text with
     | EmptyString => false
     | String _ text' => matchAnywhere re text'
     end.

Definition regexMatch (re text : string) : bool :=
  match re with
  | EmptyString => true
  | String c re' =>
      if Ascii.eqb c "^"%char then matchHere re' text else matchAnywhere re text
  end.

(** The characters with a meaning of their own in a regular expression. *)
Fixpoint occurs (c : Ascii.ascii) (s : string) : bool :=
  match s with
  | EmptyString => false
  | String d s' => Ascii.eqb c d || occurs c s'
  end.

Definition special (c : Ascii.ascii) : bool := occurs c "\.+*?()|[]{}^$".

(** A name without such characters. *)
Fixpoint plain (name : string) : bool :=
  match name with
  | EmptyString => true
  | String c name' => negb (special c) && plain name'
  end.

(** The ids of the security groups that the listings of a trace returned, in
    the order of the listings. *)
Definition listed_groups (evs : list Event) : list string :=
  flat_map (λ ev, match ev with
                  | EvSecGroupsList _ (Listed SGList) => map secgroup_ID SGList
                  | _ => []
                  end) evs.

(** A listing of security groups that found at least one group. *)
Definition groups_found (ev : Event) : Prop :=
  match ev with
  | EvSecGroupsList _ (Listed (_ :: _)) => True
  | _ => False
  end.

(** The event is the listing issued for the parameter [sg]: the id and the
    name of the request are the parameter's own, whatever its filter says,
    and the project is the filter's, or the service's when the filter has
    none. *)
Definition group_request (projectID : string) (sg : SecurityGroupParam) (ev : Event)
  : Prop :=
  ∃ opts r,
    ev = EvSecGroupsList opts r
    ∧ sgf_ID opts = sg_UUID sg
    ∧ sgf_Name opts = sg_Name sg
    ∧ sgf_Description opts = sgf_Description (sg_Filter sg)
    ∧ sgf_TenantID opts = sgf_TenantID (sg_Filter sg)
    ∧ (sgf_ProjectID (sg_Filter sg) = "" → sgf_ProjectID opts = projectID)
    ∧ (sgf_ProjectID (sg_Filter sg) ≠ "" →
       sgf_ProjectID opts = sgf_ProjectID (sg_Filter sg)).

(** How a listing of security groups fails with the error [e]. *)
Definition groups_failure (ev : Event) (e : error) : Prop :=
  match ev with
  | EvSecGroupsList opts (Listed []) =>
      e = Errorf "security group %s not found" [ArgS (sgf_Name opts)]
  | EvSecGroupsList _ (PageErr e') | EvSecGroupsList _ (ExtractErr e') => e = e'
  | _ => False
  end.

(** The entries of the address list of one network when every entry
    decodes, and otherwise the error of the first entry that does not. *)
Fixpoint decoded_list (networkList : list (result networkInterface))
  : result (list networkInterface) :=
  match networkList with
  | [] => Ok []
  | Err e :: _ => Err e
  | Ok netInterface :: rest =>
      match decoded_list rest with
      | Ok ns => Ok (netInterface :: ns)
      | Err e => Err e
      end
  end.

(** The entries of all the networks of a server, in the order in which the
    loops visit them, or the first error on the way. *)
Fixpoint decoded (addresses : list (string * result (list (result networkInterface))))
  : result (list networkInterface) :=
  match addresses with
  | [] => Ok []
  | (_, Err e) :: _ => Err e
  | (_, Ok networkList) :: rest =>
      match decoded_list networkList with
      | Err e => Err e
      | Ok ns => match decoded rest with
                 | Ok ms => Ok (ns ++ ms)
                 | Err e => Err e
                 end
      end
  end.

(** An IPv4 entry that is a floating address, and one that is not. *)
Definition floating_v4 (n : networkInterface) : bool :=
  (ni_Version n =? 4)%Z && (ni_Type n =? "floating")%string.

Definition fixed_v4 (n : networkInterface) : bool :=
  (ni_Version n =? 4)%Z && negb (ni_Type n =? "floating")%string.

(** The access address of a server is usable: not empty, and an IP address. *)
Definition access_usable {W} (env : Env W) (v : Server) : Prop :=
  srv_AccessIPv4 v ≠ "" ∧ ParseIP_valid env (srv_AccessIPv4 v) = true.

(** The address map of the server can be built. *)
Definition addressable {W} (env : Env W) (v : Server) : Prop :=
  ∃ addrMap, GetIPFromInstance env v = Ok addrMap.

(** The value is the result of a call to fmt.Errorf. *)
Definition formatted (e : error) : Prop := ∃ format args, e = Errorf format args.

(** The events of the cleanup of one port that went through: the lookup,
    answered with anything but a not-found error, then the delete. *)
Definition port_cleaned {W} (env : Env W) (n : ServerNetwork) (evs : list Event) : Prop :=
  ∃ r, evs = [EvPortsGet (sn_Port n) r; EvPortsDelete (sn_Port n) None]
       ∧ ∀ e, r = Err e → IsNotFound env e = false.

(** A run that has seen an event with the property [Q] has panicked at
    once: the event is the last one. *)
Definition fatal {A} (Q : Event → Prop) (evs : list Event) (o : outcome A) : Prop :=
  ∀ ev, In ev evs → Q ev → o = Panic ∧ ∃ pre, evs = pre ++ [ev].

(** The calls of the loop of createInstance over the networks, and the
    calls of createInstance. *)
Definition trunk_kinds : list Kind := [KTrunksList; KTrunksCreate; KTagsReplaceAll].

Definition port_kinds : list Kind := KPortsList :: KPortsCreate :: trunk_kinds.

Definition creation_kinds : list Kind :=
  [KImagesList; KPortsList; KPortsCreate; KTrunksList; KTrunksCreate; KTagsReplaceAll;
   KPortsGet; KPortsDelete; KFlavorIDFromName; KServersCreate; KServersGet].

(** A port lookup that found no port, for a network id under which the
    list holds no network with a subnet. *)
Definition unsubnetted_lookup (networkList : list Network) (ev : Event) : Prop :=
  ∃ opts, ev = EvPortsList opts (Listed [])
          ∧ ∀ n, In n networkList → net_ID n = plo_NetworkID opts → net_Subnet n = None.

(** A port lookup that found no port. *)
Definition empty_lookup (ev : Event) : Prop :=
  ∃ opts, ev = EvPortsList opts (Listed []).

(** A server lookup that was answered with a not-found error. *)
Definition lookup_not_found {W} (env : Env W) (ev : Event) : Prop :=
  ∃ id e, ev = EvServersGet id (Err e) ∧ IsNotFound env e = true.

(** What a run of createInstance shows when it returns no error: the
    server was created, then looked up until a lookup returned it in the
    active state, and the result is the conversion of that last answer. *)
Definition created {W} (env : Env W) (evs : list Event)
  (o : outcome (option Instance * option error)) : Prop :=
  ∀ x, o = Val (x, None) →
    ∃ inst pre req made polls server,
      x = Some inst
      ∧ evs = pre ++ EvServersCreate req (Ok made) :: polls
                  ++ [EvServersGet (srv_ID made) (Ok server)]
      ∧ Forall (among [KServersGet]) polls
      ∧ serverToInstance env (Some server) = (Some inst, None)
      ∧ srv_Status server = InstanceStateActive.

(** What a run of createInstance shows when the creation of the server
    failed: only the cleanup of the ports follows, and the result is the
    error of the creation, or, when the cleanup failed, the error of the
    cleanup in its place. *)
Definition create_failed (evs : list Event)
  (o : outcome (option Instance * option error)) : Prop :=
  ∀ req e, In (EvServersCreate req (Err e)) evs →
    ∃ pre post x,
      evs = pre ++ EvServersCreate req (Err e) :: post
      ∧ Forall (among [KPortsGet; KPortsDelete]) post
      ∧ o = Val (None, Some x)
      ∧ ((x = Errorf "error creating Openstack instance: %v" [ArgE e]
          ∧ ∀ id errd, ¬ In (EvPortsDelete id (Some errd)) post)
         ∨ ∃ errd id,
             In (EvPortsDelete id (Some errd)) post
             ∧ x = Errorf "error recover creating Openstack instance: error cleaning up ports: %v"
                     [ArgE errd]).

(** The computation sends nothing to the event recorder. *)
Definition silent {W A} (m : M W A) : Prop :=
  ∀ s, notices (snd (m s)) = notices s.

(** The calls of a teardown. *)
Definition deletion_kinds : list Kind :=
  [KInterfacesList; KExtensionsList; KInterfacesDelete; KTrunksList; KTrunksDelete;
   KPortsDelete; KServersDelete; KServersGet].

(** The call concerns no trunk. *)
Definition trunkless (ev : Event) : Prop :=
  ¬ In (kind ev) [KTrunksList; KTrunksCreate; KTrunksDelete; KTagsReplaceAll].

(** The calls of createInstance for an instance without a trunk. *)
Definition plain_creation_kinds : list Kind :=
  [KImagesList; KPortsList; KPortsCreate; KPortsGet; KPortsDelete; KFlavorIDFromName;
   KServersCreate; KServersGet].

(** The calls of InstanceCreate for a machine that asks for no trunk. *)
Definition untrunked_kinds : list Kind :=
  [KSecGroupsList; KNetworksList; KSubnetsByFilter] ++ plain_creation_kinds.

(** What an event says about the security groups it carries. *)
Definition uses_groups (securityGroups : list string) (ev : Event) : Prop :=
  match ev with
  | EvPortsCreate opts _ => pco_SecurityGroups opts = Some securityGroups
  | EvServersCreate b _ => co_SecurityGroups (baseOpts b) = securityGroups
  | _ => True
  end.

(** The security group that a cluster with managed security groups adds
    for the machine. *)
Definition managed_groups {W} (env : Env W) (openStackCluster : OpenStackCluster)
  (machine : Machine) : list string :=
  if ocs_ManagedSecurityGroups (osc_Spec openStackCluster) then
    if IsControlPlaneMachine env machine
    then [secgroup_ID (ocst_ControlPlaneSecurityGroup (osc_Status openStackCluster))]
    else [secgroup_ID (ocst_WorkerSecurityGroup (osc_Status openStackCluster))]
  else [].

(** Every run of [m] sends to the event recorder notifications that, with
    the outcome, satisfy [N]. *)
Definition records {W A} (N : list Notice → outcome A → Prop) (m : M W A) : Prop :=
  ∀ s, ∃ ns, notices (snd (m s)) = notices s ++ ns ∧ N ns (fst (m s)).

(** What InstanceCreate returns and records: an active instance and the
    notification of its creation; or an error and no instance, with at
    most the warning that carries the error. *)
Definition creation_report (openStackMachine : option OpenStackMachine)
  (ns : list Notice) (o : outcome (option Instance * option error)) : Prop :=
  match o with
  | Val (Some out, None) =>
      inst_State out = InstanceStateActive
      ∧ ns = [Eventf "SuccessfulCreateServer" "Created server %s with id %s"
                [ArgS (inst_Name out); ArgS (inst_ID out)]]
  | Val (None, Some e) =>
      ns = []
      ∨ ∃ osm, openStackMachine = Some osm
               ∧ ns = [Warnf "FailedCreateServer" "Failed to create server %s: %v"
                         [ArgS (osm_Name osm); ArgE e]]
  | Val (Some _, Some _) | Val (None, None) => False
  | Panic => ns = []
  end.

(** The port that a call provides for a network: the first port of a
    listing that found one, or the port that was created. *)
Definition obtained_port (ev : Event) : option Port :=
  match ev with
  | EvPortsList _ (Listed (port :: _)) => Some port
  | EvPortsCreate _ (Ok port) => Some port
  | _ => None
  end.

Definition obtained_ports (evs : list Event) : list Port := omap obtained_port evs.

(** The address of the last of the fixed IPs that is on the subnet, or the
    empty string. *)
Definition address_on (subnet : string) (fixedIPs : list IP) : string :=
  default "" (ip_IPAddress <$> last (filter (λ fip, (ip_SubnetID fip =? subnet)%string)
                                            fixedIPs)).

(** What a server-create request says about the ports [ports] and the
    access subnet: it lists the ports, in order, and its access address is
    the address that the ports have on the subnet. *)
Definition requests_ports (ports : list Port) (subnet : string) (ev : Event) : Prop :=
  match ev with
  | EvServersCreate b _ =>
      co_Networks (baseOpts b) = map (λ port, {| sn_Port := port_ID port |}) ports
      ∧ co_AccessIPv4 (baseOpts b) = address_on subnet (flat_map port_FixedIPs ports)
      ∧ (subnet ≠ "" → co_AccessIPv4 (baseOpts b) ≠ "")
  | _ => True
  end.

(** A lookup of InstanceCreate that failed: a listing or a subnet query
    that returned an error, or a listing of security groups that found no
    group. *)
Definition failed_lookup (ev : Event) : Prop :=
  match ev with
  | EvExtensionsList (PageErr _) | EvExtensionsList (ExtractErr _) => True
  | EvSecGroupsList _ (PageErr _) | EvSecGroupsList _ (ExtractErr _)
  | EvSecGroupsList _ (Listed []) => True
  | EvNetworksList _ (PageErr _) | EvNetworksList _ (ExtractErr _) => True
  | EvSubnetsByFilter _ (Err _) => True
  | _ => False
  end.

(** No lookup of the list failed. *)
Definition unfailed (evs : list Event) : Prop := Forall (λ ev, ¬ failed_lookup ev) evs.

(** A run of lookups that stops when one fails: all its calls are lookups;
    no lookup failed when it returns a value that is no [failure] or
    panics; and when it returns a failure, no lookup before the last call
    failed. *)
Definition stops_when {A} (failure : A → Prop) (evs : list Event) (o : outcome A)
  : Prop :=
  Forall (among lookups) evs
  ∧ ((o = Panic ∧ unfailed evs)
     ∨ ∃ a, o = Val a
         ∧ ((¬ failure a ∧ unfailed evs)
            ∨ (failure a ∧ ∃ pre rest, evs = pre ++ rest ∧ (length rest ≤ 1)%nat
                                       ∧ unfailed pre))).

(** A failed lookup ends the run with an error: it is the last call, and
    all calls were lookups. *)
Definition fails_fast (evs : list Event) (o : outcome (option Instance * option error))
  : Prop :=
  ∀ ev, In ev evs → failed_lookup ev →
    (∃ e, o = Val (None, Some e))
    ∧ (∃ pre, evs = pre ++ [ev])
    ∧ Forall (among lookups) evs.

(** The value carries an error. *)
Definition with_error {A} (x : A * option error) : Prop := snd x ≠ None.

Definition is_error {A} (t : result A) : Prop := ∃ e, t = Err e.

(** The creation of a port or of a trunk. *)
Definition is_creation (ev : Event) : Prop :=
  match ev with
  | EvPortsCreate _ _ | EvTrunksCreate _ _ => True
  | _ => False
  end.

(** The call [prev] is the lookup that allows the creation [ev] for the
    server [name]: the port, or the trunk, is created under the name of the
    server, and [prev] is the listing of the ports with this name on the
    network of the new port, or of the trunks with this name on the parent
    port of the new trunk, and it found none. *)
Definition guards (name : string) (prev ev : Event) : Prop :=
  match ev with
  | EvPortsCreate opts _ =>
      pco_Name opts = name
      ∧ prev = EvPortsList {| plo_Name := name; plo_NetworkID := pco_NetworkID opts |}
                           (Listed [])
  | EvTrunksCreate opts _ =>
      tco_Name opts = name
      ∧ prev = EvTrunksList {| tlo_Name := name; tlo_PortID := tco_PortID opts |}
                            (Listed [])
  | _ => True
  end.

(** Every creation in [evs] directly follows its lookup; [prev] is the call
    before the first of [evs]. *)
Fixpoint guarded_from (name : string) (prev : option Event) (evs : list Event) : Prop :=
  match evs with
  | [] => True
  | ev :: rest =>
      (is_creation ev → ∃ p, prev = Some p ∧ guards name p ev)
      ∧ guarded_from name (Some ev) rest
  end.

(** The same of the calls of a run, whatever its outcome. *)
Definition guarded_run {A} (name : string) (prev : option Event)
  (evs : list Event) (_ : outcome A) : Prop := guarded_from name prev evs.

(** * Sample data for the in-memory backend *)

Definition sampleOpts : CreateOptsBuilder := BaseOpts {|
  co_Name := "node-0"; co_ImageRef := ""; co_FlavorRef := "f1";
  co_AvailabilityZone := "az1"; co_Networks := []; co_UserData := "";
  co_SecurityGroups := []; co_Tags := []; co_Metadata := ∅;
  co_ConfigDrive := None; co_AccessIPv4 := "" |}.

Definition sampleVolume : RootVolume := {|
  rv_SourceType := "image"; rv_SourceUUID := "img-1"; rv_DeviceType := "disk";
  rv_Size := 20 |}.

Definition emptyVolume : RootVolume := {|
  rv_SourceType := "image"; rv_SourceUUID := "img-1"; rv_DeviceType := "disk";
  rv_Size := 0 |}.

Definition imagesWorld : Fake.World := {|
  Fake.fw_extensions := []; Fake.fw_secgroups := []; Fake.fw_networks := [];
  Fake.fw_subnets := []; Fake.fw_ports := []; Fake.fw_trunks := [];
  Fake.fw_images := [("ubuntu", "img-1"); ("debian", "img-2"); ("debian", "img-3")];
  Fake.fw_flavors := []; Fake.fw_servers := []; Fake.fw_interfaces := [];
  Fake.fw_busy := []; Fake.fw_supply := []; Fake.fw_down := false |}.

Definition outage : Fake.World := {|
  Fake.fw_extensions := []; Fake.fw_secgroups := []; Fake.fw_networks := [];
  Fake.fw_subnets := []; Fake.fw_ports := []; Fake.fw_trunks := [];
  Fake.fw_images := []; Fake.fw_flavors := []; Fake.fw_servers := [];
  Fake.fw_interfaces := []; Fake.fw_busy := []; Fake.fw_supply := [];
  Fake.fw_down := true |}.

Definition twoServers : Fake.World := {|
  Fake.fw_extensions := []; Fake.fw_secgroups := []; Fake.fw_networks := [];
  Fake.fw_subnets := []; Fake.fw_ports := []; Fake.fw_trunks := [];
  Fake.fw_images := []; Fake.fw_flavors := [];
  Fake.fw_servers :=
    [ {| srv_ID := "srv-10"; srv_Name := "node-10"; srv_KeyName := "";
         srv_Status := "ACTIVE"; srv_AccessIPv4 := "192.0.2.10"; srv_Addresses := [] |};
      {| srv_ID := "srv-2"; srv_Name := "node-2"; srv_KeyName := "";
         srv_Status := "ACTIVE"; srv_AccessIPv4 := "192.0.2.2"; srv_Addresses := [] |} ];
  Fake.fw_interfaces := []; Fake.fw_busy := []; Fake.fw_supply := [];
  Fake.fw_down := false |}.

Definition pendingMachine : Machine :=
  {| m_Name := "node-0";
     m_Spec := {| ms_FailureDomain := Some "az1"; ms_ProviderID := None |} |}.

Definition sampleMachineSpec : OpenStackMachineSpec := {|
  oms_Image := ""; oms_Flavor := "m1.small"; oms_SSHKeyName := "key";
  oms_ServerMetadata := ∅; oms_ConfigDrive := None; oms_RootVolume := None;
  oms_Subnet := ""; oms_Trunk := false; oms_Tags := [];
  oms_SecurityGroups := []; oms_Networks := [] |}.

(** A server with one interface whose port is the parent of one trunk; the
    port answers its first delete with a conflict. *)
Definition trunkedServer : Fake.World := {|
  Fake.fw_extensions := ["router"; "trunk"]; Fake.fw_secgroups := [];
  Fake.fw_networks := [("net-a", "id-a")]; Fake.fw_subnets := [("s1", "id-a")];
  Fake.fw_ports :=
    [ {| port_ID := "port-1"; port_Name := "node-0"; port_NetworkID := "id-a";
         port_FixedIPs := [{| ip_SubnetID := "s1"; ip_IPAddress := "192.0.2.5" |}] |} ];
  Fake.fw_trunks := [("trunk-1", "node-0", "port-1")];
  Fake.fw_images := []; Fake.fw_flavors := [];
  Fake.fw_servers :=
    [ {| srv_ID := "srv-1"; srv_Name := "node-0"; srv_KeyName := "";
         srv_Status := "ACTIVE"; srv_AccessIPv4 := "192.0.2.5"; srv_Addresses := [] |} ];
  Fake.fw_interfaces := [("srv-1", "port-1")];
  Fake.fw_busy := ["port-1"]; Fake.fw_supply := []; Fake.fw_down := false |}.

(** The same server with a port that answers every delete of the poll with
    a conflict. *)
Definition stuckPort : Fake.World := {|
  Fake.fw_extensions := ["router"; "trunk"]; Fake.fw_secgroups := [];
  Fake.fw_networks := [("net-a", "id-a")]; Fake.fw_subnets := [("s1", "id-a")];
  Fake.fw_ports := Fake.fw_ports trunkedServer;
  Fake.fw_trunks := [("trunk-1", "node-0", "port-1")];
  Fake.fw_images := []; Fake.fw_flavors := [];
  Fake.fw_servers := Fake.fw_servers trunkedServer;
  Fake.fw_interfaces := [("srv-1", "port-1")];
  Fake.fw_busy := repeat "port-1" 40; Fake.fw_supply := []; Fake.fw_down := false |}.

(** Two networks; the first has two subnets. *)
Definition twoNetworks : Fake.World := {|
  Fake.fw_extensions := []; Fake.fw_secgroups := [];
  Fake.fw_networks := [("net-a", "id-a"); ("net-b", "id-b")];
  Fake.fw_subnets := [("s1", "id-a"); ("s2", "id-a"); ("s3", "id-b")];
  Fake.fw_ports := []; Fake.fw_trunks := [];
  Fake.fw_images := []; Fake.fw_flavors := [("m1.small", "flv-1")];
  Fake.fw_servers := []; Fake.fw_interfaces := []; Fake.fw_busy := [];
  Fake.fw_supply := ["port-1"; "port-2"; "srv-1"]; Fake.fw_down := false |}.

Definition onSubnet (network subnet : string) : Network :=
  {| net_ID := network; net_Subnet := Some {| subnet_ID := subnet |} |}.

(** An instance attached to both subnets of the first network and to the
    second network, asking for an access address on a subnet, s9, on which
    it gets no port. *)
Definition strayInstance : Instance := {|
  inst_ID := ""; inst_Name := "node-0"; inst_Trunk := false;
  inst_FailureDomain := "az1"; inst_SecurityGroups := Some [];
  inst_Networks :=
    Some [onSubnet "id-a" "s1"; onSubnet "id-a" "s2"; onSubnet "id-b" "s3"];
  inst_Subnet := "s9"; inst_Tags := []; inst_Image := ""; inst_Flavor := "m1.small";
  inst_SSHKeyName := ""; inst_UserData := ""; inst_Metadata := ∅;
  inst_ConfigDrive := None; inst_RootVolume := None; inst_ServerGroupID := "";
  inst_State := ""; inst_IP := ""; inst_FloatingIP := "" |}.

Definition portOn (id network subnet : string) : Port :=
  {| port_ID := id; port_Name := "node-0"; port_NetworkID := network;
     port_FixedIPs := [{| ip_SubnetID := subnet; ip_IPAddress := "192.0.2.20" |}] |}.

Definition portRequest (network subnet : string) : PortCreateOpts :=
  {| pco_Name := "node-0"; pco_NetworkID := network;
     pco_SecurityGroups := Some [];
     pco_Description := "Created by cluster-api-provider-openstack cluster c1";
     pco_FixedIPs := [{| ip_SubnetID := subnet; ip_IPAddress := "" |}] |}.

Definition named (name : string) : Filter :=
  {| nf_ID := ""; nf_Name := name; nf_Description := ""; nf_TenantID := "";
     nf_ProjectID := "" |}.

Definition anySubnet : SubnetParam :=
  {| sp_UUID := "";
     sp_Filter := {| sf_ID := ""; sf_Name := ""; sf_NetworkID := ""; sf_CIDR := "";
                     sf_ProjectID := "" |} |}.

Definition attach (network : string) : NetworkParam :=
  {| np_UUID := ""; np_Filter := named network; np_Subnets := Some [anySubnet] |}.

(** The two networks on a backend with the trunk extension. *)
Definition trunkNetworks : Fake.World := {|
  Fake.fw_extensions := ["trunk"]; Fake.fw_secgroups := [];
  Fake.fw_networks := [("net-a", "id-a"); ("net-b", "id-b")];
  Fake.fw_subnets := [("s1", "id-a"); ("s2", "id-a"); ("s3", "id-b")];
  Fake.fw_ports := []; Fake.fw_trunks := [];
  Fake.fw_images := []; Fake.fw_flavors := [("m1.small", "flv-1")];
  Fake.fw_servers := []; Fake.fw_interfaces := []; Fake.fw_busy := [];
  Fake.fw_supply := ["port-b"; "trunk-b"; "srv-1"]; Fake.fw_down := false |}.


Definition attachPlain (network : string) : NetworkParam :=
  {| np_UUID := ""; np_Filter := named network; np_Subnets := None |}.

Definition sampleCluster : OpenStackCluster := {|
  osc_Spec := {| ocs_Tags := ["b"; "c"]; ocs_ManagedSecurityGroups := false |};
  osc_Status := {| ocst_Network := onSubnet "id-a" "s1";
                   ocst_ControlPlaneSecurityGroup := {| secgroup_ID := "sg-cp" |};
                   ocst_WorkerSecurityGroup := {| secgroup_ID := "sg-w" |} |} |}.

Definition machineOn (networks : list NetworkParam) (subnet : string)
  : OpenStackMachine := {|
  osm_Name := "node-0";
  osm_Spec := {|
    oms_Image := ""; oms_Flavor := "m1.small"; oms_SSHKeyName := "key";
    oms_ServerMetadata := ∅; oms_ConfigDrive := None; oms_RootVolume := None;
    oms_Subnet := subnet; oms_Trunk := false; oms_Tags := ["a"; "b"; "a"];
    oms_SecurityGroups := []; oms_Networks := networks |} |}.

(** A machine on the second network that asks for a trunk. *)
Definition trunkMachine : OpenStackMachine := {|
  osm_Name := "node-0";
  osm_Spec := {|
    oms_Image := ""; oms_Flavor := "m1.small"; oms_SSHKeyName := "key";
    oms_ServerMetadata := ∅; oms_ConfigDrive := None; oms_RootVolume := None;
    oms_Subnet := "s3"; oms_Trunk := true; oms_Tags := ["a"; "b"; "a"];
    oms_SecurityGroups := []; oms_Networks := [attach "net-b"] |} |}.

(** A server with two interfaces; each of the two ports carries a trunk,
    and the first port answers its first delete with a conflict. *)
Definition twoTrunkedPorts : Fake.World := {|
  Fake.fw_extensions := ["router"; "trunk"]; Fake.fw_secgroups := [];
  Fake.fw_networks := [("net-a", "id-a"); ("net-b", "id-b")];
  Fake.fw_subnets := [("s1", "id-a"); ("s3", "id-b")];
  Fake.fw_ports :=
    [ {| port_ID := "port-1"; port_Name := "node-0"; port_NetworkID := "id-a";
         port_FixedIPs := [{| ip_SubnetID := "s1"; ip_IPAddress := "192.0.2.5" |}] |};
      {| port_ID := "port-2"; port_Name := "node-0"; port_NetworkID := "id-b";
         port_FixedIPs := [{| ip_SubnetID := "s3"; ip_IPAddress := "192.0.2.6" |}] |} ];
  Fake.fw_trunks := [("trunk-1", "node-0", "port-1"); ("trunk-2", "node-0", "port-2")];
  Fake.fw_images := []; Fake.fw_flavors := [];
  Fake.fw_servers := Fake.fw_servers trunkedServer;
  Fake.fw_interfaces := [("srv-1", "port-1"); ("srv-1", "port-2")];
  Fake.fw_busy := ["port-1"]; Fake.fw_supply := []; Fake.fw_down := false |}.

(** The in-memory backend with a server listing that reads the name filter
    as a regular expression. *)
Definition regexEnv : Env Fake.World := {|
  extensions_List := extensions_List Fake.env;
  groups_List := groups_List Fake.env;
  networks_List := networks_List Fake.env;
  GetSubnetsByFilter := GetSubnetsByFilter Fake.env;
  ports_List := ports_List Fake.env;
  ports_Create := ports_Create Fake.env;
  ports_Get := ports_Get Fake.env;
  ports_Delete := ports_Delete Fake.env;
  trunks_List := trunks_List Fake.env;
  trunks_Create := trunks_Create Fake.env;
  trunks_Delete := trunks_Delete Fake.env;
  attributestags_ReplaceAll := attributestags_ReplaceAll Fake.env;
  flavors_IDFromName := flavors_IDFromName Fake.env;
  images_List := images_List Fake.env;
  servers_Create := servers_Create Fake.env;
  servers_Get := servers_Get Fake.env;
  servers_Delete := servers_Delete Fake.env;
  servers_List opts w :=
    (Listed (filter (λ s, regexMatch (slo_Name opts) (srv_Name s)) (Fake.fw_servers w)),
     w);
  attachinterfaces_List := attachinterfaces_List Fake.env;
  attachinterfaces_Delete := attachinterfaces_Delete Fake.env;
  IsNotFound := IsNotFound Fake.env;
  IsRetryable := IsRetryable Fake.env;
  IsControlPlaneMachine := IsControlPlaneMachine Fake.env;
  NewProviderID := NewProviderID Fake.env;
  ParseIP_valid := ParseIP_valid Fake.env;
  Getenv := Getenv Fake.env;
  Atoi := Atoi Fake.env;
  pollBudget := pollBudget Fake.env |}.

(** A backend whose only server is called node-0. *)
Definition dashedServer : Fake.World := {|
  Fake.fw_extensions := []; Fake.fw_secgroups := []; Fake.fw_networks := [];
  Fake.fw_subnets := []; Fake.fw_ports := []; Fake.fw_trunks := [];
  Fake.fw_images := []; Fake.fw_flavors := [];
  Fake.fw_servers :=
    [ {| srv_ID := "srv-1"; srv_Name := "node-0"; srv_KeyName := "";
         srv_Status := "ACTIVE"; srv_AccessIPv4 := "192.0.2.5"; srv_Addresses := [] |} ];
  Fake.fw_interfaces := []; Fake.fw_busy := []; Fake.fw_supply := [];
  Fake.fw_down := false |}.

Definition groupsWorld : Fake.World := {|
  Fake.fw_extensions := [];
  Fake.fw_secgroups := [("web", "sg-1"); ("db", "sg-2"); ("web", "sg-3")];
  Fake.fw_networks := []; Fake.fw_subnets := []; Fake.fw_ports := [];
  Fake.fw_trunks := []; Fake.fw_images := []; Fake.fw_flavors := [];
  Fake.fw_servers := []; Fake.fw_interfaces := []; Fake.fw_busy := [];
  Fake.fw_supply := []; Fake.fw_down := false |}.

Definition groupNamed (name : string) : SecurityGroupParam :=
  {| sg_UUID := ""; sg_Name := name;
     sg_Filter := {| sgf_ID := "ignored"; sgf_Name := "ignored"; sgf_Description := "";
                     sgf_TenantID := ""; sgf_ProjectID := "" |} |}.

Definition entry (address : string) (version : Z) (type : string) : result networkInterface :=
  Ok {| ni_Address := address; ni_Version := version; ni_Type := type |}.

(** A server on two networks, with a floating address on the first. *)
Definition addressedServer (access : string) : Server := {|
  srv_ID := "srv-7"; srv_Name := "node-7"; srv_KeyName := "key"; srv_Status := "ACTIVE";
  srv_AccessIPv4 := access;
  srv_Addresses :=
    [ ("net-a", Ok [entry "10.0.0.4" 4 "fixed"; entry "fd00::4" 6 "fixed";
                    entry "203.0.113.9" 4 "floating"]);
      ("net-b", Ok [entry "10.0.1.4" 4 "fixed"]) ] |}.

(** The same server with an entry that does not decode on the second
    network. *)
Definition brokenServer (access : string) : Server := {|
  srv_ID := "srv-7"; srv_Name := "node-7"; srv_KeyName := "key"; srv_Status := "ACTIVE";
  srv_AccessIPv4 := access;
  srv_Addresses :=
    [ ("net-a", Ok [entry "10.0.0.4" 4 "fixed"]);
      ("net-b", Ok [entry "10.0.1.4" 4 "fixed";
                    Err (Errorf "json: cannot unmarshal" [])]) ] |}.

Definition serversWorld (servers : list Server) : Fake.World := {|
  Fake.fw_extensions := []; Fake.fw_secgroups := []; Fake.fw_networks := [];
  Fake.fw_subnets := []; Fake.fw_ports := []; Fake.fw_trunks := [];
  Fake.fw_images := []; Fake.fw_flavors := []; Fake.fw_servers := servers;
  Fake.fw_interfaces := []; Fake.fw_busy := []; Fake.fw_supply := [];
  Fake.fw_down := false |}.

Definition twoPorts : Fake.World :=
  Fake.with_ports twoNetworks
    [portOn "port-1" "id-a" "s1"; portOn "port-2" "id-b" "s3"] [] [].

(** An instance on the first network, without a subnet. *)
Definition plainInstance : Instance := {|
  inst_ID := ""; inst_Name := "node-0"; inst_Trunk := false;
  inst_FailureDomain := "az1"; inst_SecurityGroups := Some [];
  inst_Networks := Some [{| net_ID := "id-a"; net_Subnet := None |}];
  inst_Subnet := ""; inst_Tags := []; inst_Image := ""; inst_Flavor := "m1.small";
  inst_SSHKeyName := ""; inst_UserData := ""; inst_Metadata := ∅;
  inst_ConfigDrive := None; inst_RootVolume := None; inst_ServerGroupID := "";
  inst_State := ""; inst_IP := ""; inst_FloatingIP := "" |}.

(** The in-memory backend with another compute service for the creation
    and the lookup of a server. *)
Definition withCompute
  (create : CreateOptsBuilder → Fake.World → result Server * Fake.World)
  (get : string → Fake.World → result Server * Fake.World) : Env Fake.World := {|
  extensions_List := extensions_List Fake.env;
  groups_List := groups_List Fake.env;
  networks_List := networks_List Fake.env;
  GetSubnetsByFilter := GetSubnetsByFilter Fake.env;
  ports_List := ports_List Fake.env;
  ports_Create := ports_Create Fake.env;
  ports_Get := ports_Get Fake.env;
  ports_Delete := ports_Delete Fake.env;
  trunks_List := trunks_List Fake.env;
  trunks_Create := trunks_Create Fake.env;
  trunks_Delete := trunks_Delete Fake.env;
  attributestags_ReplaceAll := attributestags_ReplaceAll Fake.env;
  flavors_IDFromName := flavors_IDFromName Fake.env;
  images_List := images_List Fake.env;
  servers_Create := create;
  servers_Get := get;
  servers_Delete := servers_Delete Fake.env;
  servers_List := servers_List Fake.env;
  attachinterfaces_List := attachinterfaces_List Fake.env;
  attachinterfaces_Delete := attachinterfaces_Delete Fake.env;
  IsNotFound := IsNotFound Fake.env;
  IsRetryable := IsRetryable Fake.env;
  IsControlPlaneMachine := IsControlPlaneMachine Fake.env;
  NewProviderID := NewProviderID Fake.env;
  ParseIP_valid := ParseIP_valid Fake.env;
  Getenv := Getenv Fake.env;
  Atoi := Atoi Fake.env;
  pollBudget := pollBudget Fake.env |}.

(** A compute service in which a created server is not visible yet: every
    lookup is answered with a not-found error. *)
Definition laggingEnv : Env Fake.World :=
  withCompute Fake.f_servers_Create (λ id w, (Err (Fake.notFound "server"), w)).

(** A compute service that refuses to create servers. *)
Definition quotaEnv : Env Fake.World :=
  withCompute (λ _ w, (Err (BackendErr 403 "quota exceeded"), w)) Fake.f_servers_Get.

(** An instance on the third subnet, which is also its access subnet. *)
Definition readyInstance : Instance := {|
  inst_ID := ""; inst_Name := "node-0"; inst_Trunk := false;
  inst_FailureDomain := "az1"; inst_SecurityGroups := Some ["sg-1"];
  inst_Networks := Some [onSubnet "id-b" "s3"];
  inst_Subnet := "s3"; inst_Tags := ["a"]; inst_Image := ""; inst_Flavor := "m1.small";
  inst_SSHKeyName := "key"; inst_UserData := ""; inst_Metadata := ∅;
  inst_ConfigDrive := None; inst_RootVolume := None; inst_ServerGroupID := "";
  inst_State := ""; inst_IP := ""; inst_FloatingIP := "" |}.

Definition runningMachine (id : string) : Machine :=
  {| m_Name := "node-2";
     m_Spec := {| ms_FailureDomain := Some "az1";
                  ms_ProviderID := Some ("openstack:///" ++ id)%string |} |}.

(** The server of [trunkedServer] on a backend without the trunk
    extension; the trunk on its port is still there. *)
Definition untrunkedServer : Fake.World := {|
  Fake.fw_extensions := ["router"]; Fake.fw_secgroups := [];
  Fake.fw_networks := [("net-a", "id-a")]; Fake.fw_subnets := [("s1", "id-a")];
  Fake.fw_ports := Fake.fw_ports trunkedServer;
  Fake.fw_trunks := [("trunk-1", "node-0", "port-1")];
  Fake.fw_images := []; Fake.fw_flavors := [];
  Fake.fw_servers := Fake.fw_servers trunkedServer;
  Fake.fw_interfaces := [("srv-1", "port-1")];
  Fake.fw_busy := []; Fake.fw_supply := []; Fake.fw_down := false |}.

Definition managedCluster : OpenStackCluster := {|
  osc_Spec := {| ocs_Tags := []; ocs_ManagedSecurityGroups := true |};
  osc_Status := {| ocst_Network := onSubnet "id-b" "s3";
                   ocst_ControlPlaneSecurityGroup := {| secgroup_ID := "sg-cp" |};
                   ocst_WorkerSecurityGroup := {| secgroup_ID := "sg-1" |} |} |}.

(** The backend of [twoNetworks] with three security groups, two of them
    with the same name. *)
Definition groupedNetworks : Fake.World := {|
  Fake.fw_extensions := [];
  Fake.fw_secgroups := [("web", "sg-1"); ("db", "sg-2"); ("web", "sg-3")];
  Fake.fw_networks := [("net-a", "id-a"); ("net-b", "id-b")];
  Fake.fw_subnets := [("s1", "id-a"); ("s2", "id-a"); ("s3", "id-b")];
  Fake.fw_ports := []; Fake.fw_trunks := [];
  Fake.fw_images := []; Fake.fw_flavors := [("m1.small", "flv-1")];
  Fake.fw_servers := []; Fake.fw_interfaces := []; Fake.fw_busy := [];
  Fake.fw_supply := ["port-1"; "srv-1"]; Fake.fw_down := false |}.

Definition groupedMachine : OpenStackMachine := {|
  osm_Name := "node-0";
  osm_Spec := {|
    oms_Image := ""; oms_Flavor := "m1.small"; oms_SSHKeyName := "key";
    oms_ServerMetadata := ∅; oms_ConfigDrive := None; oms_RootVolume := None;
    oms_Subnet := ""; oms_Trunk := false; oms_Tags := [];
    oms_SecurityGroups := [groupNamed "web"; groupNamed "db"; groupNamed "web"];
    oms_Networks := [] |} |}.

(** The instance of [strayInstance] with the third subnet for its access
    address. *)
Definition doubledInstance : Instance := {|
  inst_ID := ""; inst_Name := "node-0"; inst_Trunk := false;
  inst_FailureDomain := "az1"; inst_SecurityGroups := Some [];
  inst_Networks :=
    Some [onSubnet "id-a" "s1"; onSubnet "id-a" "s2"; onSubnet "id-b" "s3"];
  inst_Subnet := "s3"; inst_Tags := []; inst_Image := ""; inst_Flavor := "m1.small";
  inst_SSHKeyName := ""; inst_UserData := ""; inst_Metadata := ∅;
  inst_ConfigDrive := None; inst_RootVolume := None; inst_ServerGroupID := "";
  inst_State := ""; inst_IP := ""; inst_FloatingIP := "" |}.

(** * Properties *)

(** ** Tags: deduplicate *)

Lemma deduplicate_fold (l : list string) :
  ∀ (unique : list string) (set : gmap string bool),
    fst (fold_left deduplicate_step l (unique, set))
    = unique ++ filter (λ y, set !! y = None) (first_occurrences l).
Proof.
  induction l as [|x l IH]; intros unique set; simpl.
  - by rewrite app_nil_r.
  - destruct (set !! x) as [b|] eqn:Hx.
    + rewrite IH. f_equal.
      rewrite filter_cons_False by congruence.
      rewrite list_filter_filter. apply list_filter_iff.
      intros y; split; [|tauto]. intros Hy; split; [done|congruence].
    + rewrite IH, <- app_assoc. f_equal. simpl.
      rewrite filter_cons_True by done. f_equal.
      rewrite list_filter_filter. apply list_filter_iff.
      intros y. rewrite lookup_insert_None.
      split; intros [? ?]; split; congruence.
Qed.

Lemma deduplicate_first_occurrences (l : list string) :
  deduplicate l = first_occurrences l.
Proof.
  unfold deduplicate. rewrite deduplicate_fold. simpl.
  induction (first_occurrences l) as [|y r IH]; [done|].
  rewrite filter_cons_True by apply lookup_empty. by f_equal.
Qed.

Lemma first_occurrences_elem (l : list string) (x : string) :
  x ∈ first_occurrences l ↔ x ∈ l.
Proof.
  induction l as [|y l IH]; simpl; [done|].
  rewrite !elem_of_cons, list_elem_of_filter, IH.
  destruct (decide (x = y)); tauto.
Qed.

Lemma first_occurrences_NoDup (l : list string) : NoDup (first_occurrences l).
Proof.
  induction l as [|y l IH]; simpl; constructor.
  - rewrite list_elem_of_filter. tauto.
  - by apply NoDup_filter.
Qed.

(** ** The events of a computation *)

Section Emits.

Context {W : Type}.

Lemma emits_ret {A} P (a : A) : emits P (ret a : M W A).
Proof. intros s. exists []. by rewrite app_nil_r. Qed.

Lemma emits_panic {A} P : emits P (@panic W A).
Proof. intros s. exists []. by rewrite app_nil_r. Qed.

Lemma emits_notify P n : emits P (@notify W n).
Proof. intros s. exists []. simpl. by rewrite app_nil_r. Qed.

Lemma emits_call {R} P (op : W → R * W) (ev : R → Event) :
  (∀ r, P (ev r)) → emits P (call op ev).
Proof.
  intros HP s. unfold call. destruct (op (world s)) as [r w'].
  exists [ev r]. split; [done|]. constructor; [apply HP|constructor].
Qed.

Lemma emits_bind {A B} P (m : M W A) (k : A → M W B) :
  emits P m → (∀ a, emits P (k a)) → emits P (bind m k).
Proof.
  intros Hm Hk s. unfold bind. destruct (Hm s) as (evs & Heq & Hall).
  destruct (m s) as [[a|] s1]; simpl in *.
  - destruct (Hk a s1) as (evs' & Heq' & Hall').
    exists (evs ++ evs'). rewrite Heq', Heq, app_assoc. split; [done|].
    by apply Forall_app.
  - by exists evs.
Qed.

Lemma emits_emitted {A} P (m : M W A) (s : State W) :
  emits P m → Forall P (emitted m s).
Proof.
  intros Hm. destruct (Hm s) as (evs & Heq & Hall).
  unfold emitted. by rewrite Heq, drop_app_length.
Qed.

Lemma trace_emitted {A} (m : M W A) (s : State W) :
  emits (λ _, True) m → trace (snd (m s)) = trace s ++ emitted m s.
Proof.
  intros Hm. destruct (Hm s) as (evs & Heq & _).
  unfold emitted. by rewrite Heq, drop_app_length.
Qed.

Lemma total_ret {A} P (a : A) : total P (ret a : M W A).
Proof. intros s. exists a, []. by rewrite app_nil_r. Qed.

Lemma total_call {R} P (op : W → R * W) (ev : R → Event) :
  (∀ r, P (ev r)) → total P (call op ev).
Proof.
  intros HP s. unfold call. destruct (op (world s)) as [r w'].
  exists r, [ev r]. repeat split; try done. constructor; [apply HP|constructor].
Qed.

Lemma total_bind {A B} P (m : M W A) (k : A → M W B) :
  total P m → (∀ a, total P (k a)) → total P (bind m k).
Proof.
  intros Hm Hk s. unfold bind. destruct (Hm s) as (a & evs & Hval & Heq & Hall).
  destruct (m s) as [o s1]; simpl in *. subst o.
  destruct (Hk a s1) as (b & evs' & Hval' & Heq' & Hall').
  exists b, (evs ++ evs'). rewrite Heq', Heq, app_assoc. repeat split; try done.
  by apply Forall_app.
Qed.

Lemma total_emits {A} P (m : M W A) : total P m → emits P m.
Proof.
  intros Hm s. destruct (Hm s) as (a & evs & _ & Heq & Hall). by exists evs.
Qed.

End Emits.

(** Walks through a computation: binds, calls, case distinctions. *)
Ltac emits_walk side :=
  repeat first
    [ apply emits_ret
    | apply emits_panic
    | apply emits_notify
    | apply emits_call; intros; side
    | apply emits_bind; [|intros ?]
    | progress side
    | match goal with
      | |- emits _ (match ?x with _ => _ end) => destruct x
      | |- emits _ (if ?x then _ else _) => destruct x
      end ].

Ltac total_walk side :=
  repeat first
    [ apply total_ret
    | apply total_call; intros; side
    | apply total_bind; [|intros ?]
    | progress side
    | match goal with
      | |- total _ (match ?x with _ => _ end) => destruct x
      | |- total _ (if ?x then _ else _) => destruct x
      end ].

Lemma emits_among {W A} (ks : list Kind) (P : Event → Prop) (m : M W A) :
  emits (among ks) m → (∀ ev, among ks ev → P ev) → emits P m.
Proof.
  intros Hm HP s. destruct (Hm s) as (evs & Heq & Hall).
  exists evs. split; [done|]. eapply Forall_impl; eauto.
Qed.

Ltac among_side := first [ assumption | unfold among; simpl; tauto ].

(** Settles that every event of the listed kinds satisfies a property that
    is trivial on them. *)
Ltac kinds_ok :=
  let ev := fresh "ev" in
  let H := fresh "H" in
  intros ev H; unfold among in H; destruct ev; simpl in H |- *;
  try done; try (exfalso; intuition discriminate).

Section ServiceEmits.

Context {W : Type} (env : Env W) (projectID : string).

Lemma emits_pollLoop {C} P (n : nat) (condition : M W (C * bool * option error)) :
  emits P condition → emits P (pollLoop n condition).
Proof.
  intros Hc. induction n as [|n IH]; simpl;
    (apply emits_bind; [done|]); intros [[c d] err]; emits_walk among_side.
Qed.

Lemma total_getTrunkSupport : total (among [KExtensionsList]) (getTrunkSupport env).
Proof. unfold getTrunkSupport. total_walk among_side. Qed.

Lemma total_getSecurityGroups params :
  total (among [KSecGroupsList]) (getSecurityGroups env projectID params).
Proof.
  unfold getSecurityGroups. generalize (@nil string).
  induction params as [|sg rest IH]; intros sgIDs; simpl; total_walk among_side.
  all: apply IH.
Qed.

Lemma total_getServerNetworks_subnets netID subnets nets :
  total (among [KSubnetsByFilter]) (getServerNetworks_subnets env netID subnets nets).
Proof.
  revert nets. induction subnets as [|sn rest IH]; intros nets; simpl;
    total_walk among_side.
  apply IH.
Qed.

Lemma total_getServerNetworks_ids param ids nets :
  total (among [KSubnetsByFilter]) (getServerNetworks_ids env param ids nets).
Proof.
  revert nets. induction ids as [|id rest IH]; intros nets; simpl;
    total_walk among_side.
  all: try apply IH. apply total_getServerNetworks_subnets.
Qed.

Lemma total_GetNetworkIDsByFilter opts :
  total (among [KNetworksList]) (GetNetworkIDsByFilter env opts).
Proof. unfold GetNetworkIDsByFilter. total_walk among_side. Qed.

Lemma emits_GetInstance id : emits (among [KServersGet]) (GetInstance env id).
Proof. unfold GetInstance. emits_walk among_side. Qed.

Lemma emits_getImageID name : emits (among [KImagesList]) (getImageID env name).
Proof. unfold getImageID. emits_walk among_side. Qed.

Lemma emits_deletePorts nets :
  emits (among [KPortsGet; KPortsDelete]) (deletePorts env nets).
Proof. induction nets as [|n rest IH]; simpl; emits_walk among_side. Qed.

End ServiceEmits.

Lemma baseOpts_applyRootVolume opts rootVolume :
  baseOpts (applyRootVolume opts rootVolume) = baseOpts opts.
Proof.
  unfold applyRootVolume. destruct rootVolume as [rv|]; [|done].
  by destruct (negb (rv_Size rv =? 0)%Z).
Qed.

Lemma baseOpts_applyServerGroupID opts serverGroupID :
  baseOpts (applyServerGroupID opts serverGroupID) = baseOpts opts.
Proof.
  unfold applyServerGroupID. by destruct (negb (serverGroupID =? "")%string).
Qed.

Section TagsUsed.

Context {W : Type} (env : Env W) (projectID : string).

Local Ltac side := first [ assumption | reflexivity | exact I ].

Lemma createInstance_trunk_tags i port :
  emits (uses_tags (inst_Tags i)) (createInstance_trunk env i port).
Proof. unfold createInstance_trunk. emits_walk side. Qed.

Lemma createInstance_networks_tags clusterName i networkList accessIPv4 portsList :
  emits (uses_tags (inst_Tags i))
        (createInstance_networks env clusterName i networkList accessIPv4 portsList).
Proof.
  revert accessIPv4 portsList.
  induction networkList as [|network rest IH]; intros accessIPv4 portsList; simpl.
  - apply emits_ret.
  - unfold createPort. emits_walk side.
    all: first [ apply createInstance_trunk_tags | apply IH ].
Qed.

Lemma createInstance_tags clusterName i :
  emits (uses_tags (inst_Tags i)) (createInstance env clusterName i).
Proof.
  unfold createInstance.
  apply emits_bind; [eapply emits_among; [apply emits_getImageID|kinds_ok]|].
  intros [imageID [e|]]; [apply emits_ret|].
  destruct (inst_Networks i) as [networkList|]; [|apply emits_panic].
  apply emits_bind; [apply createInstance_networks_tags|].
  intros [[accessIPv4 portsList]|e]; [|apply emits_ret].
  destruct (negb (inst_Subnet i =? "")%string && (accessIPv4 =? "")%string).
  { apply emits_bind; [eapply emits_among; [apply emits_deletePorts|kinds_ok]|].
    intros [errd|]; apply emits_ret. }
  apply emits_bind; [apply emits_call; intros; side|].
  intros [flavorID|e]; [|apply emits_ret].
  destruct (inst_SecurityGroups i) as [securityGroups|]; [|apply emits_panic].
  apply emits_bind.
  { apply emits_call. intros r. simpl.
    by rewrite baseOpts_applyServerGroupID, baseOpts_applyRootVolume. }
  intros [server|e].
  - apply emits_bind.
    + apply emits_pollLoop.
      unfold createInstance_condition.
      apply emits_bind; [eapply emits_among; [apply emits_GetInstance|kinds_ok]|].
      intros x. emits_walk side.
    + intros [instance [e|]]; apply emits_ret.
  - apply emits_bind; [eapply emits_among; [apply emits_deletePorts|kinds_ok]|].
    intros [errd|]; apply emits_ret.
Qed.

Lemma InstanceCreate_tags openStackCluster machine osm clusterName userData :
  emits (uses_tags (machineTags openStackCluster osm))
        (InstanceCreate env projectID openStackCluster machine (Some osm)
           clusterName userData).
Proof.
  unfold InstanceCreate.
  destruct (ms_FailureDomain (m_Spec machine)) as [failureDomain|]; [|apply emits_ret].
  apply emits_bind.
  { destruct (oms_Trunk (osm_Spec osm)); [|apply emits_ret].
    apply emits_bind; [eapply emits_among; [apply total_emits, total_getTrunkSupport|kinds_ok]|].
    intros x. emits_walk side. }
  intros [trunk|e]; [|apply emits_ret].
  apply emits_bind; [eapply emits_among; [apply total_emits, total_getSecurityGroups|kinds_ok]|].
  intros [securityGroups [e|]]; [apply emits_ret|].
  apply emits_bind.
  { destruct (0 <? length (oms_Networks (osm_Spec osm)))%nat.
    - unfold getServerNetworks. generalize (@nil Network).
      induction (oms_Networks (osm_Spec osm)) as [|p rest IH]; intros nets0; simpl.
      + apply emits_ret.
      + apply emits_bind;
          [eapply emits_among; [apply total_emits, total_GetNetworkIDsByFilter|kinds_ok]|].
        intros [ids [e|]]; [apply emits_ret|].
        apply emits_bind;
          [eapply emits_among; [apply total_emits, total_getServerNetworks_ids|kinds_ok]|].
        intros [nets' [e|]]; [apply emits_ret|apply IH].
    - emits_walk side. }
  intros [nets [e|]]; [apply emits_ret|].
  apply emits_bind.
  { match goal with
    | |- emits _ (createInstance _ _ ?i) => exact (createInstance_tags clusterName i)
    end. }
  intros x. emits_walk side.
Qed.

End TagsUsed.

(** C4.  The tag list of an instance is the order-preserving deduplication
    of the machine tags followed by the cluster tags: deduplicate keeps the
    first occurrence of every string, in order, and removes the later ones,
    so the list has no duplicates and the same members; every server-create
    call and every trunk-tagging call that InstanceCreate issues carries
    this list; and ["a";"b";"a"] becomes ["a";"b"]. *)
Theorem deduplicate_tags {W : Type} (env : Env W) (projectID : string)
  (openStackCluster : OpenStackCluster) (machine : Machine)
  (openStackMachine : OpenStackMachine) (clusterName userData : string)
  (s : State W) :
  let given := oms_Tags (osm_Spec openStackMachine)
               ++ ocs_Tags (osc_Spec openStackCluster) in
  deduplicate given = first_occurrences given
  ∧ NoDup (deduplicate given)
  ∧ (∀ t, t ∈ deduplicate given ↔ t ∈ given)
  ∧ Forall (uses_tags (deduplicate given))
      (emitted (InstanceCreate env projectID openStackCluster machine
                  (Some openStackMachine) clusterName userData) s)
  ∧ deduplicate ["a"; "b"; "a"] = ["a"; "b"].
Proof.
  intros given. split; [apply deduplicate_first_occurrences|].
  rewrite deduplicate_first_occurrences.
  split; [apply first_occurrences_NoDup|].
  split; [intros t; apply first_occurrences_elem|].
  split; [|done].
  rewrite <- deduplicate_first_occurrences.
  apply emits_emitted, InstanceCreate_tags.
Qed.

(** ** The create payload: root volume and scheduler group *)

(** C9.  applyRootVolume and applyServerGroupID are the identity when their
    option is absent (no root volume or one of size zero; an empty group id)
    and otherwise wrap the payload in exactly their extension: one boot
    device with boot index 0, delete-on-termination set, and the source and
    size of the override; one group hint.  Each leaves the base options and
    the other's extension untouched, so they compose in any combination. *)
Theorem decorators_compose (opts : CreateOptsBuilder) (rootVolume : option RootVolume)
  (serverGroupID : string) :
  (rootVolume = None ∨ (∃ rv, rootVolume = Some rv ∧ rv_Size rv = 0) →
   applyRootVolume opts rootVolume = opts)
  ∧ (∀ rv, rootVolume = Some rv → rv_Size rv ≠ 0 →
     ∃ block, applyRootVolume opts rootVolume = BootFromVolumeExt opts [block]
       ∧ bd_BootIndex block = 0 ∧ bd_DeleteOnTermination block = true
       ∧ bd_SourceType block = rv_SourceType rv ∧ bd_UUID block = rv_SourceUUID rv
       ∧ bd_VolumeSize block = rv_Size rv ∧ bd_DeviceType block = rv_DeviceType rv
       ∧ bd_DestinationType block = DestinationVolume)
  ∧ (serverGroupID = "" → applyServerGroupID opts serverGroupID = opts)
  ∧ (serverGroupID ≠ "" →
     applyServerGroupID opts serverGroupID
     = SchedulerHintsExt opts {| sh_Group := serverGroupID |})
  ∧ baseOpts (applyServerGroupID (applyRootVolume opts rootVolume) serverGroupID)
    = baseOpts opts
  ∧ blockDevices (applyServerGroupID (applyRootVolume opts rootVolume) serverGroupID)
    = blockDevices (applyRootVolume opts rootVolume)
  ∧ schedulerHints (applyServerGroupID (applyRootVolume opts rootVolume) serverGroupID)
    = schedulerHints (applyServerGroupID opts serverGroupID).
Proof.
  repeat split.
  - intros [->|(rv & -> & Hsize)]; [done|].
    unfold applyRootVolume. by rewrite Hsize.
  - intros rv -> Hsize. unfold applyRootVolume.
    destruct (Z.eqb_spec (rv_Size rv) 0) as [|_]; [done|]. simpl.
    eexists. split; [reflexivity|]. by repeat split.
  - by intros ->.
  - intros Hne. unfold applyServerGroupID.
    destruct (String.eqb_spec serverGroupID "") as [|_]; done.
  - by rewrite baseOpts_applyServerGroupID, baseOpts_applyRootVolume.
  - unfold applyServerGroupID. by destruct (negb (serverGroupID =? "")%string).
  - unfold applyServerGroupID, applyRootVolume.
    destruct (negb (serverGroupID =? "")%string), rootVolume as [rv|]; simpl; try done;
      by destruct (negb (rv_Size rv =? 0)%Z).
Qed.

Lemma decorators_compose_witness :
  applyRootVolume sampleOpts None = sampleOpts
  ∧ applyRootVolume sampleOpts (Some emptyVolume) = sampleOpts
  ∧ applyServerGroupID sampleOpts "" = sampleOpts
  ∧ applyServerGroupID sampleOpts "grp"
    = SchedulerHintsExt sampleOpts {| sh_Group := "grp" |}
  ∧ ∃ block, applyRootVolume sampleOpts (Some sampleVolume)
             = BootFromVolumeExt sampleOpts [block]
             ∧ bd_BootIndex block = 0 ∧ bd_VolumeSize block = 20.
Proof.
  split; [|split; [|split; [|split]]].
  - destruct (decorators_compose sampleOpts None "") as (Habsent & _).
    apply Habsent. by left.
  - destruct (decorators_compose sampleOpts (Some emptyVolume) "") as (Habsent & _).
    apply Habsent. right. by exists emptyVolume.
  - destruct (decorators_compose sampleOpts None "") as (_ & _ & Hnogroup & _).
    by apply Hnogroup.
  - destruct (decorators_compose sampleOpts None "grp") as (_ & _ & _ & Hgroup & _).
    by apply Hgroup.
  - destruct (decorators_compose sampleOpts (Some sampleVolume) "grp")
      as (_ & Hpresent & _).
    destruct (Hpresent sampleVolume eq_refl) as (block & Heq & Hidx & _ & _ & _ & Hsize & _).
    + done.
    + exists block. by rewrite Heq, Hidx, Hsize.
Defined.

(** ** Image resolution *)

(** C8.  getImageID by name: an empty name gives the empty reference, no
    error and no backend call; otherwise, when the listing succeeds, zero
    images give the not-found error, exactly one image gives its id, and
    more than one give the ambiguity error. *)
Theorem getImageID_cases {W : Type} (env : Env W) (imageName : string) (s : State W) :
  (imageName = "" → getImageID env imageName s = (Val ("", None), s))
  ∧ (imageName ≠ "" →
     ∀ allImages, fst (images_List env imageName (world s)) = Listed allImages →
       (allImages = [] →
        fst (getImageID env imageName s)
        = Val ("", Some (Errorf "no image with the name %s could be found"
                           [ArgS imageName])))
       ∧ (∀ image, allImages = [image] →
          fst (getImageID env imageName s) = Val (image_ID image, None))
       ∧ ((1 < length allImages)%nat →
          fst (getImageID env imageName s)
          = Val ("", Some (Errorf "too many images with the name, %s, were found"
                             [ArgS imageName])))).
Proof.
  split; [by intros ->|].
  intros Hne allImages Hlist. unfold getImageID, bind, call.
  destruct (String.eqb_spec imageName "") as [|_]; [done|].
  destruct (images_List env imageName (world s)) as [r w']. simpl in Hlist. subst r.
  repeat split.
  - by intros ->.
  - by intros image ->.
  - intros Hlen. destruct allImages as [|i1 [|i2 rest]]; simpl in *; try lia. done.
Qed.

Lemma getImageID_cases_witness :
  fst (getImageID Fake.env "" (Fake.start imagesWorld)) = Val ("", None)
  ∧ fst (getImageID Fake.env "ubuntu" (Fake.start imagesWorld)) = Val ("img-1", None)
  ∧ fst (getImageID Fake.env "debian" (Fake.start imagesWorld))
    = Val ("", Some (Errorf "too many images with the name, %s, were found"
                       [ArgS "debian"]))
  ∧ fst (getImageID Fake.env "centos" (Fake.start imagesWorld))
    = Val ("", Some (Errorf "no image with the name %s could be found"
                       [ArgS "centos"])).
Proof.
  split; [|split; [|split]].
  - destruct (getImageID_cases Fake.env "" (Fake.start imagesWorld)) as [H _].
    by rewrite H.
  - destruct (getImageID_cases Fake.env "ubuntu" (Fake.start imagesWorld)) as [_ H].
    destruct (H ltac:(done) [{| image_ID := "img-1" |}] eq_refl) as (_ & Hone & _).
    by apply (Hone {| image_ID := "img-1" |}).
  - destruct (getImageID_cases Fake.env "debian" (Fake.start imagesWorld)) as [_ H].
    destruct (H ltac:(done) [{| image_ID := "img-2" |}; {| image_ID := "img-3" |}] eq_refl)
      as (_ & _ & Hmany).
    apply Hmany. simpl. lia.
  - destruct (getImageID_cases Fake.env "centos" (Fake.start imagesWorld)) as [_ H].
    destruct (H ltac:(done) [] eq_refl) as (Hnone & _).
    by apply Hnone.
Defined.

(** ** Lookup of an instance *)

(** C5.  GetInstance on a non-empty id whose lookup fails: an error that
    the classification calls not-found gives an absent instance and a nil
    error; any other error gives an absent instance and an error that wraps
    it and names the server id. *)
Theorem GetInstance_lookup_error {W : Type} (env : Env W) (resourceID : string)
  (s : State W) (e : error) :
  resourceID ≠ "" →
  fst (servers_Get env resourceID (world s)) = Err e →
  (IsNotFound env e = true →
   fst (GetInstance env resourceID s) = Val (None, None))
  ∧ (IsNotFound env e = false →
     fst (GetInstance env resourceID s)
     = Val (None, Some (Errorf "get server %q detail failed: %v"
                          [ArgS resourceID; ArgE e])))
  ∧ emitted (GetInstance env resourceID) s = [EvServersGet resourceID (Err e)].
Proof.
  intros Hne Hget. unfold emitted, GetInstance, bind, call.
  destruct (String.eqb_spec resourceID "") as [|_]; [done|].
  destruct (servers_Get env resourceID (world s)) as [r w']. simpl in Hget. subst r.
  split; [|split].
  - by intros ->.
  - by intros ->.
  - destruct (IsNotFound env e); simpl; by rewrite drop_app_length.
Qed.

Lemma GetInstance_lookup_error_witness :
  fst (GetInstance Fake.env "srv-1" (Fake.start Fake.empty)) = Val (None, None)
  ∧ fst (GetInstance Fake.env "srv-1" (Fake.start outage))
    = Val (None, Some (Errorf "get server %q detail failed: %v"
                         [ArgS "srv-1"; ArgE (BackendErr 503 "service unavailable")])).
Proof.
  split.
  - destruct (GetInstance_lookup_error Fake.env "srv-1" (Fake.start Fake.empty)
                (Fake.notFound "server") ltac:(done) eq_refl) as (Habsent & _).
    by apply Habsent.
  - destruct (GetInstance_lookup_error Fake.env "srv-1" (Fake.start outage)
                (BackendErr 503 "service unavailable") ltac:(done) eq_refl)
      as (_ & Hother & _).
    by apply Hother.
Defined.

Lemma special_false (c : Ascii.ascii) :
  special c = false → Ascii.eqb c "."%char = false ∧ Ascii.eqb c "$"%char = false.
Proof.
  intros Hc. split.
  - destruct (Ascii.eqb_spec c "."%char) as [->|]; [by vm_compute in Hc|done].
  - destruct (Ascii.eqb_spec c "$"%char) as [->|]; [by vm_compute in Hc|done].
Qed.

(** Between the anchors, a plain name matches itself and nothing else. *)
Lemma matchHere_plain (name : string) : ∀ text,
  plain name = true → matchHere (name ++ "$") text = (text =? name)%string.
Proof.
  induction name as [|c name IH]; intros text Hplain.
  - simpl. done.
  - cbn [plain] in Hplain. apply andb_true_iff in Hplain.
    destruct Hplain as [Hc Hname]. apply negb_true_iff in Hc.
    destruct (special_false c Hc) as [Hdot Hend].
    change (String c name +:+ "$") with (String c (name +:+ "$")).
    cbn [matchHere]. rewrite Hend, Hdot. cbn [andb orb].
    destruct text as [|t text]; [done|].
    rewrite (IH text Hname). cbn [String.eqb]. by rewrite Ascii.eqb_sym.
Qed.

Lemma regexMatch_plain (name text : string) :
  plain name = true →
  regexMatch ("^" ++ name ++ "$") text = (text =? name)%string.
Proof.
  intros Hplain. change ("^" +:+ name +:+ "$") with (String "^"%char (name +:+ "$")).
  cbn [regexMatch]. rewrite Ascii.eqb_refl. by apply matchHere_plain.
Qed.

(** Without the anchors the expression matches a part of the name. *)
Example regexMatch_substring :
  regexMatch "node-1" "node-10" = true
  ∧ regexMatch "^node-1$" "node-10" = false
  ∧ regexMatch "^node-1$" "node-1" = true.
Proof. vm_compute. by repeat split. Qed.

Section Listed.

Context {W : Type} (env : Env W).

(** The instances that InstanceExists collects are those of the listed
    servers, in order, each with the id and the name of its server. *)
Lemma InstanceExists_instances_servers (serverList : list Server) :
  ∀ instanceList res,
    InstanceExists_instances env serverList instanceList = Ok res →
    ∃ more,
      res = instanceList ++ more
      ∧ Forall2 (λ v i, ∃ inst, i = Some inst ∧ inst_ID inst = srv_ID v
                                ∧ inst_Name inst = srv_Name v)
                serverList more.
Proof.
  induction serverList as [|v rest IH]; intros instanceList res;
    cbn [InstanceExists_instances].
  - intros [= <-]. exists []. by rewrite app_nil_r.
  - unfold serverToInstance.
    destruct (GetIPFromInstance env v) as [addrMap|e]; [|done].
    intros Hres. destruct (IH _ _ Hres) as (more & -> & Hmore).
    eexists (_ :: more). rewrite <- app_assoc. split; [done|].
    constructor; [|done]. by eexists.
Qed.

Lemma InstanceExists_instances_first (serverList : list Server) :
  match InstanceExists_instances env serverList [] with
  | Ok [] => serverList = []
  | Ok (i :: _) =>
      ∃ v rest inst, serverList = v :: rest ∧ i = Some inst
                     ∧ inst_ID inst = srv_ID v ∧ inst_Name inst = srv_Name v
  | Err _ => serverList ≠ []
  end.
Proof.
  pose proof (InstanceExists_instances_servers serverList []) as Hservers.
  destruct (InstanceExists_instances env serverList []) as [[|i l]|e] eqn:Hres.
  - destruct (Hservers _ eq_refl) as (more & Hmore & Hall). simpl in Hmore.
    subst more. by inversion Hall.
  - destruct (Hservers _ eq_refl) as (more & Hmore & Hall). simpl in Hmore.
    subst more. inversion Hall as [|v i' rest l' (inst & -> & Hid & Hname) Hrest]; subst.
    by exists v, rest, inst.
  - by intros ->.
Qed.

(** What InstanceExists returns: an instance is the one of the first server
    that the listing returned; no instance and no error means that the
    listing was empty. *)
Lemma InstanceExists_first_listed (name : string) (s : State W) :
  let listOpts :=
    {| slo_Name := if (name =? "")%string then "" else "^" ++ name ++ "$" |} in
  let r := fst (servers_List env listOpts (world s)) in
  emitted (InstanceExists env name) s = [EvServersList listOpts r]
  ∧ (r = Listed [] → fst (InstanceExists env name s) = Val (None, None))
  ∧ (∀ i, fst (InstanceExists env name s) = Val (i, None) →
       match r with
       | Listed [] => i = None
       | Listed (v :: _) =>
           ∃ inst, i = Some inst ∧ inst_ID inst = srv_ID v ∧ inst_Name inst = srv_Name v
       | _ => False
       end).
Proof.
  intros listOpts r. subst r listOpts.
  unfold emitted, InstanceExists, bind, call.
  destruct (name =? "")%string; simpl;
    destruct (servers_List env _ (world s)) as [r w']; simpl.
  all: destruct r as [serverList|e|e]; simpl;
    try (split; [by rewrite drop_app_length|]; split; [done|]; by intros i [=]).
  all: pose proof (InstanceExists_instances_first serverList) as Hfirst.
  all: destruct (InstanceExists_instances env serverList []) as [[|i0 l]|e]; simpl.
  all: split; [by rewrite drop_app_length|].
  all: split; [intros [= ->]|intros i [=]; subst].
  all: try done.
  all: try (by destruct Hfirst as (v & rest & inst & [=] & _)).
  all: destruct Hfirst as (v & rest & inst & -> & -> & Hid & Hname); by exists inst.
Qed.

End Listed.

Lemma filter_bool_ext {A : Type} (f g : A → bool) (l : list A) :
  (∀ x, f x = g x) → filter f l = filter g l.
Proof.
  intros Hfg. induction l as [|x l IH]; [done|].
  rewrite !filter_cons, IH, (Hfg x). done.
Qed.

(** On a backend that reads the name filter as a regular expression, the
    listing for a plain name returns the servers with exactly this name:
    InstanceExists returns an instance with this name, or no instance and no
    error when no server has it. *)
Lemma InstanceExists_plain_name (name : string) (w : Fake.World) :
  name ≠ "" → plain name = true →
  let run := InstanceExists regexEnv name in
  let named := filter (λ v, (srv_Name v =? name)%string) (Fake.fw_servers w) in
  emitted run (Fake.start w)
  = [EvServersList {| slo_Name := "^" ++ name ++ "$" |} (Listed named)]
  ∧ (named = [] → fst (run (Fake.start w)) = Val (None, None))
  ∧ (∀ i, fst (run (Fake.start w)) = Val (i, None) →
       match i with
       | Some inst => inst_Name inst = name
       | None => named = []
       end).
Proof.
  intros Hne Hplain run named.
  destruct (InstanceExists_first_listed regexEnv name (Fake.start w))
    as (Hcall & Hzero & Hfirst).
  fold run in Hcall, Hzero, Hfirst.
  destruct (String.eqb_spec name "") as [|_]; [done|].
  assert (Hnamed : fst (servers_List regexEnv {| slo_Name := "^" ++ name ++ "$" |}
                          (world (Fake.start w))) = Listed named).
  { simpl. f_equal. apply filter_bool_ext. intros v. by apply regexMatch_plain. }
  rewrite Hnamed in Hcall, Hzero, Hfirst.
  split; [done|]. split; [by intros ->; apply Hzero|].
  intros i Hi. specialize (Hfirst i Hi).
  destruct named as [|v rest] eqn:Hv.
  - by subst i.
  - destruct Hfirst as (inst & -> & _ & ->).
    assert (Hin : v ∈ filter (λ v, (srv_Name v =? name)%string) (Fake.fw_servers w)).
    { fold named. rewrite Hv. by left. }
    apply list_elem_of_filter in Hin. destruct Hin as [Hin _].
    by apply Is_true_true, String.eqb_eq in Hin.
Qed.

(** C10.  A name with a dot.  The dot of the name node.0 goes into the
    expression as it is, where it stands for any character: the listing
    for ^node.0$ returns the server node-0, and InstanceExists reports an
    instance for the name node.0 although no server has this name. *)
Theorem InstanceExists_unescaped_name :
  let run := InstanceExists regexEnv "node.0" in
  emitted run (Fake.start dashedServer)
  = [EvServersList {| slo_Name := "^node.0$" |} (Listed (Fake.fw_servers dashedServer))]
  ∧ map srv_Name (Fake.fw_servers dashedServer) = ["node-0"]
  ∧ ∃ inst, fst (run (Fake.start dashedServer)) = Val (Some inst, None)
            ∧ inst_ID inst = "srv-1" ∧ inst_Name inst = "node-0".
Proof.
  intros run. split; [by vm_compute|]. split; [done|].
  destruct (fst (run (Fake.start dashedServer))) as [[[inst|] [e|]]|] eqn:Hrun;
    try by vm_compute in Hrun.
  exists inst. split; [done|].
  vm_compute in Hrun. injection Hrun as <-. by split.
Qed.

(** The anchors at work: the listing for node-1 does not return the server
    node-10. *)
Example InstanceExists_whole_name :
  emitted (InstanceExists regexEnv "node-1") (Fake.start twoServers)
  = [EvServersList {| slo_Name := "^node-1$" |} (Listed [])]
  ∧ fst (InstanceExists regexEnv "node-1" (Fake.start twoServers)) = Val (None, None).
Proof. by vm_compute. Qed.

(** ** Teardown *)

(** C6.  InstanceDelete of a machine without a provider id succeeds at
    once: the result is nil, no backend call is issued, and the backend and
    the recorder are as before. *)
Theorem InstanceDelete_without_provider_id {W : Type} (env : Env W)
  (machine : Machine) (openStackMachine : OpenStackMachine) (s : State W) :
  ms_ProviderID (m_Spec machine) = None →
  InstanceDelete env machine openStackMachine s = (Val None, s)
  ∧ emitted (InstanceDelete env machine openStackMachine) s = [].
Proof.
  intros Hnil. unfold emitted, InstanceDelete. rewrite Hnil. simpl.
  split; [done|]. by rewrite drop_all.
Qed.

Lemma InstanceDelete_without_provider_id_witness :
  InstanceDelete Fake.env pendingMachine
    {| osm_Name := "node-0"; osm_Spec := sampleMachineSpec |} (Fake.start twoServers)
  = (Val None, Fake.start twoServers).
Proof.
  by apply (InstanceDelete_without_provider_id Fake.env pendingMachine).
Defined.

(** C7.  deleteInstance of a server whose interface listing is empty issues
    exactly one call after the listing, the server delete, and returns its
    result: no extension listing, no trunk call, no port call. *)
Theorem deleteInstance_no_interfaces {W : Type} (env : Env W) (serverID : string)
  (s : State W) :
  fst (attachinterfaces_List env serverID (world s)) = Listed [] →
  let r := fst (servers_Delete env serverID
                  (snd (attachinterfaces_List env serverID (world s)))) in
  emitted (deleteInstance env serverID) s
  = [EvInterfacesList serverID (Listed []); EvServersDelete serverID r]
  ∧ fst (deleteInstance env serverID s) = Val r.
Proof.
  intros Hlist r. subst r. unfold emitted, deleteInstance, bind, call.
  destruct (attachinterfaces_List env serverID (world s)) as [l w1].
  simpl in Hlist. subst l. simpl.
  destruct (servers_Delete env serverID w1) as [rd w2]. simpl.
  by rewrite <- app_assoc, drop_app_length.
Qed.

Lemma deleteInstance_no_interfaces_witness :
  emitted (deleteInstance Fake.env "srv-2") (Fake.start twoServers)
  = [EvInterfacesList "srv-2" (Listed []); EvServersDelete "srv-2" None].
Proof.
  by apply (deleteInstance_no_interfaces Fake.env "srv-2" (Fake.start twoServers)).
Defined.

(** ** Network attachments *)

Section Attachments.

Context {W : Type} (env : Env W) (projectID : string).

Lemma total_among {A} ks ks' (m : M W A) :
  total (among ks) m → (∀ k, In k ks → In k ks') → total (among ks') m.
Proof.
  intros Hm Hincl s. destruct (Hm s) as (a & evs & Hval & Heq & Hall).
  exists a, evs. repeat split; try done.
  eapply Forall_impl; [exact Hall|]. intros ev. apply Hincl.
Qed.

Ltac lookups_incl := intros k; unfold lookups; simpl; tauto.

Lemma total_getServerNetworks_from params nets :
  total (among lookups) (getServerNetworks_from env params nets).
Proof.
  revert nets. induction params as [|p0 rest IH]; intros nets; simpl.
  - apply total_ret.
  - apply total_bind.
    { eapply total_among; [apply total_GetNetworkIDsByFilter|lookups_incl]. }
    intros [ids [e|]]; [apply total_ret|].
    apply total_bind.
    { eapply total_among; [apply total_getServerNetworks_ids|lookups_incl]. }
    intros [nets' [e|]]; [apply total_ret|apply IH].
Qed.





Lemma getServerNetworks_ids_nil p ids :
  np_Subnets p = None →
  ∀ nets s,
    getServerNetworks_ids env p ids nets s
    = (Val (nets ++ map (λ id, {| net_ID := id; net_Subnet := None |}) ids, None), s).
Proof.
  intros Hnil. induction ids as [|id rest IH]; intros nets s; simpl.
  - by rewrite app_nil_r.
  - rewrite Hnil, IH, <- app_assoc. done.
Qed.


End Attachments.




(** ** The order of a teardown *)

Section Teardown.

Context {W : Type} (env : Env W).

(** A poll of a delete call does not panic; it issues that call only; and
    when it reports no error, the call was polled env to completion. *)
Lemma pollLoop_delete (n : nat) (op : W → option error * W)
  (del : option error → Event) (ks : list Kind) :
  (∀ r, among ks (del r)) →
  ∀ s, ∃ err s' evs,
    pollLoop n (deleteCondition env (call op del)) s = (Val (tt, err), s')
    ∧ trace s' = trace s ++ evs
    ∧ Forall (among ks) evs
    ∧ (err = None → polled env del evs).
Proof.
  intros Hks. induction n as [|n IH]; intros s; simpl;
    unfold deleteCondition, bind, call;
    destruct (op (world s)) as [[e|] w1]; simpl.
  - destruct (IsRetryable env e) eqn:Hretry; simpl.
    + eexists (Some ErrWaitTimeout), _, [del (Some e)]. repeat split; try done.
      by constructor.
    + eexists (Some e), _, [del (Some e)]. repeat split; try done. by constructor.
  - eexists None, _, [del None]. repeat split; try done; [by constructor|].
    intros _. by exists [].
  - destruct (IsRetryable env e) eqn:Hretry; simpl.
    + set (s1 := {| world := w1; trace := trace s ++ [del (Some e)];
                    notices := notices s |}).
      destruct (IH s1) as (err & s' & evs & Hrun & Heq & Hall & Hdone).
      unfold deleteCondition, bind, call in Hrun.
      exists err, s', (del (Some e) :: evs).
      rewrite Hrun, Heq. simpl. rewrite <- app_assoc.
      repeat split; try done; [by constructor|].
      intros Hnone. destruct (Hdone Hnone) as (retried & -> & Hretried).
      exists (e :: retried). split; [done|]. by constructor.
    + eexists (Some e), _, [del (Some e)]. repeat split; try done. by constructor.
  - eexists None, _, [del None]. repeat split; try done; [by constructor|].
    intros _. by exists [].
Qed.

Lemma deleteInstance_trunk_events (port : Interface) (s : State W) :
  ∃ err s' evs,
    deleteInstance_trunk env port s = (Val err, s')
    ∧ trace s' = trace s ++ evs
    ∧ Forall (among teardown_kinds) evs
    ∧ (err = None → trunk_events env true port evs).
Proof.
  unfold deleteInstance_trunk, bind at 1, call.
  destruct (trunks_List env _ (world s)) as [r w1].
  set (ev0 := EvTrunksList {| tlo_Name := ""; tlo_PortID := if_PortID port |} r).
  assert (Hev0 : among teardown_kinds ev0) by (unfold among; simpl; tauto).
  set (s1 := {| world := w1; trace := trace s ++ [ev0]; notices := notices s |}).
  destruct r as [[|trunk [|t2 rest]]|e|e]; simpl;
    try (eexists _, _, [ev0]; split; [reflexivity|]; split; [done|];
         split; [by constructor|];
         first [ discriminate | intros _; eexists _, []; by split ]).
  unfold PollImmediate, bind, deleteTrunk.
  destruct (pollLoop_delete (pollBudget env RetryIntervalTrunkDelete TimeoutTrunkDelete)
              (trunks_Delete env (trunk_ID trunk)) (EvTrunksDelete (trunk_ID trunk))
              teardown_kinds ltac:(intros; unfold among; simpl; tauto) s1)
    as (err & s2 & evs & Hrun & Heq & Hall & Hdone).
  fold s1. rewrite Hrun. simpl.
  assert (Htrace : trace s2 = trace s ++ ev0 :: evs).
  { rewrite Heq. subst s1. simpl. by rewrite <- app_assoc. }
  destruct err as [e|]; simpl.
  - eexists _, s2, (ev0 :: evs). repeat split; try done. by constructor.
  - exists None, s2, (ev0 :: evs). repeat split; try done; [by constructor|].
    intros _. exists [trunk], evs. split; [done|]. by apply Hdone.
Qed.

Lemma deleteInstance_interfaces_events (serverID : string) (trunkSupport : bool)
  (ports : list Interface) :
  ∀ s, ∃ err s' evs,
    deleteInstance_interfaces env serverID trunkSupport ports s = (Val err, s')
    ∧ trace s' = trace s ++ evs
    ∧ Forall (among teardown_kinds) evs
    ∧ (err = None → teardown_events env serverID trunkSupport ports evs).
Proof.
  induction ports as [|port rest IH]; intros s; cbn [deleteInstance_interfaces].
  { exists None, s, []. rewrite app_nil_r. by repeat split. }
  unfold bind, call.
  destruct (attachinterfaces_Delete env serverID (if_PortID port) (world s)) as [r w1].
  set (ev0 := EvInterfacesDelete serverID (if_PortID port) r).
  assert (Hev0 : among teardown_kinds ev0) by (unfold among; simpl; tauto).
  set (s1 := {| world := w1; trace := trace s ++ [ev0]; notices := notices s |}).
  destruct r as [e|].
  { exists (Some e), s1, [ev0]. repeat split; try done. by constructor. }
  assert (Htrunk : ∃ terr s2 tevs,
             (if trunkSupport then deleteInstance_trunk env port else ret None) s1
             = (Val terr, s2)
             ∧ trace s2 = trace s1 ++ tevs
             ∧ Forall (among teardown_kinds) tevs
             ∧ (terr = None → trunk_events env trunkSupport port tevs)).
  { destruct trunkSupport; [apply deleteInstance_trunk_events|].
    exists None, s1, []. rewrite app_nil_r. by repeat split. }
  destruct Htrunk as (terr & s2 & tevs & Hrun2 & Heq2 & Hall2 & Hdone2).
  rewrite Hrun2.
  assert (Htrace2 : trace s2 = trace s ++ ev0 :: tevs).
  { rewrite Heq2. subst s1. simpl. by rewrite <- app_assoc. }
  destruct terr as [e|].
  { exists (Some e), s2, (ev0 :: tevs). repeat split; try done. by constructor. }
  unfold PollImmediate, deletePort.
  destruct (pollLoop_delete (pollBudget env RetryIntervalPortDelete TimeoutPortDelete)
              (ports_Delete env (if_PortID port)) (EvPortsDelete (if_PortID port))
              teardown_kinds ltac:(intros; unfold among; simpl; tauto) s2)
    as (perr & s3 & pevs & Hrun3 & Heq3 & Hall3 & Hdone3).
  rewrite Hrun3. simpl.
  assert (Htrace3 : trace s3 = trace s ++ ev0 :: tevs ++ pevs).
  { rewrite Heq3, Htrace2, <- app_assoc. done. }
  assert (Hall13 : Forall (among teardown_kinds) (ev0 :: tevs ++ pevs)).
  { constructor; [done|]. by apply Forall_app. }
  destruct perr as [e|].
  { eexists _, s3, (ev0 :: tevs ++ pevs). by repeat split. }
  destruct (IH s3) as (err & s4 & evs4 & Hrun4 & Heq4 & Hall4 & Hdone4).
  exists err, s4, ((ev0 :: tevs ++ pevs) ++ evs4).
  split; [done|]. split; [by rewrite Heq4, Htrace3, <- app_assoc|].
  split; [by apply Forall_app|].
  intros Hnone. exists (ev0 :: tevs ++ pevs), evs4. split; [done|].
  split; [|by apply Hdone4].
  exists tevs, pevs. split; [done|]. split; [by apply Hdone2|by apply Hdone3].
Qed.

Lemma deleteInstance_run (serverID : string) (s : State W) :
  ∃ err s' evs,
    deleteInstance env serverID s = (Val err, s')
    ∧ trace s' = trace s ++ evs
    ∧ deleteInstance_shape env serverID err evs.
Proof.
  unfold deleteInstance.
  pose proof (deleteInstance_interfaces_events serverID) as Hloop. revert Hloop.
  generalize (deleteInstance_interfaces env serverID). intros loop Hloop.
  unfold bind at 1, call.
  destruct (attachinterfaces_List env serverID (world s)) as [r w1].
  set (ev0 := EvInterfacesList serverID r).
  set (s1 := {| world := w1; trace := trace s ++ [ev0]; notices := notices s |}).
  destruct r as [ports|e|e]; simpl;
    try (eexists _, _, [ev0]; split; [reflexivity|]; split; [done|];
         split; [discriminate|]; intros rd [Hin|[]]; discriminate).
  destruct ports as [|port rest]; simpl.
  { destruct (servers_Delete env serverID w1) as [rd' w2].
    eexists _, _, [ev0; EvServersDelete serverID rd'].
    split; [reflexivity|]. split; [by rewrite <- app_assoc|]. split.
    - intros ->. right. by left.
    - intros rd [Hin|[Hin|[]]]; [discriminate|]. injection Hin as ->.
      split; [done|]. by left. }
  unfold getTrunkSupport, bind, call. simpl.
  destruct (extensions_List env w1) as [x w2].
  set (ev1 := EvExtensionsList x).
  set (s2 := {| world := w2; trace := (trace s ++ [ev0]) ++ [ev1];
                notices := notices s |}).
  destruct x as [exts|e|e]; simpl;
    try (eexists _, _, [ev0; ev1]; split; [reflexivity|];
         split; [subst s2; simpl; by rewrite <- app_assoc|];
         split; [discriminate|]; intros rd [Hin|[Hin|[]]]; discriminate).
  destruct (Hloop (hasTrunkAlias exts) (port :: rest) s2)
    as (err & s3 & evs & Hrun & Heq & Hall & Hdone).
  fold s2. rewrite Hrun.
  assert (Hnot : ∀ rd, ¬ In (EvServersDelete serverID rd) evs).
  { intros rd Hin. rewrite Forall_forall in Hall.
    specialize (Hall _ (proj2 (list_elem_of_In _ _) Hin)).
    unfold among in Hall. simpl in Hall. intuition discriminate. }
  assert (Htrace : trace s3 = trace s ++ ev0 :: ev1 :: evs).
  { rewrite Heq. subst s2. simpl. by rewrite <- !app_assoc. }
  destruct err as [e|]; simpl.
  - eexists _, s3, (ev0 :: ev1 :: evs). split; [reflexivity|]. split; [done|].
    split; [discriminate|].
    intros rd [Hin|[Hin|Hin]]; [discriminate|discriminate|by apply Hnot in Hin].
  - destruct (servers_Delete env serverID (world s3)) as [rd' w4].
    eexists _, _, (ev0 :: ev1 :: evs ++ [EvServersDelete serverID rd']).
    split; [reflexivity|]. split.
    { simpl. rewrite Htrace, <- app_assoc. done. }
    split.
    + intros ->. right. right. apply in_or_app. right. by left.
    + intros rd [Hin|[Hin|Hin]]; [discriminate|discriminate|].
      apply in_app_or in Hin. destruct Hin as [Hin|[Hin|[]]]; [by apply Hnot in Hin|].
      injection Hin as ->. split; [done|]. right. exists (port :: rest), exts, evs.
      split; [done|]. split; [done|]. by apply Hdone.
Qed.







End Teardown.


Example trunkedServer_teardown :
  fst (deleteInstance Fake.env "srv-1" (Fake.start trunkedServer)) = Val None
  ∧ emitted (deleteInstance Fake.env "srv-1") (Fake.start trunkedServer)
    = [ EvInterfacesList "srv-1" (Listed [{| if_PortID := "port-1" |}]);
        EvExtensionsList (Listed [{| ext_Alias := "router" |}; {| ext_Alias := "trunk" |}]);
        EvInterfacesDelete "srv-1" "port-1" None;
        EvTrunksList {| tlo_Name := ""; tlo_PortID := "port-1" |}
                     (Listed [{| trunk_ID := "trunk-1" |}]);
        EvTrunksDelete "trunk-1" None;
        EvPortsDelete "port-1" (Some (BackendErr 409 "port in use"));
        EvPortsDelete "port-1" None;
        EvServersDelete "srv-1" None ].
Proof. vm_compute. by split. Qed.


(** The teardown of a server with two interfaces, each with a trunk on its
    port. *)
Example twoTrunkedPorts_teardown :
  fst (deleteInstance Fake.env "srv-1" (Fake.start twoTrunkedPorts)) = Val None
  ∧ emitted (deleteInstance Fake.env "srv-1") (Fake.start twoTrunkedPorts)
    = [ EvInterfacesList "srv-1"
          (Listed [{| if_PortID := "port-1" |}; {| if_PortID := "port-2" |}]);
        EvExtensionsList (Listed [{| ext_Alias := "router" |}; {| ext_Alias := "trunk" |}]);
        EvInterfacesDelete "srv-1" "port-1" None;
        EvTrunksList {| tlo_Name := ""; tlo_PortID := "port-1" |}
                     (Listed [{| trunk_ID := "trunk-1" |}]);
        EvTrunksDelete "trunk-1" None;
        EvPortsDelete "port-1" (Some (BackendErr 409 "port in use"));
        EvPortsDelete "port-1" None;
        EvInterfacesDelete "srv-1" "port-2" None;
        EvTrunksList {| tlo_Name := ""; tlo_PortID := "port-2" |}
                     (Listed [{| trunk_ID := "trunk-2" |}]);
        EvTrunksDelete "trunk-2" None;
        EvPortsDelete "port-2" None;
        EvServersDelete "srv-1" None ].
Proof. vm_compute. by split. Qed.

(** A poll that runs out of attempts is fatal: the port is tried once and 36
    more times, the teardown returns the error that names the port, and the
    server delete is not issued. *)
Example teardown_timeout :
  let run := deleteInstance Fake.env "srv-1" in
  fst (run (Fake.start stuckPort))
  = Val (Some (Errorf "error deleting the port %v" [ArgS "port-1"]))
  ∧ map kind (emitted run (Fake.start stuckPort))
    = [KInterfacesList; KExtensionsList; KInterfacesDelete; KTrunksList; KTrunksDelete]
      ++ repeat KPortsDelete 37.
Proof. vm_compute. by split. Qed.

(** ** Cleanup of ports after a failed creation *)

(** What deletePorts does as long as no port lookup is answered with
    not-found: a nil result means that every port of the list was deleted,
    and an error is the error of a failed delete call. *)
Lemma deletePorts_without_not_found {W : Type} (env : Env W)
  (nets : list ServerNetwork) :
  ∀ s, ∃ err s' evs,
    deletePorts env nets s = (Val err, s')
    ∧ trace s' = trace s ++ evs
    ∧ (∀ e, err = Some e → ∃ id, In (EvPortsDelete id (Some e)) evs)
    ∧ (err = None →
       (∀ id e, In (EvPortsGet id (Err e)) evs → IsNotFound env e = false) →
       ∀ n, In n nets → In (EvPortsDelete (sn_Port n) None) evs).
Proof.
  induction nets as [|n rest IH]; intros s; cbn [deletePorts].
  { exists None, s, []. rewrite app_nil_r. by repeat split. }
  unfold bind, call.
  destruct (ports_Get env (sn_Port n) (world s)) as [r w1].
  set (ev0 := EvPortsGet (sn_Port n) r).
  destruct (match r with Err e => IsNotFound env e | Ok _ => false end) eqn:Hnf.
  { destruct r as [port|e]; [done|].
    eexists None, _, [ev0]. split; [reflexivity|]. split; [done|].
    split; [done|]. intros _ Hget. specialize (Hget (sn_Port n) e (or_introl eq_refl)).
    congruence. }
  simpl. destruct (ports_Delete env (sn_Port n) w1) as [d w2].
  set (ev1 := EvPortsDelete (sn_Port n) d).
  set (s2 := {| world := w2; trace := (trace s ++ [ev0]) ++ [ev1];
                notices := notices s |}).
  destruct d as [e|].
  { eexists (Some e), _, [ev0; ev1]. split; [reflexivity|].
    split; [subst s2; simpl; by rewrite <- app_assoc|]. split; [|done].
    intros e' [= <-]. exists (sn_Port n). right. by left. }
  destruct (IH s2) as (err & s3 & evs & Hrun & Heq & Herr & Hnone).
  exists err, s3, (ev0 :: ev1 :: evs). split; [done|].
  split; [rewrite Heq; subst s2; simpl; by rewrite <- !app_assoc|]. split.
  - intros e He. destruct (Herr e He) as (id & Hin). exists id. right. by right.
  - intros He Hget m [<-|Hin]; [right; by left|].
    right. right. apply Hnone; [done| |done].
    intros id e Hin'. apply (Hget id e). right. by right.
Qed.

(** C1, at a failing input.  createInstance creates port-1 on the first
    network, finds it again for the second subnet of that network, and
    creates port-2 on the second network; no port has an address on s9.
    The cleanup deletes port-1, is then answered not-found for the second
    entry of port-1 and returns nil at once: createInstance returns the
    plain error, no server is created, no delete is issued for port-2, and
    port-2, created in this invocation, is still in the backend. *)
Theorem createInstance_leaves_created_port :
  let run := createInstance Fake.env "c1" strayInstance in
  let s := Fake.start twoNetworks in
  fst (run s)
  = Val (None, Some (Errorf "no ports with fixed IPs found on Subnet %q" [ArgS "s9"]))
  ∧ emitted run s
    = [ EvPortsList {| plo_Name := "node-0"; plo_NetworkID := "id-a" |} (Listed []);
        EvPortsCreate (portRequest "id-a" "s1") (Ok (portOn "port-1" "id-a" "s1"));
        EvPortsList {| plo_Name := "node-0"; plo_NetworkID := "id-a" |}
                    (Listed [portOn "port-1" "id-a" "s1"]);
        EvPortsList {| plo_Name := "node-0"; plo_NetworkID := "id-b" |} (Listed []);
        EvPortsCreate (portRequest "id-b" "s3") (Ok (portOn "port-2" "id-b" "s3"));
        EvPortsGet "port-1" (Ok (portOn "port-1" "id-a" "s1"));
        EvPortsDelete "port-1" None;
        EvPortsGet "port-1" (Err (BackendErr 404 "port not found")) ]
  ∧ Fake.fw_ports (world (snd (run s))) = [portOn "port-2" "id-b" "s3"].
Proof. vm_compute. repeat split. Qed.

(** ** Runs of InstanceCreate on the in-memory backend *)

(** The same machine with resolvable attachments gets its server, and the
    server-create call carries the deduplicated tags. *)
Example InstanceCreate_success :
  let run := InstanceCreate Fake.env "project" sampleCluster pendingMachine
               (Some (machineOn [attach "net-a"; attach "net-b"] "s3")) "c1" "" in
  (∃ i, fst (run (Fake.start twoNetworks)) = Val (Some i, None)
        ∧ inst_ID i = "srv-1" ∧ inst_IP i = "192.0.2.20")
  ∧ map kind (emitted run (Fake.start twoNetworks))
    = [ KNetworksList; KSubnetsByFilter; KNetworksList; KSubnetsByFilter;
        KPortsList; KPortsCreate; KPortsList; KPortsList; KPortsCreate;
        KFlavorIDFromName; KServersCreate; KServersGet ]
  ∧ Exists (λ ev, match ev with
                  | EvServersCreate b _ => co_Tags (baseOpts b) = ["a"; "b"; "c"]
                  | _ => False
                  end) (emitted run (Fake.start twoNetworks)).
Proof.
  vm_compute. split; [|split; [reflexivity|]].
  - eexists. by repeat split.
  - do 10 apply Exists_cons_tl. by apply Exists_cons_hd.
Qed.

(** With a trunk, the tagging call carries the same list. *)
Example InstanceCreate_trunk_tags :
  let run := InstanceCreate Fake.env "project" sampleCluster pendingMachine
               (Some trunkMachine) "c1" "" in
  omap (λ ev, match ev with
              | EvTagsReplaceAll resource id tags _ => Some (resource, id, tags)
              | EvServersCreate b _ => Some ("servers", "", co_Tags (baseOpts b))
              | _ => None
              end) (emitted run (Fake.start trunkNetworks))
  = [("trunks", "trunk-b", ["a"; "b"; "c"]); ("servers", "", ["a"; "b"; "c"])].
Proof. vm_compute. reflexivity. Qed.

(** The same run from InstanceCreate: a machine attached to both networks
    that asks for an access subnet on which it has no port.  The port
    created on the second network outlives the failed creation. *)
Example InstanceCreate_leaves_created_port :
  let run := InstanceCreate Fake.env "project" sampleCluster pendingMachine
               (Some (machineOn [attach "net-a"; attach "net-b"] "s9")) "c1" "" in
  fst (run (Fake.start twoNetworks))
  = Val (None, Some (Errorf "no ports with fixed IPs found on Subnet %q" [ArgS "s9"]))
  ∧ map port_ID (Fake.fw_ports (world (snd (run (Fake.start twoNetworks)))))
    = ["port-2"]
  ∧ map kind (emitted run (Fake.start twoNetworks))
    = [ KNetworksList; KSubnetsByFilter; KNetworksList; KSubnetsByFilter;
        KPortsList; KPortsCreate; KPortsList; KPortsList; KPortsCreate;
        KPortsGet; KPortsDelete; KPortsGet ].
Proof. vm_compute. by repeat split. Qed.

(** * Further properties *)

Lemma isDuplicate_elem (l : list string) (x : string) :
  isDuplicate l x = true ↔ x ∈ l.
Proof.
  induction l as [|y l IH]; simpl.
  - split; [done|]. by intros ?%elem_of_nil.
  - rewrite elem_of_cons. destruct (String.eqb_spec y x) as [->|Hne].
    + split; [by left|done].
    + rewrite IH. split; [by right|]. intros [->|?]; done.
Qed.

Lemma first_occurrences_app (l l' : list string) :
  first_occurrences (l ++ l')
  = first_occurrences l ++ filter (λ y, y ∉ l) (first_occurrences l').
Proof.
  induction l as [|x l IH]; simpl.
  - induction (first_occurrences l') as [|y r IHr]; [done|].
    rewrite filter_cons_True by apply not_elem_of_nil. by f_equal.
  - f_equal. rewrite IH, filter_app. f_equal.
    rewrite list_filter_filter. apply list_filter_iff.
    intros y. rewrite elem_of_cons. tauto.
Qed.

Lemma appendGroups_first_occurrences (SGList : list SecGroup) :
  ∀ L, appendGroups (first_occurrences L) SGList
       = first_occurrences (L ++ map secgroup_ID SGList).
Proof.
  induction SGList as [|group rest IH]; intros L; simpl.
  - by rewrite app_nil_r.
  - destruct (isDuplicate (first_occurrences L) (secgroup_ID group)) eqn:Hdup.
    + rewrite isDuplicate_elem, first_occurrences_elem in Hdup.
      rewrite IH, !first_occurrences_app. f_equal. simpl.
      rewrite filter_cons_False by (intros Hn; by apply Hn).
      rewrite list_filter_filter. apply list_filter_iff.
      intros y. split; [|tauto]. intros Hy. split; [done|]. by intros ->.
    + assert (Hnew : secgroup_ID group ∉ L).
      { intros Hin. rewrite <- first_occurrences_elem, <- isDuplicate_elem in Hin.
        congruence. }
      replace (first_occurrences L ++ [secgroup_ID group])
        with (first_occurrences (L ++ [secgroup_ID group])).
      * rewrite IH, <- app_assoc. done.
      * rewrite first_occurrences_app. simpl.
        by rewrite filter_cons_True.
Qed.

Section SecurityGroups.

Context {W : Type} (env : Env W) (projectID : string).

Lemma getSecurityGroups_from_run (params : list SecurityGroupParam) :
  ∀ L s, ∃ ids err s' evs,
    getSecurityGroups_from env projectID params (first_occurrences L) s
    = (Val (ids, err), s')
    ∧ trace s' = trace s ++ evs
    ∧ Forall2 (group_request projectID) (take (length evs) params) evs
    ∧ (err = None →
       ids = first_occurrences (L ++ listed_groups evs)
       ∧ length evs = length params
       ∧ Forall groups_found evs)
    ∧ (∀ e, err = Some e →
       ids = []
       ∧ ∃ pre ev, evs = pre ++ [ev] ∧ Forall groups_found pre ∧ groups_failure ev e).
Proof.
  induction params as [|sg rest IH]; intros L s; cbn [getSecurityGroups_from].
  { exists (first_occurrences L), None, s, []. rewrite !app_nil_r.
    by repeat split. }
  unfold bind, call.
  match goal with
  | |- context [groups_List env ?o (world s)] => set (listOpts := o)
  end.
  assert (Hreq : ∀ r, group_request projectID sg (EvSecGroupsList listOpts r)).
  { intros r. exists listOpts, r. subst listOpts. simpl.
    destruct (String.eqb_spec (sgf_ProjectID (sg_Filter sg)) ""); by repeat split. }
  destruct (groups_List env listOpts (world s)) as [r w1].
  set (ev0 := EvSecGroupsList listOpts r).
  assert (Hreq0 : group_request projectID sg ev0) by apply Hreq.
  assert (Hname : sgf_Name listOpts = sg_Name sg) by done.
  clearbody listOpts. clear Hreq.
  set (s1 := {| world := w1; trace := trace s ++ [ev0]; notices := notices s |}).
  destruct r as [[|group SGList]|e|e];
    try (exists [], (Some e), s1, [ev0]; split; [reflexivity|]; split; [done|];
         split; [by repeat constructor|]; split; [done|];
         intros e' [= <-]; split; [done|]; exists [], ev0; by repeat split).
  - eexists [], (Some _), s1, [ev0]. split; [reflexivity|]. split; [done|].
    split; [by repeat constructor|]. split; [done|].
    intros e' [= <-]. split; [done|]. exists [], ev0. split; [done|].
    split; [done|]. simpl. by rewrite Hname.
  - rewrite appendGroups_first_occurrences.
    destruct (IH (L ++ map secgroup_ID (group :: SGList)) s1)
      as (ids & err & s2 & evs & Hrun & Heq & Hreqs & Hok & Hfail).
    exists ids, err, s2, (ev0 :: evs). split; [exact Hrun|].
    split; [rewrite Heq; subst s1; simpl; by rewrite <- app_assoc|].
    split; [by constructor|]. split.
    + intros Hnone. destruct (Hok Hnone) as (-> & Hlen & Hfound).
      split; [|split].
      * cbn [listed_groups flat_map]. fold (listed_groups evs). subst ev0. cbn iota.
        by rewrite <- app_assoc.
      * simpl. by rewrite Hlen.
      * by constructor.
    + intros e He. destruct (Hfail e He) as (-> & pre & ev & -> & Hpre & Hev).
      split; [done|]. exists (ev0 :: pre), ev. split; [done|]. split; [|done].
      by constructor.
Qed.

End SecurityGroups.

Lemma emitted_run {W A} (m : M W A) (s s' : State W) (o : outcome A) (evs : list Event) :
  m s = (o, s') → trace s' = trace s ++ evs → emitted m s = evs.
Proof.
  intros Hrun Heq. unfold emitted. rewrite Hrun. simpl. by rewrite Heq, drop_app_length.
Qed.

(** X1.  getSecurityGroups never panics.  When it succeeds, every parameter
    got one listing that found at least one group, and the result is the
    order-preserving deduplication of the ids that the listings returned: no
    id twice, in the order of their first appearance.  When it fails, the
    result holds no id. *)
Theorem getSecurityGroups_resolved {W : Type} (env : Env W) (projectID : string)
  (securityGroupParams : list SecurityGroupParam) (s : State W) :
  let run := getSecurityGroups env projectID securityGroupParams in
  ∃ sgIDs err,
    fst (run s) = Val (sgIDs, err)
    ∧ (err = None →
       sgIDs = first_occurrences (listed_groups (emitted run s))
       ∧ NoDup sgIDs
       ∧ (∀ id, id ∈ sgIDs ↔ id ∈ listed_groups (emitted run s))
       ∧ length (emitted run s) = length securityGroupParams
       ∧ Forall groups_found (emitted run s))
    ∧ (err ≠ None → sgIDs = []).
Proof.
  intros run. subst run. unfold getSecurityGroups.
  destruct (getSecurityGroups_from_run env projectID securityGroupParams [] s)
    as (ids & err & s' & evs & Hrun & Heq & _ & Hok & Hfail).
  change (first_occurrences []) with (@nil string) in Hrun.
  rewrite (emitted_run _ _ _ _ _ Hrun Heq), Hrun.
  exists ids, err. split; [done|]. split.
  - intros Hnone. destruct (Hok Hnone) as (-> & Hlen & Hfound). simpl.
    split; [done|]. split; [apply first_occurrences_NoDup|].
    split; [intros id; apply first_occurrences_elem|done].
  - destruct err as [e|]; [|done]. intros _. by destruct (Hfail e eq_refl).
Qed.

(** X2.  A listing of security groups that fails, or that finds no group,
    ends getSecurityGroups: it is the last call, every listing before it
    found a group, and the result is no id and the error of the listing,
    unwrapped, or for an empty listing the not-found error that names the
    requested group. *)
Theorem getSecurityGroups_failure {W : Type} (env : Env W) (projectID : string)
  (securityGroupParams : list SecurityGroupParam) (s : State W)
  (opts : SecurityGroupFilter) (r : listing SecGroup) :
  let run := getSecurityGroups env projectID securityGroupParams in
  In (EvSecGroupsList opts r) (emitted run s) →
  ¬ groups_found (EvSecGroupsList opts r) →
  ∃ e, fst (run s) = Val ([], Some e)
       ∧ groups_failure (EvSecGroupsList opts r) e
       ∧ ∃ pre, emitted run s = pre ++ [EvSecGroupsList opts r]
                ∧ Forall groups_found pre.
Proof.
  intros run. subst run. unfold getSecurityGroups.
  destruct (getSecurityGroups_from_run env projectID securityGroupParams [] s)
    as (ids & err & s' & evs & Hrun & Heq & _ & Hok & Hfail).
  change (first_occurrences []) with (@nil string) in Hrun.
  rewrite (emitted_run _ _ _ _ _ Hrun Heq), Hrun.
  intros Hin Hnot.
  assert (Hnotin : ∀ l, Forall groups_found l → ¬ In (EvSecGroupsList opts r) l).
  { intros l Hall Hl. rewrite Forall_forall in Hall.
    by apply Hnot, Hall, list_elem_of_In. }
  destruct err as [e|].
  - destruct (Hfail e eq_refl) as (-> & pre & ev & -> & Hpre & Hev).
    apply in_app_or in Hin. destruct Hin as [Hin|[<-|[]]]; [by apply Hnotin in Hin|].
    exists e. split; [done|]. split; [done|]. by exists pre.
  - destruct (Hok eq_refl) as (_ & _ & Hfound). by apply Hnotin in Hin.
Qed.

Lemma getSecurityGroups_failure_witness :
  let run := getSecurityGroups Fake.env "project"
               [groupNamed "web"; groupNamed "missing"; groupNamed "db"] in
  fst (run (Fake.start groupsWorld))
  = Val ([], Some (Errorf "security group %s not found" [ArgS "missing"]))
  ∧ length (emitted run (Fake.start groupsWorld)) = 2%nat.
Proof.
  intros run.
  destruct (getSecurityGroups_failure Fake.env "project"
              [groupNamed "web"; groupNamed "missing"; groupNamed "db"]
              (Fake.start groupsWorld)
              {| sgf_ID := ""; sgf_Name := "missing"; sgf_Description := "";
                 sgf_TenantID := ""; sgf_ProjectID := "project" |} (Listed []))
    as (e & Hres & Hfail & pre & Hpre & _).
  - vm_compute. tauto.
  - simpl. tauto.
  - simpl in Hfail. subst e. split; [exact Hres|].
    subst run. rewrite Hpre. vm_compute in Hpre.
    destruct pre as [|ev0 [|ev1 pre]]; try discriminate; [done|].
    destruct pre; discriminate.
Defined.

(** X3.  The listings of getSecurityGroups are issued in the order of the
    parameters, one for each parameter up to the one that ends the loop.
    Each request carries the UUID and the name of its parameter in the place
    of the id and the name of the parameter's filter, the description and
    the tenant of the filter, and the project of the filter, or the project
    of the service when the filter names none. *)
Theorem getSecurityGroups_requests {W : Type} (env : Env W) (projectID : string)
  (securityGroupParams : list SecurityGroupParam) (s : State W) :
  let evs := emitted (getSecurityGroups env projectID securityGroupParams) s in
  (length evs ≤ length securityGroupParams)%nat
  ∧ Forall2 (group_request projectID) (take (length evs) securityGroupParams) evs.
Proof.
  intros evs. subst evs. unfold getSecurityGroups.
  destruct (getSecurityGroups_from_run env projectID securityGroupParams [] s)
    as (ids & err & s' & evs & Hrun & Heq & Hreqs & _).
  change (first_occurrences []) with (@nil string) in Hrun.
  rewrite (emitted_run _ _ _ _ _ Hrun Heq). split; [|done].
  apply Forall2_length in Hreqs. rewrite length_take in Hreqs. lia.
Qed.

Lemma last_filter_snoc {A} (P : A → bool) (l : list A) (x : A) :
  last (filter P (l ++ [x])) = if P x then Some x else last (filter P l).
Proof.
  rewrite filter_app, filter_cons, filter_nil.
  destruct (decide (P x)) as [HP|HP]; destruct (P x); try done.
  - by rewrite last_snoc.
  - by rewrite app_nil_r.
Qed.

(** The map after the entries [ns], from the map [addrMap]. *)
Lemma fold_addrStep (ns : list networkInterface) (addrMap : gmap string string) :
  let addrMap' := fold_left addrStep ns addrMap in
  addrMap' !! "internal"
  = match last (filter fixed_v4 ns) with
    | Some n => Some (ni_Address n)
    | None => addrMap !! "internal"
    end
  ∧ addrMap' !! "floating"
    = match last (filter floating_v4 ns) with
      | Some n => Some (ni_Address n)
      | None => addrMap !! "floating"
      end
  ∧ ∀ k, k ≠ "internal" → k ≠ "floating" → addrMap' !! k = addrMap !! k.
Proof.
  induction ns as [|n ns IH] using rev_ind; [done|].
  rewrite fold_left_app. cbn [fold_left]. rewrite !last_filter_snoc.
  destruct IH as (Hint & Hfl & Hother).
  unfold addrStep at 1 3 5, fixed_v4 at 1, floating_v4 at 1.
  destruct (ni_Version n =? 4)%Z; [|done].
  destruct (ni_Type n =? "floating")%string; cbn [andb negb].
  - rewrite lookup_insert_ne by done. rewrite lookup_insert_eq.
    split; [done|]. split; [done|].
    intros k Hk1 Hk2. rewrite lookup_insert_ne by done. by apply Hother.
  - rewrite lookup_insert_eq. rewrite lookup_insert_ne by done.
    split; [done|]. split; [done|].
    intros k Hk1 Hk2. rewrite lookup_insert_ne by done. by apply Hother.
Qed.

Lemma addrNetworkList_decoded networkList : ∀ addrMap,
  addrNetworkList networkList addrMap
  = match decoded_list networkList with
    | Ok ns => Ok (fold_left addrStep ns addrMap)
    | Err e => Err (Errorf "extract IP from instance err: %v" [ArgE e])
    end.
Proof.
  induction networkList as [|[n|e] rest IH]; intros addrMap; simpl; [done| |done].
  rewrite IH. by destruct (decoded_list rest).
Qed.

Lemma addrAddresses_decoded addresses : ∀ addrMap,
  addrAddresses addresses addrMap
  = match decoded addresses with
    | Ok ns => Ok (fold_left addrStep ns addrMap)
    | Err e => Err (Errorf "extract IP from instance err: %v" [ArgE e])
    end.
Proof.
  induction addresses as [|[name [networkList|e]] rest IH]; intros addrMap; simpl;
    [done| |done].
  rewrite addrNetworkList_decoded. destruct (decoded_list networkList) as [ns|e]; [|done].
  rewrite IH. destruct (decoded rest) as [ms|e]; [|done].
  by rewrite fold_left_app.
Qed.

Lemma access_usable_dec {W} (env : Env W) (v : Server) :
  (access_usable env v
   ∧ negb (srv_AccessIPv4 v =? "")%string && ParseIP_valid env (srv_AccessIPv4 v) = true)
  ∨ (¬ access_usable env v
     ∧ negb (srv_AccessIPv4 v =? "")%string && ParseIP_valid env (srv_AccessIPv4 v) = false).
Proof.
  unfold access_usable.
  destruct (String.eqb_spec (srv_AccessIPv4 v) "") as [Heq|Hne]; simpl.
  - right. split; [|done]. by intros [? _].
  - destruct (ParseIP_valid env (srv_AccessIPv4 v)); [by left|right].
    split; [|done]. by intros [_ ?].
Qed.

(** X4.  GetIPFromInstance for a server without a usable access address,
    all of whose address entries decode: the internal address is that of
    the last IPv4 entry that is not floating, the floating address that of
    the last floating IPv4 entry, in the order in which the entries are
    visited; entries of another IP version count for nothing, and the map
    has no other key. *)
Theorem GetIPFromInstance_addresses {W : Type} (env : Env W) (v : Server)
  (ns : list networkInterface) :
  ¬ access_usable env v →
  decoded (srv_Addresses v) = Ok ns →
  ∃ addrMap,
    GetIPFromInstance env v = Ok addrMap
    ∧ addrMap !! "internal" = ni_Address <$> last (filter fixed_v4 ns)
    ∧ addrMap !! "floating" = ni_Address <$> last (filter floating_v4 ns)
    ∧ ∀ k, k ≠ "internal" → k ≠ "floating" → addrMap !! k = None.
Proof.
  intros Hno Hdec. unfold GetIPFromInstance.
  destruct (access_usable_dec env v) as [[Hyes _]|[_ ->]]; [done|].
  rewrite addrAddresses_decoded, Hdec. eexists. split; [reflexivity|].
  destruct (fold_addrStep ns ∅) as (Hint & Hfl & Hother).
  rewrite Hint, Hfl. split; [|split].
  - by destruct (last (filter fixed_v4 ns)).
  - by destruct (last (filter floating_v4 ns)).
  - intros k H1 H2. by rewrite Hother.
Qed.

Lemma GetIPFromInstance_addresses_witness :
  ∃ addrMap,
    GetIPFromInstance Fake.env (addressedServer "") = Ok addrMap
    ∧ addrMap !! "internal" = Some "10.0.1.4"
    ∧ addrMap !! "floating" = Some "203.0.113.9".
Proof.
  destruct (GetIPFromInstance_addresses Fake.env (addressedServer "")
              [ {| ni_Address := "10.0.0.4"; ni_Version := 4; ni_Type := "fixed" |};
                {| ni_Address := "fd00::4"; ni_Version := 6; ni_Type := "fixed" |};
                {| ni_Address := "203.0.113.9"; ni_Version := 4; ni_Type := "floating" |};
                {| ni_Address := "10.0.1.4"; ni_Version := 4; ni_Type := "fixed" |} ])
    as (addrMap & Hmap & Hint & Hfl & _).
  - unfold access_usable. simpl. tauto.
  - reflexivity.
  - exists addrMap. split; [exact Hmap|]. split; [exact Hint|exact Hfl].
Defined.

(** X5.  GetIPFromInstance fails exactly when the server has no usable
    access address and some entry of its address list does not decode; the
    error wraps the error of the first such entry.  So one bad entry fails
    the call whatever addresses were found before it, and a usable access
    address hides every bad entry. *)
Theorem GetIPFromInstance_error {W : Type} (env : Env W) (v : Server) (e : error) :
  GetIPFromInstance env v = Err e
  ↔ ¬ access_usable env v
    ∧ ∃ e0, decoded (srv_Addresses v) = Err e0
            ∧ e = Errorf "extract IP from instance err: %v" [ArgE e0].
Proof.
  unfold GetIPFromInstance.
  destruct (access_usable_dec env v) as [[Hyes ->]|[Hno ->]].
  - split; [done|]. by intros [? _].
  - rewrite addrAddresses_decoded. destruct (decoded (srv_Addresses v)) as [ns|e0].
    + split; [done|]. by intros (_ & e0 & ? & _).
    + split.
      * intros [= <-]. split; [done|]. by exists e0.
      * intros (_ & e1 & [= <-] & ->). done.
Qed.

(** X6.  serverToInstance of a server always yields an instance with the
    id, name, key name and status of the server and with every field that
    the server does not provide at its zero value.  With a usable access
    address the instance has that address and never a floating one, whatever
    the address list holds.  Otherwise its addresses are those of the last
    fixed and the last floating IPv4 entry, empty when there is none; and
    when an entry does not decode, the instance comes with an error and
    without addresses. *)
Theorem serverToInstance_fields {W : Type} (env : Env W) (v : Server) :
  ∃ i, fst (serverToInstance env (Some v)) = Some i
    ∧ (inst_ID i = srv_ID v ∧ inst_Name i = srv_Name v
       ∧ inst_SSHKeyName i = srv_KeyName v ∧ inst_State i = srv_Status v)
    ∧ set_addresses i "" "" = set_addresses
        {| inst_ID := srv_ID v; inst_Name := srv_Name v; inst_Trunk := false;
           inst_FailureDomain := ""; inst_SecurityGroups := None;
           inst_Networks := None; inst_Subnet := ""; inst_Tags := [];
           inst_Image := ""; inst_Flavor := ""; inst_SSHKeyName := srv_KeyName v;
           inst_UserData := ""; inst_Metadata := ∅; inst_ConfigDrive := None;
           inst_RootVolume := None; inst_ServerGroupID := "";
           inst_State := srv_Status v; inst_IP := ""; inst_FloatingIP := "" |} "" ""
    ∧ (access_usable env v →
       snd (serverToInstance env (Some v)) = None
       ∧ inst_IP i = srv_AccessIPv4 v ∧ inst_FloatingIP i = "")
    ∧ (¬ access_usable env v →
       match decoded (srv_Addresses v) with
       | Ok ns =>
           snd (serverToInstance env (Some v)) = None
           ∧ inst_IP i = default "" (ni_Address <$> last (filter fixed_v4 ns))
           ∧ inst_FloatingIP i = default "" (ni_Address <$> last (filter floating_v4 ns))
       | Err e0 =>
           snd (serverToInstance env (Some v))
           = Some (Errorf "extract IP from instance err: %v" [ArgE e0])
           ∧ inst_IP i = "" ∧ inst_FloatingIP i = ""
       end).
Proof.
  unfold serverToInstance, GetIPFromInstance.
  destruct (access_usable_dec env v) as [[Hyes ->]|[Hno ->]].
  - eexists. split; [reflexivity|]. simpl. split; [done|]. split; [done|].
    split; [|done]. intros _. by rewrite lookup_insert_eq.
  - rewrite addrAddresses_decoded. destruct (decoded (srv_Addresses v)) as [ns|e0].
    + eexists. split; [reflexivity|]. simpl. split; [done|]. split; [done|].
      split; [done|]. intros _.
      destruct (fold_addrStep ns ∅) as (Hint & Hfl & _). rewrite Hint, Hfl.
      split; [done|].
      split; [by destruct (last (filter fixed_v4 ns))
             |by destruct (last (filter floating_v4 ns))].
    + eexists. split; [reflexivity|]. simpl. by repeat split.
Qed.

Lemma serverToInstance_error {W} (env : Env W) (v : Server) :
  ∃ i, fst (serverToInstance env (Some v)) = Some i
       ∧ match GetIPFromInstance env v with
         | Ok _ => snd (serverToInstance env (Some v)) = None
         | Err e => snd (serverToInstance env (Some v)) = Some e
         end.
Proof.
  unfold serverToInstance. destruct (GetIPFromInstance env v); by eexists.
Qed.

Lemma GetIPFromInstance_formatted {W} (env : Env W) (v : Server) (e : error) :
  GetIPFromInstance env v = Err e → formatted e.
Proof.
  unfold GetIPFromInstance.
  destruct (negb (srv_AccessIPv4 v =? "")%string && ParseIP_valid env (srv_AccessIPv4 v));
    [done|].
  rewrite addrAddresses_decoded. destruct (decoded (srv_Addresses v)) as [ns|e0]; [done|].
  intros [= <-]. by eexists _, _.
Qed.

(** X7.  GetInstance never panics and never returns an instance together
    with an error.  Without an id it fails before any call.  An instance is
    the conversion of the server that the one lookup returned; no instance
    and no error means that the lookup was answered with a not-found error;
    and every error it returns is a formatted one, never the error value of
    the backend itself. *)
Theorem GetInstance_outcomes {W : Type} (env : Env W) (resourceID : string)
  (s : State W) :
  let run := GetInstance env resourceID in
  ∃ instance err,
    fst (run s) = Val (instance, err)
    ∧ (instance = None ∨ err = None)
    ∧ (resourceID = "" → emitted run s = [] ∧ instance = None ∧ err ≠ None)
    ∧ (∀ i, instance = Some i →
         ∃ server, emitted run s = [EvServersGet resourceID (Ok server)]
                   ∧ serverToInstance env (Some server) = (Some i, None))
    ∧ (instance = None → err = None →
         ∃ e, emitted run s = [EvServersGet resourceID (Err e)]
              ∧ IsNotFound env e = true)
    ∧ (∀ e, err = Some e → formatted e).
Proof.
  intros run. subst run. unfold emitted, GetInstance.
  destruct (String.eqb_spec resourceID "") as [->|Hne].
  { eexists None, (Some _). simpl. split; [reflexivity|]. rewrite drop_all.
    split; [by left|]. split; [done|]. split; [done|]. split; [done|].
    intros e [= <-]. by eexists _, _. }
  unfold bind, call. destruct (servers_Get env resourceID (world s)) as [[server|e] w1].
  - destruct (serverToInstance_error env server) as (i & Hi & Herr).
    pose proof (GetIPFromInstance_formatted env server) as Hfmt.
    destruct (serverToInstance env (Some server)) as [i' err'] eqn:Hconv.
    simpl in Hi, Herr. subst i'.
    destruct (GetIPFromInstance env server) as [addrMap|e]; subst err'; simpl;
      rewrite drop_app_length.
    + exists (Some i), None. split; [done|]. split; [by right|]. split; [done|].
      split; [|done]. intros i0 [= <-]. by exists server.
    + exists None, (Some e). split; [done|]. split; [by left|]. split; [done|].
      split; [done|]. split; [done|]. intros e0 [= <-]. by apply Hfmt.
  - destruct (IsNotFound env e) eqn:Hnf; simpl; rewrite drop_app_length.
    + exists None, None. split; [done|]. split; [by left|]. split; [done|].
      split; [done|]. split; [|done]. intros _ _. by exists e.
    + eexists None, (Some _). split; [reflexivity|]. split; [by left|].
      split; [done|]. split; [done|]. split; [done|].
      intros e0 [= <-]. by eexists _, _.
Qed.

Section Exists.

Context {W : Type} (env : Env W).

Lemma InstanceExists_instances_ok (serverList : list Server) :
  ∀ instanceList,
    Forall (addressable env) serverList →
    InstanceExists_instances env serverList instanceList
    = Ok (instanceList
          ++ map (λ v, fst (serverToInstance env (Some v))) serverList).
Proof.
  induction serverList as [|v rest IH]; intros instanceList Hall;
    cbn [InstanceExists_instances map].
  - by rewrite app_nil_r.
  - apply Forall_cons in Hall. destruct Hall as [[addrMap Hv] Hrest].
    destruct (serverToInstance_error env v) as (i & Hi & Herr). rewrite Hv in Herr.
    destruct (serverToInstance env (Some v)) as [i' err']. simpl in *. subst.
    rewrite IH by done. by rewrite <- app_assoc.
Qed.

Lemma InstanceExists_instances_err (pre post : list Server) (v : Server) (e : error) :
  ∀ instanceList,
    Forall (addressable env) pre →
    GetIPFromInstance env v = Err e →
    InstanceExists_instances env (pre ++ v :: post) instanceList = Err e.
Proof.
  induction pre as [|v0 pre IH]; intros instanceList Hall Hv;
    cbn [InstanceExists_instances app].
  - destruct (serverToInstance_error env v) as (i & Hi & Herr). rewrite Hv in Herr.
    destruct (serverToInstance env (Some v)) as [i' err']. simpl in *. by subst.
  - apply Forall_cons in Hall. destruct Hall as [[addrMap Hv0] Hrest].
    destruct (serverToInstance_error env v0) as (i & Hi & Herr). rewrite Hv0 in Herr.
    destruct (serverToInstance env (Some v0)) as [i' err']. simpl in *. subst.
    by apply IH.
Qed.

End Exists.

(** X8.  InstanceExists issues one listing: for the name between anchors,
    or, for an empty name, without a filter, so that it lists every server.
    It converts every listed server before it looks at the first one.  When
    all conversions succeed, the result is the instance of the first listed
    server, whatever else was listed; when the conversion of any listed
    server fails, also of a later one, the call fails with that error. *)
Theorem InstanceExists_listed {W : Type} (env : Env W) (name : string) (s : State W)
  (serverList : list Server) :
  let listOpts := {| slo_Name := if (name =? "")%string then ""
                                 else "^" ++ name ++ "$" |} in
  fst (servers_List env listOpts (world s)) = Listed serverList →
  emitted (InstanceExists env name) s = [EvServersList listOpts (Listed serverList)]
  ∧ (Forall (addressable env) serverList →
     fst (InstanceExists env name s)
     = Val (head serverList ≫= (λ v, fst (serverToInstance env (Some v))), None))
  ∧ (∀ pre v post e,
       serverList = pre ++ v :: post →
       Forall (addressable env) pre →
       GetIPFromInstance env v = Err e →
       fst (InstanceExists env name s) = Val (None, Some e)).
Proof.
  intros listOpts Hlist. unfold emitted, InstanceExists.
  assert (Hopts : (if negb (name =? "")%string
                   then {| slo_Name := "^" ++ name ++ "$" |}
                   else {| slo_Name := "" |}) = listOpts).
  { subst listOpts. by destruct (name =? "")%string. }
  rewrite Hopts. clearbody listOpts. unfold bind, call.
  destruct (servers_List env listOpts (world s)) as [r w1]. simpl in Hlist. subst r.
  split; [|split].
  - destruct (InstanceExists_instances env serverList []) as [[|i l]|e]; simpl;
      by rewrite drop_app_length.
  - intros Hall. rewrite InstanceExists_instances_ok by done. simpl.
    by destruct serverList.
  - intros pre v post e -> Hpre Hv.
    by rewrite (InstanceExists_instances_err env pre post v e).
Qed.

Lemma InstanceExists_listed_witness :
  (∃ i, fst (InstanceExists Fake.env "" (Fake.start twoServers)) = Val (Some i, None)
        ∧ inst_Name i = "node-10")
  ∧ fst (InstanceExists Fake.env ""
           (Fake.start (serversWorld [addressedServer ""; brokenServer ""])))
    = Val (None, Some (Errorf "extract IP from instance err: %v"
                         [ArgE (Errorf "json: cannot unmarshal" [])])).
Proof.
  split.
  - destruct (InstanceExists_listed Fake.env "" (Fake.start twoServers)
                (Fake.fw_servers twoServers) eq_refl) as (_ & Hfirst & _).
    rewrite Hfirst.
    + eexists. split; reflexivity.
    + repeat constructor; by eexists.
  - destruct (InstanceExists_listed Fake.env ""
                (Fake.start (serversWorld [addressedServer ""; brokenServer ""]))
                [addressedServer ""; brokenServer ""] eq_refl) as (_ & _ & Hlater).
    apply (Hlater [addressedServer ""] (brokenServer "") []).
    + reflexivity.
    + repeat constructor. by eexists.
    + reflexivity.
Defined.

Section Observes.

Context {W : Type}.

Lemma observes_ret {A} (R : list Event → outcome A → Prop) (a : A) :
  R [] (Val a) → observes R (ret a : M W A).
Proof. intros HR s. exists []. by rewrite app_nil_r. Qed.

Lemma observes_panic {A} (R : list Event → outcome A → Prop) :
  R [] Panic → observes R (@panic W A).
Proof. intros HR s. exists []. by rewrite app_nil_r. Qed.

Lemma observes_notify (R : list Event → outcome unit → Prop) n :
  R [] (Val tt) → observes R (@notify W n).
Proof. intros HR s. exists []. simpl. by rewrite app_nil_r. Qed.

Lemma observes_call {X} (R : list Event → outcome X → Prop)
  (op : W → X * W) (ev : X → Event) :
  (∀ r, R [ev r] (Val r)) → observes R (call op ev).
Proof.
  intros HR s. unfold call. destruct (op (world s)) as [r w']. exists [ev r]. by split.
Qed.

Lemma observes_bind {A B} (R1 : list Event → outcome A → Prop)
  (R2 : A → list Event → outcome B → Prop) (R : list Event → outcome B → Prop)
  (m : M W A) (k : A → M W B) :
  observes R1 m →
  (∀ a, observes (R2 a) (k a)) →
  (∀ e1, R1 e1 Panic → R e1 Panic) →
  (∀ e1 a e2 o, R1 e1 (Val a) → R2 a e2 o → R (e1 ++ e2) o) →
  observes R (bind m k).
Proof.
  intros Hm Hk Hpanic Hseq s. unfold bind.
  destruct (Hm s) as (e1 & Heq1 & H1).
  destruct (m s) as [[a|] s1]; simpl in *.
  - destruct (Hk a s1) as (e2 & Heq2 & H2).
    exists (e1 ++ e2). rewrite Heq2, Heq1, app_assoc. split; [done|]. by eapply Hseq.
  - exists e1. split; [done|]. by apply Hpanic.
Qed.

Lemma observes_weaken {A} (R R' : list Event → outcome A → Prop) (m : M W A) :
  observes R m → (∀ evs o, R evs o → R' evs o) → observes R' m.
Proof.
  intros Hm HR s. destruct (Hm s) as (evs & Heq & H). exists evs. split; [done|].
  by apply HR.
Qed.

Lemma observes_emitted {A} (R : list Event → outcome A → Prop) (m : M W A)
  (s : State W) :
  observes R m → R (emitted m s) (fst (m s)).
Proof.
  intros Hm. destruct (Hm s) as (evs & Heq & H). unfold emitted.
  by rewrite Heq, drop_app_length.
Qed.

Lemma emits_observes {A} (P : Event → Prop) (m : M W A) :
  emits P m → observes (λ evs _, Forall P evs) m.
Proof. intros Hm s. destruct (Hm s) as (evs & Heq & H). by exists evs. Qed.

Lemma observes_emits {A} (P : Event → Prop) (m : M W A) :
  observes (λ evs _, Forall P evs) m → emits P m.
Proof. intros Hm s. destruct (Hm s) as (evs & Heq & H). by exists evs. Qed.

(** Runs in which an event with the property [Q] is fatal. *)
Lemma fatal_ret {A} Q (a : A) : observes (fatal Q) (ret a : M W A).
Proof. apply observes_ret. by intros ev []. Qed.

Lemma fatal_panic {A} Q : observes (fatal Q) (@panic W A).
Proof. apply observes_panic. by intros ev []. Qed.

Lemma fatal_notify Q n : observes (fatal Q) (@notify W n).
Proof. apply observes_notify. by intros ev []. Qed.

Lemma fatal_emits {A} Q (m : M W A) :
  emits (λ ev, ¬ Q ev) m → observes (fatal Q) m.
Proof.
  intros Hm. eapply observes_weaken; [by apply emits_observes|].
  intros evs o Hall ev Hin HQ. rewrite Forall_forall in Hall.
  by apply Hall in HQ; [|apply list_elem_of_In].
Qed.

Lemma fatal_call {X} Q (op : W → X * W) (ev : X → Event) :
  (∀ r, ¬ Q (ev r)) → observes (fatal Q) (call op ev).
Proof. intros HQ. apply fatal_emits. by apply emits_call. Qed.

Lemma fatal_bind {A B} Q (m : M W A) (k : A → M W B) :
  observes (fatal Q) m → (∀ a, observes (fatal Q) (k a)) →
  observes (fatal Q) (bind m k).
Proof.
  intros Hm Hk.
  apply (observes_bind (fatal Q) (λ _, fatal Q)); [done|done|..].
  - intros e1 H1 ev Hin HQ. destruct (H1 ev Hin HQ) as (_ & pre & ->).
    split; [done|]. by exists pre.
  - intros e1 a e2 o H1 H2 ev Hin HQ. apply in_app_or in Hin.
    destruct Hin as [Hin|Hin]; [by destruct (H1 ev Hin HQ)|].
    destruct (H2 ev Hin HQ) as (-> & pre & ->). split; [done|].
    exists (e1 ++ pre). by rewrite app_assoc.
Qed.

(** A call whose response may be fatal: the continuation panics at once. *)
Lemma fatal_call_bind {X B} Q (op : W → X * W) (ev : X → Event) (k : X → M W B) :
  (∀ r, Q (ev r) → ∀ s, k r s = (Panic, s)) →
  (∀ r, observes (fatal Q) (k r)) →
  observes (fatal Q) (bind (call op ev) k).
Proof.
  intros Hpanic Hk s. unfold bind, call. destruct (op (world s)) as [r w1].
  set (s1 := {| world := w1; trace := trace s ++ [ev r]; notices := notices s |}).
  destruct (Hk r s1) as (e2 & Heq2 & H2).
  exists (ev r :: e2). split; [rewrite Heq2; subst s1; simpl; by rewrite <- app_assoc|].
  intros ev' [<-|Hin] HQ.
  - specialize (Hpanic r HQ s1). rewrite Hpanic in Heq2 |- *. simpl in *.
    rewrite <- (app_nil_r (trace s ++ [ev r])) in Heq2 at 1.
    apply app_inv_head in Heq2. subst e2. split; [done|]. by exists [].
  - destruct (H2 ev' Hin HQ) as (-> & pre & ->). split; [done|].
    by exists (ev r :: pre).
Qed.

End Observes.

(** Walks through a computation for [fatal]. *)
Ltac fatal_walk side :=
  repeat first
    [ apply fatal_ret
    | apply fatal_panic
    | apply fatal_notify
    | apply fatal_call; intros; side
    | apply fatal_bind; [|intros ?]
    | progress side
    | match goal with
      | |- observes (fatal _) (match ?x with _ => _ end) => destruct x
      | |- observes (fatal _) (if ?x then _ else _) => destruct x
      end ].

Section Cleanup.

Context {W : Type} (env : Env W).

Lemma deletePorts_run (nets : list ServerNetwork) :
  ∀ s, ∃ err s' evs cleaned chunks,
    deletePorts env nets s = (Val err, s')
    ∧ trace s' = trace s ++ evs
    ∧ Forall2 (port_cleaned env) cleaned chunks
    ∧ ((err = None ∧ cleaned = nets ∧ evs = concat chunks)
       ∨ (∃ n rest e,
            nets = cleaned ++ n :: rest ∧ err = None ∧ IsNotFound env e = true
            ∧ evs = concat chunks ++ [EvPortsGet (sn_Port n) (Err e)])
       ∨ (∃ n rest r e,
            nets = cleaned ++ n :: rest ∧ err = Some e
            ∧ (∀ e', r = Err e' → IsNotFound env e' = false)
            ∧ evs = concat chunks ++ [EvPortsGet (sn_Port n) r;
                                      EvPortsDelete (sn_Port n) (Some e)])).
Proof.
  induction nets as [|n rest IH]; intros s; cbn [deletePorts].
  { exists None, s, [], [], []. rewrite app_nil_r. split; [done|]. split; [done|].
    split; [constructor|]. by left. }
  unfold bind, call.
  destruct (ports_Get env (sn_Port n) (world s)) as [r w1].
  set (ev0 := EvPortsGet (sn_Port n) r).
  destruct (match r with Err e => IsNotFound env e | Ok _ => false end) eqn:Hnf.
  { destruct r as [port|e]; [done|].
    eexists None, _, [ev0], [], []. split; [reflexivity|]. split; [done|].
    split; [constructor|]. right. left. by exists n, rest, e. }
  assert (Hr : ∀ e', r = Err e' → IsNotFound env e' = false) by (by intros e' ->).
  simpl. destruct (ports_Delete env (sn_Port n) w1) as [d w2].
  set (ev1 := EvPortsDelete (sn_Port n) d).
  set (s2 := {| world := w2; trace := (trace s ++ [ev0]) ++ [ev1];
                notices := notices s |}).
  destruct d as [e|].
  { eexists (Some e), _, [ev0; ev1], [], []. split; [reflexivity|].
    split; [subst s2; simpl; by rewrite <- app_assoc|].
    split; [constructor|]. right. right. by exists n, rest, r, e. }
  destruct (IH s2) as (err & s3 & evs & cleaned & chunks & Hrun & Heq & Hcl & Hcase).
  exists err, s3, (ev0 :: ev1 :: evs), (n :: cleaned), ([ev0; ev1] :: chunks).
  split; [done|].
  split; [rewrite Heq; subst s2; simpl; by rewrite <- !app_assoc|].
  split; [constructor; [by exists r|done]|].
  destruct Hcase as [(-> & -> & ->)|[(n' & rest' & e & -> & -> & He & ->)
                                    |(n' & rest' & r' & e & -> & -> & He & ->)]].
  - by left.
  - right. left. by exists n', rest', e.
  - right. right. by exists n', rest', r', e.
Qed.

Lemma port_cleaned_gets (cleaned : list ServerNetwork) (chunks : list (list Event))
  (id : string) (e : error) :
  Forall2 (port_cleaned env) cleaned chunks →
  In (EvPortsGet id (Err e)) (concat chunks) → IsNotFound env e = false.
Proof.
  induction 1 as [|n chunk cleaned chunks (r & -> & Hr) _ IH]; simpl; [done|].
  intros [Hin|[Hin|Hin]]; [|discriminate|by apply IH].
  injection Hin as _ ->. by apply Hr.
Qed.

End Cleanup.

(** X9.  A port lookup that is answered with a not-found error ends
    deletePorts with a nil result: the lookup is its last call, the ports
    before it in the list were each looked up and deleted, and for the
    ports after it no call is issued at all. *)
Theorem deletePorts_stops_at_not_found {W : Type} (env : Env W)
  (nets : list ServerNetwork) (s : State W) (id : string) (e : error) :
  let run := deletePorts env nets in
  In (EvPortsGet id (Err e)) (emitted run s) →
  IsNotFound env e = true →
  fst (run s) = Val None
  ∧ ∃ cleaned n rest chunks,
      nets = cleaned ++ n :: rest
      ∧ sn_Port n = id
      ∧ Forall2 (port_cleaned env) cleaned chunks
      ∧ emitted run s = concat chunks ++ [EvPortsGet id (Err e)].
Proof.
  intros run. subst run.
  destruct (deletePorts_run env nets s)
    as (err & s' & evs & cleaned & chunks & Hrun & Heq & Hcl & Hcase).
  rewrite (emitted_run _ _ _ _ _ Hrun Heq), Hrun. intros Hin Hnf.
  pose proof (port_cleaned_gets env cleaned chunks id e Hcl) as Hgets.
  destruct Hcase as [(-> & -> & ->)|[(n & rest & e' & -> & -> & He & ->)
                                    |(n & rest & r & e' & -> & -> & He & ->)]].
  - apply Hgets in Hin. congruence.
  - apply in_app_or in Hin. destruct Hin as [Hin|[Hin|[]]].
    + apply Hgets in Hin. congruence.
    + injection Hin as <- <-. split; [done|]. by exists cleaned, n, rest, chunks.
  - apply in_app_or in Hin. destruct Hin as [Hin|[Hin|[Hin|[]]]].
    + apply Hgets in Hin. congruence.
    + injection Hin as _ ->. specialize (He e eq_refl). congruence.
    + discriminate.
Qed.

Lemma deletePorts_stops_at_not_found_witness :
  let run := deletePorts Fake.env
               [{| sn_Port := "port-1" |}; {| sn_Port := "port-1" |};
                {| sn_Port := "port-2" |}] in
  fst (run (Fake.start twoPorts)) = Val None
  ∧ map port_ID (Fake.fw_ports (world (snd (run (Fake.start twoPorts))))) = ["port-2"].
Proof.
  intros run.
  destruct (deletePorts_stops_at_not_found Fake.env
              [{| sn_Port := "port-1" |}; {| sn_Port := "port-1" |};
               {| sn_Port := "port-2" |}]
              (Fake.start twoPorts) "port-1" (Fake.notFound "port"))
    as (Hres & _).
  - vm_compute. tauto.
  - reflexivity.
  - split; [exact Hres|reflexivity].
Defined.

Lemma emits_weaken {W A} (P P' : Event → Prop) (m : M W A) :
  emits P m → (∀ ev, P ev → P' ev) → emits P' m.
Proof.
  intros Hm HP s. destruct (Hm s) as (evs & Heq & Hall).
  exists evs. split; [done|]. eapply Forall_impl; eauto.
Qed.

Lemma emits_among_incl {W A} (ks ks' : list Kind) (m : M W A) :
  emits (among ks) m → (∀ k, In k ks → In k ks') → emits (among ks') m.
Proof. intros Hm Hincl. eapply emits_weaken; [exact Hm|]. intros ev. apply Hincl. Qed.

Ltac kinds_incl := let k := fresh "k" in intros k; simpl; tauto.

Section Creation.

Context {W : Type} (env : Env W).

Lemma emits_createInstance_trunk i port :
  emits (among trunk_kinds) (createInstance_trunk env i port).
Proof. unfold createInstance_trunk. emits_walk among_side. Qed.

Lemma emits_createInstance_networks clusterName i networkList accessIPv4 portsList :
  emits (among port_kinds)
        (createInstance_networks env clusterName i networkList accessIPv4 portsList).
Proof.
  revert accessIPv4 portsList.
  induction networkList as [|network rest IH]; intros accessIPv4 portsList; simpl.
  - apply emits_ret.
  - unfold createPort. emits_walk among_side.
    all: first [ apply IH
               | eapply emits_among_incl; [apply emits_createInstance_trunk|kinds_incl] ].
Qed.

Lemma emits_createInstance_condition id :
  emits (among [KServersGet]) (createInstance_condition env id).
Proof.
  unfold createInstance_condition.
  apply emits_bind; [apply emits_GetInstance|]. intros x. emits_walk among_side.
Qed.

Lemma emits_createInstance clusterName i :
  emits (among creation_kinds) (createInstance env clusterName i).
Proof.
  unfold createInstance.
  apply emits_bind; [eapply emits_among_incl; [apply emits_getImageID|kinds_incl]|].
  intros [imageID [e|]]; [apply emits_ret|].
  destruct (inst_Networks i) as [networkList|]; [|apply emits_panic].
  apply emits_bind;
    [eapply emits_among_incl; [apply emits_createInstance_networks|kinds_incl]|].
  intros [[accessIPv4 portsList]|e]; [|apply emits_ret].
  destruct (negb (inst_Subnet i =? "")%string && (accessIPv4 =? "")%string).
  { apply emits_bind; [eapply emits_among_incl; [apply emits_deletePorts|kinds_incl]|].
    intros [errd|]; apply emits_ret. }
  apply emits_bind; [apply emits_call; intros; among_side|].
  intros [flavorID|e]; [|apply emits_ret].
  destruct (inst_SecurityGroups i) as [securityGroups|]; [|apply emits_panic].
  apply emits_bind; [apply emits_call; intros; among_side|].
  intros [server|e].
  - apply emits_bind.
    + apply emits_pollLoop.
      eapply emits_among_incl; [apply emits_createInstance_condition|kinds_incl].
    + intros [instance [e|]]; apply emits_ret.
  - apply emits_bind; [eapply emits_among_incl; [apply emits_deletePorts|kinds_incl]|].
    intros [errd|]; apply emits_ret.
Qed.

Lemma fatal_pollLoop {C} Q (n : nat) (condition : M W (C * bool * option error)) :
  observes (fatal Q) condition → observes (fatal Q) (pollLoop n condition).
Proof.
  intros Hc. induction n as [|n IH]; simpl;
    (apply fatal_bind; [done|]); intros [[c d] err]; fatal_walk ltac:(assumption).
Qed.

(** Events of the listed kinds are never fatal when [Q] holds for none of
    them. *)
Lemma fatal_among {A} Q (ks : list Kind) (m : M W A) :
  emits (among ks) m → (∀ ev, among ks ev → ¬ Q ev) → observes (fatal Q) m.
Proof. intros Hm HQ. apply fatal_emits. by eapply emits_weaken. Qed.

Ltac not_lookup :=
  let ev := fresh "ev" in
  let H := fresh "H" in
  intros ev H; unfold among in H; destruct ev; simpl in H;
  first [ exfalso; intuition discriminate
        | intros (? & ? & _); discriminate
        | intros (? & ? & ? & _); discriminate
        | intros (? & ?); discriminate ].

Lemma createInstance_networks_unsubnetted nets clusterName i networkList :
  ∀ accessIPv4 portsList,
    (∀ n, In n networkList → In n nets) →
    observes (fatal (unsubnetted_lookup nets))
      (createInstance_networks env clusterName i networkList accessIPv4 portsList).
Proof.
  induction networkList as [|network rest IH]; intros accessIPv4 portsList Hsub;
    cbn [createInstance_networks]; [apply fatal_ret|].
  destruct (net_ID network =? "")%string; [apply fatal_ret|].
  apply fatal_call_bind.
  - intros r (opts & Heq & Hnil) s. injection Heq as <- ->.
    specialize (Hnil network (Hsub network (or_introl eq_refl)) eq_refl).
    unfold createPort. by rewrite Hnil.
  - intros [portList|e|e]; [|apply fatal_ret..].
    apply fatal_bind.
    + destruct portList; [|apply fatal_ret].
      eapply fatal_among.
      * unfold createPort. instantiate (1 := [KPortsCreate]). emits_walk among_side.
      * not_lookup.
    + intros [port [e|]]; [apply fatal_ret|].
      apply fatal_bind.
      * destruct (inst_Trunk i); [|apply fatal_ret].
        eapply fatal_among; [apply emits_createInstance_trunk|].
        not_lookup.
      * intros [e|]; [apply fatal_ret|]. apply IH.
        intros n Hn. apply Hsub. by right.
Qed.

Lemma createInstance_condition_not_found id :
  observes (fatal (lookup_not_found env)) (createInstance_condition env id).
Proof.
  unfold createInstance_condition, GetInstance.
  destruct (id =? "")%string.
  { apply fatal_bind; [apply fatal_ret|]. intros x. fatal_walk ltac:(assumption). }
  intros s. unfold bind, call.
  destruct (servers_Get env id (world s)) as [[server|e] w1].
  - exists [EvServersGet id (Ok server)].
    split.
    { destruct (serverToInstance env (Some server)) as [[inst|] [e|]]; simpl;
        try destruct (IsRetryable env _); done. }
    intros ev [<-|[]] (id' & e' & Heq & _). discriminate.
  - exists [EvServersGet id (Err e)].
    destruct (IsNotFound env e) eqn:Hnf; simpl.
    + split; [done|]. intros ev [<-|[]] _. split; [done|]. by exists [].
    + destruct (IsRetryable env _); simpl; (split; [done|]);
        intros ev [<-|[]] (id' & e' & [= _ <-] & He'); congruence.
Qed.

(** createInstance, for a property that none of its calls outside the loop
    over the networks and the poll can have. *)
Lemma createInstance_fatal Q clusterName i :
  (∀ ev, among [KImagesList; KPortsGet; KPortsDelete; KFlavorIDFromName;
                KServersCreate] ev → ¬ Q ev) →
  (∀ networkList accessIPv4 portsList,
     inst_Networks i = Some networkList →
     observes (fatal Q)
       (createInstance_networks env clusterName i networkList accessIPv4 portsList)) →
  (∀ id, observes (fatal Q) (createInstance_condition env id)) →
  observes (fatal Q) (createInstance env clusterName i).
Proof.
  intros HQ Hloop Hcond. unfold createInstance.
  assert (Hside : ∀ A (m : M W A) ks,
             emits (among ks) m →
             (∀ k, In k ks → In k [KImagesList; KPortsGet; KPortsDelete;
                                   KFlavorIDFromName; KServersCreate]) →
             observes (fatal Q) m).
  { intros A m ks Hm Hincl. eapply fatal_among; [exact Hm|].
    intros ev Hev. apply HQ. by apply Hincl. }
  apply fatal_bind; [eapply Hside; [apply emits_getImageID|kinds_incl]|].
  intros [imageID [e|]]; [apply fatal_ret|].
  destruct (inst_Networks i) as [networkList|]; [|apply fatal_panic].
  apply fatal_bind; [by apply Hloop|].
  intros [[accessIPv4 portsList]|e]; [|apply fatal_ret].
  destruct (negb (inst_Subnet i =? "")%string && (accessIPv4 =? "")%string).
  { apply fatal_bind; [eapply Hside; [apply emits_deletePorts|kinds_incl]|].
    intros [errd|]; apply fatal_ret. }
  apply fatal_bind.
  { eapply Hside; [apply emits_call; intros r; instantiate (1 := [KFlavorIDFromName]);
                   among_side|kinds_incl]. }
  intros [flavorID|e]; [|apply fatal_ret].
  destruct (inst_SecurityGroups i) as [securityGroups|]; [|apply fatal_panic].
  apply fatal_bind.
  { eapply Hside; [apply emits_call; intros r; instantiate (1 := [KServersCreate]);
                   among_side|kinds_incl]. }
  intros [server|e].
  - apply fatal_bind; [apply fatal_pollLoop, Hcond|].
    intros [instance [e|]]; apply fatal_ret.
  - apply fatal_bind; [eapply Hside; [apply emits_deletePorts|kinds_incl]|].
    intros [errd|]; apply fatal_ret.
Qed.

Lemma createInstance_unsubnetted clusterName i networkList :
  inst_Networks i = Some networkList →
  observes (fatal (unsubnetted_lookup networkList)) (createInstance env clusterName i).
Proof.
  intros Hnets. apply createInstance_fatal.
  - not_lookup.
  - intros networkList' accessIPv4 portsList Hnets'.
    rewrite Hnets in Hnets'. injection Hnets' as <-.
    by apply createInstance_networks_unsubnetted.
  - intros id. eapply fatal_among; [apply emits_createInstance_condition|not_lookup].
Qed.

Lemma createInstance_not_found clusterName i :
  observes (fatal (lookup_not_found env)) (createInstance env clusterName i).
Proof.
  apply createInstance_fatal.
  - not_lookup.
  - intros networkList accessIPv4 portsList _.
    eapply fatal_among; [apply emits_createInstance_networks|not_lookup].
  - apply createInstance_condition_not_found.
Qed.

End Creation.

(** X10.  createInstance panics when the lookup of a port comes back empty
    for a network that the instance lists without a subnet: createPort
    reads the id of the subnet through the nil pointer.  The lookup is the
    last call of the run, so no port was created for the network and no
    server either. *)
Theorem createInstance_panics_without_subnet {W : Type} (env : Env W)
  (clusterName : string) (i : Instance) (s : State W) (networkList : list Network)
  (opts : PortListOpts) :
  let run := createInstance env clusterName i in
  inst_Networks i = Some networkList →
  (∀ n, In n networkList → net_ID n = plo_NetworkID opts → net_Subnet n = None) →
  In (EvPortsList opts (Listed [])) (emitted run s) →
  fst (run s) = Panic
  ∧ ∃ pre, emitted run s = pre ++ [EvPortsList opts (Listed [])].
Proof.
  intros run Hnets Hnil Hin.
  apply (observes_emitted _ _ s (createInstance_unsubnetted env clusterName i _ Hnets)
           _ Hin).
  by exists opts.
Qed.

Lemma createInstance_panics_without_subnet_witness :
  fst (createInstance Fake.env "c1" plainInstance (Fake.start twoNetworks)) = Panic
  ∧ Fake.fw_ports (world (snd (createInstance Fake.env "c1" plainInstance
                                 (Fake.start twoNetworks)))) = [].
Proof.
  destruct (createInstance_panics_without_subnet Fake.env "c1" plainInstance
              (Fake.start twoNetworks) [{| net_ID := "id-a"; net_Subnet := None |}]
              {| plo_Name := "node-0"; plo_NetworkID := "id-a" |})
    as (Hpanic & _).
  - reflexivity.
  - intros n [<-|[]] _. reflexivity.
  - vm_compute. tauto.
  - split; [exact Hpanic|reflexivity].
Defined.

(** X11.  The poll of createInstance panics when a lookup of the created
    server is answered with a not-found error: GetInstance then returns no
    instance and no error, and the condition reads the state of the
    instance through the nil pointer.  The lookup is the last call. *)
Theorem createInstance_poll_not_found {W : Type} (env : Env W)
  (clusterName : string) (i : Instance) (s : State W) (id : string) (e : error) :
  let run := createInstance env clusterName i in
  In (EvServersGet id (Err e)) (emitted run s) →
  IsNotFound env e = true →
  fst (run s) = Panic
  ∧ ∃ pre, emitted run s = pre ++ [EvServersGet id (Err e)].
Proof.
  intros run Hin Hnf.
  apply (observes_emitted _ _ s (createInstance_not_found env clusterName i) _ Hin).
  by exists id, e.
Qed.

Lemma emits_run {W A} (P : Event → Prop) (m : M W A) (s s' : State W) (o : outcome A)
  (evs : list Event) :
  emits P m → m s = (o, s') → trace s' = trace s ++ evs → Forall P evs.
Proof.
  intros Hm Hrun Heq. destruct (Hm s) as (evs' & Heq' & Hall).
  rewrite Hrun in Heq'. simpl in Heq'. rewrite Heq in Heq'.
  apply app_inv_head in Heq'. by subst.
Qed.

Lemma observes_run {W A} (R : list Event → outcome A → Prop) (m : M W A)
  (s s' : State W) (o : outcome A) (evs : list Event) :
  observes R m → m s = (o, s') → trace s' = trace s ++ evs → R evs o.
Proof.
  intros Hm Hrun Heq. destruct (Hm s) as (evs' & Heq' & HR).
  rewrite Hrun in Heq', HR. simpl in Heq', HR. rewrite Heq in Heq'.
  apply app_inv_head in Heq'. by subst.
Qed.

Lemma trace_run {W A} (m : M W A) (s : State W) :
  emits (λ _, True) m →
  ∃ o s' evs, m s = (o, s') ∧ trace s' = trace s ++ evs.
Proof.
  intros Hm. destruct (Hm s) as (evs & Heq & _).
  destruct (m s) as [o s'] eqn:Hrun. by exists o, s', evs.
Qed.

Lemma observes_intro {W A} (R : list Event → outcome A → Prop) (m : M W A) :
  (∀ s, ∃ o s' evs, m s = (o, s') ∧ trace s' = trace s ++ evs ∧ R evs o) →
  observes R m.
Proof.
  intros Hm s. destruct (Hm s) as (o & s' & evs & Hrun & Heq & HR).
  exists evs. by rewrite Hrun.
Qed.

Lemma observes_prefix {W A B} (P : Event → Prop) (R : list Event → outcome B → Prop)
  (m : M W A) (k : A → M W B) :
  emits P m →
  (∀ a, observes R (k a)) →
  (∀ e1, Forall P e1 → R e1 Panic) →
  (∀ e1 e2 o, Forall P e1 → R e2 o → R (e1 ++ e2) o) →
  observes R (bind m k).
Proof.
  intros Hm Hk Hpanic Hseq.
  apply (observes_bind (λ evs _, Forall P evs) (λ _, R));
    [by apply emits_observes|done|done|].
  intros e1 a e2 o. apply Hseq.
Qed.

Section Outcome.

Context {W : Type} (env : Env W).

(** A poll that reports no error ended with an evaluation of the condition
    that reported completion. *)
Lemma pollLoop_done {C} (Rc : list Event → outcome (C * bool * option error) → Prop)
  (n : nat) (condition : M W (C * bool * option error)) :
  observes Rc condition →
  observes (λ evs o, ∀ c, o = Val (c, None) →
              ∃ pre last, evs = pre ++ last ∧ Rc last (Val (c, true, None)))
    (pollLoop n condition).
Proof.
  intros Hc. induction n as [|n IH]; intros s; simpl; unfold bind;
    destruct (Hc s) as (e1 & Heq1 & H1);
    destruct (condition s) as [[[[c d] [e|]]|] s1]; simpl in *;
    try (exists e1; split; [done|]; intros c' [=]).
  - destruct d; simpl.
    + exists e1. split; [done|]. intros c' [= <-]. by exists [], e1.
    + exists e1. split; [done|]. intros c' [=].
  - destruct d; simpl.
    + exists e1. split; [done|]. intros c' [= <-]. by exists [], e1.
    + destruct (IH s1) as (e2 & Heq2 & H2). exists (e1 ++ e2).
      rewrite Heq2, Heq1, app_assoc. split; [done|].
      intros c' Hc'. destruct (H2 c' Hc') as (pre & last & -> & Hlast).
      exists (e1 ++ pre), last. by rewrite app_assoc.
Qed.

Lemma createInstance_condition_done id :
  observes (λ (evs : list Event) (o : outcome (option Instance * bool * option error)),
              ∀ instance, o = Val (instance, true, None) →
                ∃ inst server,
                  instance = Some inst
                  ∧ evs = [EvServersGet id (Ok server)]
                  ∧ serverToInstance env (Some server) = (Some inst, None)
                  ∧ srv_Status server = InstanceStateActive)
    (createInstance_condition env id).
Proof.
  intros s. unfold createInstance_condition, GetInstance.
  destruct (id =? "")%string.
  { exists []. rewrite app_nil_r. unfold bind, ret. simpl.
    destruct (IsRetryable env _); simpl; (split; [done|]); intros instance [=]. }
  unfold bind, call.
  destruct (servers_Get env id (world s)) as [[server|e] w1].
  - exists [EvServersGet id (Ok server)].
    destruct (serverToInstance_error env server) as (inst & Hinst & Herr).
    assert (Hstate : inst_State inst = srv_Status server).
    { unfold serverToInstance in Hinst.
      destruct (GetIPFromInstance env server); simpl in Hinst; by injection Hinst as <-. }
    destruct (serverToInstance env (Some server)) as [inst' err] eqn:Hconv.
    simpl in Hinst, Herr. subst inst'.
    destruct (GetIPFromInstance env server) as [addrMap|e]; subst err; simpl.
    + split; [done|]. intros instance [= <- Hactive]. exists inst, server.
      repeat split; try done. rewrite <- Hstate.
      by apply String.eqb_eq.
    + destruct (IsRetryable env e); simpl; (split; [done|]); intros instance [=].
  - exists [EvServersGet id (Err e)].
    destruct (IsNotFound env e); simpl; [split; [done|]; intros instance [=]|].
    destruct (IsRetryable env _); simpl; (split; [done|]); intros instance [=].
Qed.

Lemma created_pollLoop (n : nat) (made : Server) :
  observes (λ evs o, ∀ instance, o = Val (instance, None) →
              ∃ inst polls server,
                instance = Some inst
                ∧ evs = polls ++ [EvServersGet (srv_ID made) (Ok server)]
                ∧ serverToInstance env (Some server) = (Some inst, None)
                ∧ srv_Status server = InstanceStateActive)
    (pollLoop n (createInstance_condition env (srv_ID made))).
Proof.
  eapply observes_weaken;
    [apply pollLoop_done, createInstance_condition_done|].
  intros evs o H instance Ho.
  destruct (H instance Ho) as (pre & last & -> & Hlast).
  destruct (Hlast instance eq_refl) as (inst & server & -> & -> & Hconv & Hact).
  by exists inst, pre, server.
Qed.

Lemma port_cleaned_deletes (cleaned : list ServerNetwork) (chunks : list (list Event))
  (id : string) (e : error) :
  Forall2 (port_cleaned env) cleaned chunks →
  ¬ In (EvPortsDelete id (Some e)) (concat chunks).
Proof.
  induction 1 as [|n chunk cleaned chunks (r & -> & Hr) _ IH]; simpl; [tauto|].
  intros [Hin|[Hin|Hin]]; [discriminate|discriminate|by apply IH].
Qed.

(** The cleanup of the ports: its calls, and what its result says about
    the deletes. *)
Lemma deletePorts_result (nets : list ServerNetwork) (s : State W) :
  ∃ err s' evs,
    deletePorts env nets s = (Val err, s')
    ∧ trace s' = trace s ++ evs
    ∧ Forall (among [KPortsGet; KPortsDelete]) evs
    ∧ (err = None → ∀ id e, ¬ In (EvPortsDelete id (Some e)) evs)
    ∧ (∀ e, err = Some e → ∃ id, In (EvPortsDelete id (Some e)) evs).
Proof.
  destruct (deletePorts_run env nets s)
    as (err & s' & evs & cleaned & chunks & Hrun & Heq & Hcl & Hcase).
  exists err, s', evs. split; [done|]. split; [done|].
  split; [by eapply emits_run; [apply emits_deletePorts|..]|].
  pose proof (port_cleaned_deletes cleaned chunks) as Hnone.
  destruct Hcase as [(-> & -> & ->)|[(n & rest & e' & -> & -> & He & ->)
                                    |(n & rest & r & e' & -> & -> & He & ->)]].
  - split; [|done]. intros _ id e. by apply Hnone.
  - split; [|done]. intros _ id e Hin. apply in_app_or in Hin.
    destruct Hin as [Hin|[Hin|[]]]; [by apply Hnone in Hin|discriminate].
  - split; [done|]. intros e [= <-]. exists (sn_Port n).
    apply in_or_app. right. right. by left.
Qed.

Lemma createInstance_outcome clusterName i :
  observes (λ evs o, created env evs o ∧ create_failed evs o)
    (createInstance env clusterName i).
Proof.
  unfold createInstance.
  set (R := λ (evs : list Event) (o : outcome (option Instance * option error)),
              created env evs o ∧ create_failed evs o).
  set (P := λ ev : Event, kind ev ≠ KServersCreate).
  assert (Hfree : ∀ l req r, Forall P l → ¬ In (EvServersCreate req r) l).
  { intros l req r Hall Hin. rewrite Forall_forall in Hall.
    by apply (Hall _ (proj2 (list_elem_of_In _ _) Hin)). }
  assert (Hpanic : ∀ e1, Forall P e1 → R e1 Panic).
  { intros e1 Hall. split; [by intros x|]. intros req e Hin. by apply Hfree in Hin. }
  assert (Hseq : ∀ e1 e2 o, Forall P e1 → R e2 o → R (e1 ++ e2) o).
  { intros e1 e2 o Hall [Hc Hf]. split.
    - intros x Hx.
      destruct (Hc x Hx)
        as (inst & pre & req & made & polls & server & -> & -> & Hpolls & Hconv & Hact).
      exists inst, (e1 ++ pre), req, made, polls, server.
      rewrite <- app_assoc. by repeat split.
    - intros req e Hin. apply in_app_or in Hin.
      destruct Hin as [Hin|Hin]; [by apply Hfree in Hin|].
      destruct (Hf req e Hin) as (pre & post & x & -> & Hpost & -> & Hx).
      exists (e1 ++ pre), post, x. rewrite <- app_assoc. by repeat split. }
  assert (Hret : ∀ e, observes R (ret (None, Some e) : M W _)).
  { intros e. apply observes_ret. split; [by intros x [=]|by intros req e0 []]. }
  assert (Hside : ∀ A (m : M W A) ks,
             emits (among ks) m → (∀ k, In k ks → k ≠ KServersCreate) → emits P m).
  { intros A m ks Hm Hks. eapply emits_weaken; [exact Hm|]. intros ev. apply Hks. }
  assert (Hks : ∀ ks : list Kind,
             forallb (λ k, match k with KServersCreate => false | _ => true end) ks = true →
             ∀ k, In k ks → k ≠ KServersCreate).
  { intros ks Hall k Hin ->. rewrite forallb_forall in Hall. by apply Hall in Hin. }
  apply (observes_prefix P); [|intros [imageID [e|]]|done|done].
  { eapply Hside; [apply emits_getImageID|by apply Hks]. }
  { apply Hret. }
  destruct (inst_Networks i) as [networkList|]; [|apply observes_panic, Hpanic; constructor].
  apply (observes_prefix P); [|intros [[accessIPv4 portsList]|e]|done|done].
  { eapply Hside; [apply emits_createInstance_networks|by apply Hks]. }
  2: apply Hret.
  destruct (negb (inst_Subnet i =? "")%string && (accessIPv4 =? "")%string).
  { apply (observes_prefix P); [|intros [errd|]; apply Hret|done|done].
    eapply Hside; [apply emits_deletePorts|by apply Hks]. }
  apply (observes_prefix P); [|intros [flavorID|e]|done|done].
  { apply emits_call. by intros r. }
  2: apply Hret.
  destruct (inst_SecurityGroups i) as [securityGroups|];
    [|apply observes_panic, Hpanic; constructor].
  apply observes_intro. intros s.
  match goal with |- context [servers_Create env ?r] => set (req := r) end.
  clearbody req. unfold bind at 1. unfold call at 1.
  destruct (servers_Create env req (world s)) as [[made|e] w1].
  - set (ev0 := EvServersCreate req (Ok made)).
    set (s1 := {| world := w1; trace := trace s ++ [ev0]; notices := notices s |}).
    unfold PollImmediate.
    generalize (pollBudget env RetryIntervalInstanceStatus
                  (wrap64 (getTimeout env "CLUSTER_API_OPENSTACK_INSTANCE_CREATE_TIMEOUT"
                             TimeoutInstanceCreate * Minute))).
    intros n.
    destruct (created_pollLoop n made s1) as (e2 & Heq2 & H2).
    unfold bind.
    destruct (pollLoop n (createInstance_condition env (srv_ID made)) s1)
      as [o2 s2] eqn:Hpoll.
    cbn [fst snd] in Heq2, H2.
    assert (Hgets : Forall (among [KServersGet]) e2).
    { eapply emits_run; [|exact Hpoll|exact Heq2].
      apply emits_pollLoop, emits_createInstance_condition. }
    assert (Hnocreate : ∀ req' r', ¬ In (EvServersCreate req' r') e2).
    { intros req' r' Hin. rewrite Forall_forall in Hgets.
      specialize (Hgets _ (proj2 (list_elem_of_In _ _) Hin)).
      unfold among in Hgets. simpl in Hgets. intuition discriminate. }
    assert (Htrace : trace s2 = trace s ++ ev0 :: e2).
    { rewrite Heq2. subst s1. simpl. by rewrite <- app_assoc. }
    assert (Hnofail : ∀ o, create_failed (ev0 :: e2) o).
    { intros o req' e' [Hin|Hin]; [discriminate|by apply Hnocreate in Hin]. }
    destruct o2 as [[instance [e|]]|].
    + eexists _, s2, (ev0 :: e2). split; [reflexivity|]. split; [done|].
      split; [by intros x [=]|apply Hnofail].
    + eexists _, s2, (ev0 :: e2). split; [reflexivity|]. split; [done|].
      split; [|apply Hnofail].
      intros x [= <-].
      destruct (H2 instance eq_refl) as (inst & polls & server & -> & -> & Hconv & Hact).
      exists inst, [], req, made, polls, server. repeat split; try done.
      by apply Forall_app in Hgets as [? _].
    + eexists _, s2, (ev0 :: e2). split; [reflexivity|]. split; [done|].
      split; [by intros x [=]|apply Hnofail].
  - set (ev0 := EvServersCreate req (Err e)).
    set (s1 := {| world := w1; trace := trace s ++ [ev0]; notices := notices s |}).
    match goal with |- context [deletePorts env ?l] => set (portsList' := l) end.
    destruct (deletePorts_result portsList' s1)
      as (err & s2 & e2 & Hrun & Heq2 & Hkinds & Hnone & Hsome).
    assert (Hnocreate : ∀ req' r', ¬ In (EvServersCreate req' r') e2).
    { intros req' r' Hin. rewrite Forall_forall in Hkinds.
      specialize (Hkinds _ (proj2 (list_elem_of_In _ _) Hin)).
      unfold among in Hkinds. simpl in Hkinds. intuition discriminate. }
    assert (Htrace : trace s2 = trace s ++ ev0 :: e2).
    { rewrite Heq2. subst s1. simpl. by rewrite <- app_assoc. }
    unfold bind. rewrite Hrun.
    destruct err as [errd|].
    + eexists _, s2, (ev0 :: e2). split; [reflexivity|]. split; [done|].
      split; [by intros x [=]|].
      intros req' e' [Hin|Hin]; [|by apply Hnocreate in Hin].
      injection Hin as <- <-. eexists [], e2, _.
      split; [done|]. split; [done|]. split; [reflexivity|].
      right. destruct (Hsome errd eq_refl) as (id & Hin). by exists errd, id.
    + eexists _, s2, (ev0 :: e2). split; [reflexivity|]. split; [done|].
      split; [by intros x [=]|].
      intros req' e' [Hin|Hin]; [|by apply Hnocreate in Hin].
      injection Hin as <- <-. eexists [], e2, _.
      split; [done|]. split; [done|]. split; [reflexivity|].
      left. split; [done|]. by apply Hnone.
Qed.

End Outcome.

Lemma createInstance_poll_not_found_witness :
  let run := createInstance laggingEnv "c1" readyInstance in
  fst (run (Fake.start twoNetworks)) = Panic
  ∧ map srv_ID (Fake.fw_servers (world (snd (run (Fake.start twoNetworks)))))
    = ["port-2"].
Proof.
  intros run.
  destruct (createInstance_poll_not_found laggingEnv "c1" readyInstance
              (Fake.start twoNetworks) "port-2" (Fake.notFound "server"))
    as (Hpanic & _).
  - vm_compute. tauto.
  - reflexivity.
  - split; [exact Hpanic|reflexivity].
Defined.

(** X12.  When createInstance returns no error, it returns an instance:
    the server was created, its lookups followed, and the last of them
    returned the server in the state ACTIVE.  The instance is the
    conversion of that answer, so it is active and has the id and the name
    that the lookup reported, and it carries none of the networks, security
    groups, tags, image or flavor of the request. *)
Theorem createInstance_success {W : Type} (env : Env W) (clusterName : string)
  (i : Instance) (s : State W) (x : option Instance) :
  let run := createInstance env clusterName i in
  fst (run s) = Val (x, None) →
  ∃ inst pre req made polls server,
    x = Some inst
    ∧ emitted run s = pre ++ EvServersCreate req (Ok made) :: polls
                          ++ [EvServersGet (srv_ID made) (Ok server)]
    ∧ Forall (among [KServersGet]) polls
    ∧ inst_State inst = InstanceStateActive
    ∧ inst_ID inst = srv_ID server ∧ inst_Name inst = srv_Name server
    ∧ inst_Networks inst = None ∧ inst_SecurityGroups inst = None
    ∧ inst_Tags inst = [] ∧ inst_Image inst = "" ∧ inst_Flavor inst = "".
Proof.
  intros run Hres.
  destruct (observes_emitted _ _ s (createInstance_outcome env clusterName i))
    as [Hcreated _].
  destruct (Hcreated x Hres)
    as (inst & pre & req & made & polls & server & -> & Hevs & Hpolls & Hconv & Hact).
  exists inst, pre, req, made, polls, server.
  split; [done|]. split; [exact Hevs|]. split; [done|].
  unfold serverToInstance in Hconv.
  destruct (GetIPFromInstance env server); [|done].
  injection Hconv as <-. by repeat split.
Qed.

Lemma createInstance_success_witness :
  ∃ inst, fst (createInstance Fake.env "c1" readyInstance (Fake.start twoNetworks))
          = Val (Some inst, None)
          ∧ inst_State inst = "ACTIVE" ∧ inst_Tags inst = [].
Proof.
  destruct (createInstance_success Fake.env "c1" readyInstance (Fake.start twoNetworks)
              (Some {| inst_ID := "port-2"; inst_Name := "node-0"; inst_Trunk := false;
                       inst_FailureDomain := ""; inst_SecurityGroups := None;
                       inst_Networks := None; inst_Subnet := ""; inst_Tags := [];
                       inst_Image := ""; inst_Flavor := ""; inst_SSHKeyName := "";
                       inst_UserData := ""; inst_Metadata := ∅; inst_ConfigDrive := None;
                       inst_RootVolume := None; inst_ServerGroupID := "";
                       inst_State := "ACTIVE"; inst_IP := "192.0.2.20";
                       inst_FloatingIP := "" |}))
    as (inst & pre & req & made & polls & server & Hx & _ & _ & Hstate & _ & _ & _ & _
        & Htags & _).
  - reflexivity.
  - exists inst. injection Hx as <-. repeat split; reflexivity.
Defined.

(** X13.  When the creation of the server fails, createInstance goes on
    with the cleanup of the ports and nothing else, it never polls, and it
    returns an error: the error of the creation, wrapped, when no delete
    of the cleanup failed, and otherwise the error of the failed delete,
    wrapped, in place of the error of the creation. *)
Theorem createInstance_create_failure {W : Type} (env : Env W) (clusterName : string)
  (i : Instance) (s : State W) (req : CreateOptsBuilder) (e : error) :
  let run := createInstance env clusterName i in
  In (EvServersCreate req (Err e)) (emitted run s) →
  ∃ pre post x,
    emitted run s = pre ++ EvServersCreate req (Err e) :: post
    ∧ Forall (among [KPortsGet; KPortsDelete]) post
    ∧ fst (run s) = Val (None, Some x)
    ∧ ((x = Errorf "error creating Openstack instance: %v" [ArgE e]
        ∧ ∀ id errd, ¬ In (EvPortsDelete id (Some errd)) post)
       ∨ ∃ errd id,
           In (EvPortsDelete id (Some errd)) post
           ∧ x = Errorf "error recover creating Openstack instance: error cleaning up ports: %v"
                   [ArgE errd]).
Proof.
  intros run Hin.
  destruct (observes_emitted _ _ s (createInstance_outcome env clusterName i))
    as [_ Hfailed].
  exact (Hfailed req e Hin).
Qed.

Lemma createInstance_create_failure_witness :
  let run := createInstance quotaEnv "c1" readyInstance in
  (∃ x, fst (run (Fake.start twoNetworks)) = Val (None, Some x))
  ∧ Fake.fw_ports (world (snd (run (Fake.start twoNetworks)))) = [].
Proof.
  intros run.
  destruct (createInstance_create_failure quotaEnv "c1" readyInstance
              (Fake.start twoNetworks)
              (KeypairExt
                 (BaseOpts {| co_Name := "node-0"; co_ImageRef := "";
                              co_FlavorRef := "flv-1"; co_AvailabilityZone := "az1";
                              co_Networks := [{| sn_Port := "port-1" |}];
                              co_UserData := ""; co_SecurityGroups := ["sg-1"];
                              co_Tags := ["a"]; co_Metadata := ∅;
                              co_ConfigDrive := None;
                              co_AccessIPv4 := "192.0.2.20" |}) "key")
              (BackendErr 403 "quota exceeded"))
    as (pre & post & x & _ & _ & Hres & _).
  - vm_compute. tauto.
  - split; [by exists x|reflexivity].
Defined.

Section Silent.

Context {W : Type}.

Lemma silent_ret {A} (a : A) : silent (ret a : M W A).
Proof. by intros s. Qed.

Lemma silent_panic {A} : silent (@panic W A).
Proof. by intros s. Qed.

Lemma silent_call {X} (op : W → X * W) (ev : X → Event) : silent (call op ev).
Proof. intros s. unfold call. by destruct (op (world s)). Qed.

Lemma silent_bind {A B} (m : M W A) (k : A → M W B) :
  silent m → (∀ a, silent (k a)) → silent (bind m k).
Proof.
  intros Hm Hk s. unfold bind. specialize (Hm s).
  destruct (m s) as [[a|] s1]; simpl in *; [|done]. by rewrite Hk.
Qed.

End Silent.

Ltac silent_walk :=
  repeat first
    [ apply silent_ret
    | apply silent_panic
    | apply silent_call
    | apply silent_bind; [|intros ?]
    | assumption
    | match goal with
      | |- silent (match ?x with _ => _ end) => destruct x
      | |- silent (if ?x then _ else _) => destruct x
      end ].

Section Deletion.

Context {W : Type} (env : Env W).

Lemma silent_pollLoop {C} (n : nat) (condition : M W (C * bool * option error)) :
  silent condition → silent (pollLoop n condition).
Proof.
  intros Hc. induction n as [|n IH]; simpl;
    (apply silent_bind; [done|]); intros [[c d] err]; silent_walk.
Qed.

Lemma silent_GetInstance id : silent (GetInstance env id).
Proof. unfold GetInstance. silent_walk. Qed.

Lemma silent_getTrunkSupport : silent (getTrunkSupport env).
Proof. unfold getTrunkSupport. silent_walk. Qed.

Lemma silent_deleteInstance_interfaces serverID trunkSupport ports :
  silent (deleteInstance_interfaces env serverID trunkSupport ports).
Proof.
  induction ports as [|port rest IH]; simpl; [apply silent_ret|].
  unfold deleteInstance_trunk, PollImmediate, deleteCondition, deleteTrunk, deletePort.
  repeat first
    [ apply silent_ret | apply silent_call | apply silent_bind; [|intros ?]
    | assumption
    | apply silent_pollLoop
    | match goal with
      | |- silent (match ?x with _ => _ end) => destruct x
      | |- silent (if ?x then _ else _) => destruct x
      end ].
Qed.

Lemma silent_deleteInstance serverID : silent (deleteInstance env serverID).
Proof.
  unfold deleteInstance.
  repeat first
    [ apply silent_ret | apply silent_call | apply silent_bind; [|intros ?]
    | apply silent_getTrunkSupport
    | apply silent_deleteInstance_interfaces
    | match goal with
      | |- silent (match ?x with _ => _ end) => destruct x
      | |- silent (if ?x then _ else _) => destruct x
      end ].
Qed.

(** GetInstance never panics, and its errors are formatted ones. *)
Lemma GetInstance_run id s :
  ∃ instance err s',
    GetInstance env id s = (Val (instance, err), s')
    ∧ ∀ e, err = Some e → formatted e.
Proof.
  unfold GetInstance. destruct (id =? "")%string.
  { eexists _, _, _. split; [reflexivity|]. intros e [= <-]. by eexists _, _. }
  unfold bind, call. destruct (servers_Get env id (world s)) as [[server|e] w1].
  - destruct (serverToInstance_error env server) as (i & Hi & Herr).
    pose proof (GetIPFromInstance_formatted env server) as Hfmt.
    destruct (serverToInstance env (Some server)) as [i' err'].
    simpl in Hi, Herr. destruct (GetIPFromInstance env server) as [addrMap|e]; subst err'.
    + eexists _, _, _. split; [reflexivity|]. done.
    + eexists _, _, _. split; [reflexivity|]. intros e0 [= <-]. by apply Hfmt.
  - destruct (IsNotFound env e).
    + eexists _, _, _. split; [reflexivity|]. done.
    + eexists _, _, _. split; [reflexivity|]. intros e0 [= <-]. by eexists _, _.
Qed.

(** A poll whose condition never reports completion ends with an error. *)
Lemma pollLoop_never_done {C} (n : nat) (condition : M W (C * bool * option error)) :
  (∀ s, ∃ c r s', condition s = (Val (c, false, r), s')) →
  ∀ s, ∃ c e s', pollLoop n condition s = (Val (c, Some e), s').
Proof.
  intros Hc. induction n as [|n IH]; intros s; simpl; unfold bind;
    destruct (Hc s) as (c & [e|] & s1 & ->); simpl; try by eexists _, _, _.
  apply IH.
Qed.

Lemma InstanceDelete_condition_never_done id :
  (∀ format args, IsNotFound env (Errorf format args) = false) →
  ∀ s, ∃ c r s', InstanceDelete_condition env id s = (Val (c, false, r), s').
Proof.
  intros Hnf s. unfold InstanceDelete_condition, bind.
  destruct (GetInstance_run id s) as (instance & err & s1 & -> & Hfmt).
  destruct err as [e|]; simpl; [|by eexists _, _, _].
  destruct (Hfmt e eq_refl) as (format & args & ->). rewrite Hnf.
  by eexists _, _, _.
Qed.

End Deletion.

Lemma silent_InstanceDelete_condition {W} (env : Env W) id :
  silent (InstanceDelete_condition env id).
Proof.
  unfold InstanceDelete_condition. apply silent_bind; [apply silent_GetInstance|].
  intros x. silent_walk.
Qed.

(** X14.  InstanceDelete never reports success for a machine that has a
    provider id, as long as the classification does not take a formatted
    error for a not-found error.  GetInstance turns the not-found answer
    into no instance and no error, and its own errors are formatted, so the
    condition of the final poll never reports completion: the poll runs
    into its timeout or an error.  So also when the teardown went through
    and the server delete was accepted, the result is an error, the one
    that wraps the outcome of the poll; and what is recorded is a warning,
    never the notification of success. *)
Theorem InstanceDelete_never_succeeds {W : Type} (env : Env W) (machine : Machine)
  (openStackMachine : OpenStackMachine) (s : State W) (providerID : string) :
  let run := InstanceDelete env machine openStackMachine in
  (∀ format args, IsNotFound env (Errorf format args) = false) →
  ms_ProviderID (m_Spec machine) = Some providerID →
  ∃ err, fst (run s) = Val (Some err)
    ∧ match NewProviderID env providerID with
      | Err e => err = e ∧ emitted run s = [] ∧ notices (snd (run s)) = notices s
      | Ok id =>
          (In (EvServersDelete id None) (emitted run s) →
           ∃ e, err = Errorf "error deleting Openstack instance %s, %v"
                        [ArgS id; ArgE e])
          ∧ ∃ e, notices (snd (run s))
                 = notices s ++ [Warnf "FailedDeleteServer"
                                   "Failed to deleted server %s with id %s: %v"
                                   [ArgS (osm_Name openStackMachine); ArgS id; ArgE e]]
      end.
Proof.
  intros run Hnf Hpid. subst run. unfold emitted, InstanceDelete. rewrite Hpid.
  destruct (NewProviderID env providerID) as [id|e].
  2:{ exists e. simpl. by rewrite drop_all. }
  unfold bind.
  destruct (deleteInstance_run env id s) as (err & s1 & evs & Hrun & Heq & Hissued & Hshape).
  pose proof (silent_deleteInstance env id s) as Hsilent.
  rewrite Hrun in Hsilent |- *. simpl in Hsilent.
  destruct err as [e|].
  - exists e. simpl. rewrite Heq, drop_app_length, Hsilent.
    split; [done|]. split; [|by exists e].
    intros Hin. by destruct (Hshape None Hin).
  - unfold PollImmediate.
    destruct (pollLoop_never_done (pollBudget env RetryIntervalInstanceStatus
                                         TimeoutInstanceDelete)
                (InstanceDelete_condition env id)
                (InstanceDelete_condition_never_done env id Hnf) s1)
      as (c & e & s2 & Hpoll).
    pose proof (silent_pollLoop (pollBudget env RetryIntervalInstanceStatus
                                       TimeoutInstanceDelete)
                  (InstanceDelete_condition env id)
                  (silent_InstanceDelete_condition env id) s1) as Hsilent2.
    rewrite Hpoll in Hsilent2 |- *. simpl in Hsilent2 |- *.
    eexists. split; [reflexivity|]. split; [by eexists|].
    exists e. by rewrite Hsilent2, Hsilent.
Qed.

Lemma InstanceDelete_never_succeeds_witness :
  let run := InstanceDelete Fake.env (runningMachine "srv-2")
               {| osm_Name := "node-2"; osm_Spec := sampleMachineSpec |} in
  fst (run (Fake.start twoServers))
  = Val (Some (Errorf "error deleting Openstack instance %s, %v"
                 [ArgS "srv-2"; ArgE ErrWaitTimeout]))
  ∧ map srv_ID (Fake.fw_servers (world (snd (run (Fake.start twoServers)))))
    = ["srv-10"].
Proof.
  intros run.
  destruct (InstanceDelete_never_succeeds Fake.env (runningMachine "srv-2")
              {| osm_Name := "node-2"; osm_Spec := sampleMachineSpec |}
              (Fake.start twoServers) "openstack:///srv-2")
    as (err & Hres & Hfail & _).
  - reflexivity.
  - reflexivity.
  - split; [|reflexivity].
    assert (Herr : Errorf "error deleting Openstack instance %s, %v"
                     [ArgS "srv-2"; ArgE ErrWaitTimeout] = err).
    { vm_compute in Hres. by injection Hres. }
    rewrite Herr. exact Hres.
Defined.

Lemma total_notify {W} P n : total P (@notify W n).
Proof. intros s. exists tt, []. simpl. by rewrite app_nil_r. Qed.

Lemma total_weaken {W A} (P P' : Event → Prop) (m : M W A) :
  total P m → (∀ ev, P ev → P' ev) → total P' m.
Proof.
  intros Hm HP s. destruct (Hm s) as (a & evs & Hval & Heq & Hall).
  exists a, evs. repeat split; try done. eapply Forall_impl; eauto.
Qed.

Lemma hasTrunkAlias_true (allExts : list Extension) :
  hasTrunkAlias allExts = true ↔ ∃ ext, In ext allExts ∧ ext_Alias ext = "trunk".
Proof.
  induction allExts as [|ext rest IH]; simpl.
  - split; [done|]. by intros (ext & [] & _).
  - destruct (String.eqb_spec (ext_Alias ext) "trunk") as [Heq|Hne].
    + split; [|done]. intros _. exists ext. split; [by left|done].
    + rewrite IH. split.
      * intros (ext' & Hin & Halias). exists ext'. split; [by right|done].
      * intros (ext' & [<-|Hin] & Halias); [done|]. by exists ext'.
Qed.

Section Calls.

Context {W : Type} (env : Env W).

Lemma total_pollLoop {C} P (n : nat) (condition : M W (C * bool * option error)) :
  total P condition → total P (pollLoop n condition).
Proof.
  intros Hc. induction n as [|n IH]; simpl;
    (apply total_bind; [done|]); intros [[c d] err]; total_walk ltac:(assumption).
Qed.

Lemma total_GetInstance id : total (among [KServersGet]) (GetInstance env id).
Proof. unfold GetInstance. total_walk among_side. Qed.

Lemma total_deleteInstance_interfaces serverID trunkSupport ports :
  total (among teardown_kinds)
        (deleteInstance_interfaces env serverID trunkSupport ports).
Proof.
  intros s.
  destruct (deleteInstance_interfaces_events env serverID trunkSupport ports s)
    as (err & s' & evs & Hrun & Heq & Hall & _).
  exists err, evs. by rewrite Hrun.
Qed.

Lemma total_deleteInstance serverID :
  total (among deletion_kinds) (deleteInstance env serverID).
Proof.
  unfold deleteInstance.
  apply total_bind; [apply total_call; intros; among_side|].
  intros [instanceInterfaces|e|e]; try apply total_ret.
  destruct (length instanceInterfaces <? 1)%nat; [apply total_call; intros; among_side|].
  apply total_bind.
  { eapply total_weaken; [apply total_getTrunkSupport|].
    intros ev. unfold among, deletion_kinds. simpl. tauto. }
  intros [trunkSupport [e|]]; [apply total_ret|].
  apply total_bind.
  { eapply total_weaken; [apply total_deleteInstance_interfaces|].
    intros ev. unfold among, deletion_kinds, teardown_kinds. simpl. tauto. }
  intros [e|]; [apply total_ret|]. apply total_call; intros; among_side.
Qed.

(** The loop of the teardown without trunk support issues no trunk call. *)
Lemma trunkless_deleteInstance_interfaces serverID ports :
  emits trunkless (deleteInstance_interfaces env serverID false ports).
Proof.
  induction ports as [|port rest IH]; simpl; [apply emits_ret|].
  apply emits_bind; [apply emits_call; intros r; unfold trunkless; simpl; intuition discriminate|].
  intros [e|]; [apply emits_ret|].
  apply emits_bind; [apply emits_ret|]. intros [e|]; [apply emits_ret|].
  apply emits_bind.
  - apply emits_pollLoop. unfold deleteCondition, deletePort.
    apply emits_bind; [apply emits_call; intros r; unfold trunkless; simpl; intuition discriminate|].
    intros x. emits_walk ltac:(assumption).
  - intros p. destruct (snd p); [apply emits_ret|apply IH].
Qed.

Lemma deleteInstance_trunk_support serverID s :
  ∃ o s' evs,
    deleteInstance env serverID s = (o, s')
    ∧ trace s' = trace s ++ evs
    ∧ ∀ r, In (EvExtensionsList r) evs →
        (∀ exts, r = Listed exts → hasTrunkAlias exts = false →
                 Forall trunkless evs)
        ∧ (∀ e, r = PageErr e ∨ r = ExtractErr e →
             o = Val (Some (Errorf "obtaining network extensions: %v" [ArgE e]))
             ∧ ∃ ports, evs = [EvInterfacesList serverID (Listed ports);
                               EvExtensionsList r]).
Proof.
  unfold deleteInstance.
  pose proof (deleteInstance_interfaces_events env serverID) as Hevents.
  pose proof (trunkless_deleteInstance_interfaces serverID) as Hless.
  revert Hevents Hless.
  generalize (deleteInstance_interfaces env serverID). intros loop Hevents Hless.
  unfold bind at 1, call.
  destruct (attachinterfaces_List env serverID (world s)) as [r0 w1].
  set (ev0 := EvInterfacesList serverID r0).
  set (s1 := {| world := w1; trace := trace s ++ [ev0]; notices := notices s |}).
  destruct r0 as [ports|e|e];
    try (eexists _, _, [ev0]; split; [reflexivity|]; split; [done|];
         intros r [Hin|[]]; discriminate).
  destruct ports as [|port rest]; simpl.
  { destruct (servers_Delete env serverID w1) as [rd w2].
    eexists _, _, [ev0; EvServersDelete serverID rd].
    split; [reflexivity|]. split; [by rewrite <- app_assoc|].
    intros r [Hin|[Hin|[]]]; discriminate. }
  unfold getTrunkSupport, bind, call. simpl.
  destruct (extensions_List env w1) as [x w2].
  set (ev1 := EvExtensionsList x).
  set (s2 := {| world := w2; trace := (trace s ++ [ev0]) ++ [ev1];
                notices := notices s |}).
  destruct x as [exts|e|e]; simpl.
  2,3: eexists _, _, [ev0; ev1]; (split; [reflexivity|]);
       (split; [subst s2; simpl; by rewrite <- app_assoc|]);
       intros r [Hin|[Hin|[]]]; [discriminate|]; injection Hin as <-;
       (split; [intros exts [=]|]);
       intros e' [[= <-]|[= <-]]; (split; [done|]); by exists (port :: rest).
  destruct (Hevents (hasTrunkAlias exts) (port :: rest) s2)
    as (err & s3 & evs & Hrun & Heq & Hall & _).
  assert (Htrace : trace s3 = trace s ++ ev0 :: ev1 :: evs).
  { rewrite Heq. subst s2. simpl. by rewrite <- !app_assoc. }
  assert (Hnoext : ∀ r, ¬ In (EvExtensionsList r) evs).
  { intros r Hin. rewrite Forall_forall in Hall.
    specialize (Hall _ (proj2 (list_elem_of_In _ _) Hin)).
    unfold among in Hall. simpl in Hall. intuition discriminate. }
  assert (Hloop : hasTrunkAlias exts = false → Forall trunkless evs).
  { intros Hfalse. rewrite Hfalse in Hrun.
    eapply emits_run; [apply Hless|exact Hrun|exact Heq]. }
  fold s2. rewrite Hrun.
  destruct err as [e|]; simpl.
  - eexists _, s3, (ev0 :: ev1 :: evs). split; [reflexivity|]. split; [done|].
    intros r [Hin|[Hin|Hin]]; [discriminate| |by apply Hnoext in Hin].
    injection Hin as <-. split; [|by intros e' [[=]|[=]]].
    intros exts' [= <-] Hfalse. constructor; [unfold trunkless; simpl; intuition discriminate|].
    constructor; [unfold trunkless; simpl; intuition discriminate|]. by apply Hloop.
  - destruct (servers_Delete env serverID (world s3)) as [rd w4].
    eexists _, _, (ev0 :: ev1 :: evs ++ [EvServersDelete serverID rd]).
    split; [reflexivity|]. split; [simpl; rewrite Htrace, <- app_assoc; done|].
    intros r [Hin|[Hin|Hin]]; [discriminate| |].
    + injection Hin as <-. split; [|by intros e' [[=]|[=]]].
      intros exts' [= <-] Hfalse. constructor; [unfold trunkless; simpl; intuition discriminate|].
      constructor; [unfold trunkless; simpl; intuition discriminate|].
      apply Forall_app. split; [by apply Hloop|].
      constructor; [unfold trunkless; simpl; intuition discriminate|constructor].
    + apply in_app_or in Hin. destruct Hin as [Hin|[Hin|[]]];
        [by apply Hnoext in Hin|discriminate].
Qed.

End Calls.

(** X15.  InstanceDelete never panics, and every call it issues is a
    listing of interfaces, extensions or trunks, a detach, a delete of a
    trunk, a port or the server, or a lookup of the server: a teardown
    creates and updates nothing. *)
Theorem InstanceDelete_calls {W : Type} (env : Env W) (machine : Machine)
  (openStackMachine : OpenStackMachine) (s : State W) :
  let run := InstanceDelete env machine openStackMachine in
  (∃ err, fst (run s) = Val err)
  ∧ Forall (among deletion_kinds) (emitted run s).
Proof.
  intros run.
  assert (Htotal : total (among deletion_kinds) run).
  { subst run. unfold InstanceDelete.
    destruct (ms_ProviderID (m_Spec machine)) as [providerID|]; [|apply total_ret].
    destruct (NewProviderID env providerID) as [id|e]; [|apply total_ret].
    apply total_bind; [apply total_deleteInstance|].
    intros [e|].
    { apply total_bind; [apply total_notify|]. intros _. apply total_ret. }
    apply total_bind.
    - apply total_pollLoop. unfold InstanceDelete_condition.
      apply total_bind.
      + eapply total_weaken; [apply total_GetInstance|].
        intros ev. unfold among, deletion_kinds. simpl. tauto.
      + intros x. destruct (snd x) as [e|]; [|apply total_ret].
        destruct (IsNotFound env e); apply total_ret.
    - intros p. destruct (snd p) as [e|];
        (apply total_bind; [apply total_notify|]); intros _; apply total_ret. }
  destruct (Htotal s) as (err & evs & Hval & Heq & Hall).
  split; [by exists err|]. unfold emitted. by rewrite Heq, drop_app_length.
Qed.

(** X16.  The teardown and the trunk extension.  When the extension
    listing of deleteInstance holds no extension with the alias trunk, the
    teardown issues no trunk call at all: no trunk is looked up or deleted
    before the ports are.  When the listing fails, the teardown ends with
    the error that wraps the failure, after the two listings: nothing was
    detached or deleted. *)
Theorem deleteInstance_trunk_extension {W : Type} (env : Env W) (serverID : string)
  (s : State W) (r : listing Extension) :
  let run := deleteInstance env serverID in
  In (EvExtensionsList r) (emitted run s) →
  (∀ exts, r = Listed exts →
     (∀ ext, In ext exts → ext_Alias ext ≠ "trunk") →
     Forall trunkless (emitted run s))
  ∧ (∀ e, r = PageErr e ∨ r = ExtractErr e →
       fst (run s) = Val (Some (Errorf "obtaining network extensions: %v" [ArgE e]))
       ∧ ∃ ports, emitted run s = [EvInterfacesList serverID (Listed ports);
                                   EvExtensionsList r]).
Proof.
  intros run. subst run.
  destruct (deleteInstance_trunk_support env serverID s)
    as (o & s' & evs & Hrun & Heq & Hext).
  rewrite (emitted_run _ _ _ _ _ Hrun Heq), Hrun. intros Hin.
  destruct (Hext r Hin) as [Hnone Herr]. split; [|exact Herr].
  intros exts Hr Hno. apply (Hnone exts Hr).
  destruct (hasTrunkAlias exts) eqn:Hhas; [|done].
  apply hasTrunkAlias_true in Hhas. destruct Hhas as (ext & Hin' & Halias).
  by apply Hno in Hin'.
Qed.

Lemma deleteInstance_trunk_extension_witness :
  let run := deleteInstance Fake.env "srv-1" in
  Forall trunkless (emitted run (Fake.start untrunkedServer))
  ∧ Fake.fw_trunks (world (snd (run (Fake.start untrunkedServer))))
    = [("trunk-1", "node-0", "port-1")].
Proof.
  intros run.
  destruct (deleteInstance_trunk_extension Fake.env "srv-1" (Fake.start untrunkedServer)
              (Listed [{| ext_Alias := "router" |}])) as (Hless & _).
  - vm_compute. tauto.
  - split; [|reflexivity]. apply (Hless [{| ext_Alias := "router" |}] eq_refl).
    intros ext [<-|[]]. discriminate.
Defined.

Lemma fatal_weaken {W A} (Q Q' : Event → Prop) (m : M W A) :
  observes (fatal Q) m → (∀ ev, Q' ev → Q ev) → observes (fatal Q') m.
Proof.
  intros Hm HQ. eapply observes_weaken; [exact Hm|].
  intros evs o H ev Hin Hev. apply H; [done|]. by apply HQ.
Qed.

Section Plain.

Context {W : Type} (env : Env W) (projectID : string).

Lemma getServerNetworks_from_plain (params : list NetworkParam) :
  Forall (λ p, np_Subnets p = None) params →
  ∀ nets0 s nets,
    Forall (λ n, net_Subnet n = None) nets0 →
    fst (getServerNetworks_from env params nets0 s) = Val (nets, None) →
    Forall (λ n, net_Subnet n = None) nets.
Proof.
  induction 1 as [|p rest Hp Hrest IH]; intros nets0 s nets Hnets0;
    cbn [getServerNetworks_from].
  { by intros [= <-]. }
  unfold GetNetworkIDsByFilter, bind at 1 2, call.
  destruct (networks_List env (networkListOpts p) (world s)) as [r w1].
  destruct r as [[|n ns]|e|e]; try done.
  unfold bind, ret. rewrite getServerNetworks_ids_nil by done.
  apply IH. apply Forall_app. split; [done|].
  apply Forall_forall. intros x Hx. apply list_elem_of_In, in_map_iff in Hx.
  by destruct Hx as (id & <- & _).
Qed.

Lemma InstanceCreate_plain openStackCluster machine osm clusterName userData :
  oms_Networks (osm_Spec osm) ≠ [] →
  Forall (λ p, np_Subnets p = None) (oms_Networks (osm_Spec osm)) →
  observes (fatal empty_lookup)
    (InstanceCreate env projectID openStackCluster machine (Some osm)
       clusterName userData).
Proof.
  intros Hsome Hplain. unfold InstanceCreate.
  assert (Hlookups : ∀ ev, among lookups ev → ¬ empty_lookup ev).
  { intros ev Hev (opts & ->). unfold among in Hev. simpl in Hev.
    intuition discriminate. }
  destruct (ms_FailureDomain (m_Spec machine)) as [failureDomain|]; [|apply fatal_ret].
  apply fatal_bind.
  { destruct (oms_Trunk (osm_Spec osm)); [|apply fatal_ret].
    apply fatal_bind.
    - eapply fatal_among; [apply total_emits, total_getTrunkSupport|].
      intros ev Hev. apply Hlookups. revert Hev. unfold among, lookups. simpl. tauto.
    - intros [[|] [e|]]; apply fatal_ret. }
  intros [trunk|e]; [|apply fatal_ret].
  apply fatal_bind.
  { eapply fatal_among; [apply total_emits, total_getSecurityGroups|].
    intros ev Hev. apply Hlookups. revert Hev. unfold among, lookups. simpl. tauto. }
  intros [securityGroups [e|]]; [apply fatal_ret|].
  destruct (oms_Networks (osm_Spec osm)) as [|p0 rest] eqn:Hnets; [done|].
  change (0 <? length (p0 :: rest))%nat with true. cbv iota.
  apply (observes_bind
           (λ evs o, Forall (among lookups) evs
                     ∧ ∀ nets, o = Val (nets, None) →
                               Forall (λ n, net_Subnet n = None) nets)
           (λ a, fatal (λ ev, (∀ nets, a = (nets, None) →
                                       Forall (λ n, net_Subnet n = None) nets)
                              ∧ empty_lookup ev))).
  - intros s. unfold getServerNetworks.
    destruct (total_getServerNetworks_from env (p0 :: rest) [] s)
      as (a & evs & Hval & Heq & Hall).
    exists evs. split; [done|]. split; [done|].
    intros nets Ho. eapply getServerNetworks_from_plain; [exact Hplain|constructor|].
    exact Ho.
  - intros [nets [e|]]; [apply fatal_ret|].
    apply fatal_bind.
    + match goal with
      | |- observes _ (createInstance _ _ ?i) =>
          pose proof (createInstance_unsubnetted env clusterName i nets eq_refl) as Hc
      end.
      eapply fatal_weaken; [exact Hc|].
      intros ev [Hnil (opts & ->)]. exists opts. split; [done|].
      intros n Hn _. specialize (Hnil nets eq_refl). rewrite Forall_forall in Hnil.
      by apply Hnil, list_elem_of_In.
    + intros [instance [e|]]; [|destruct instance]; fatal_walk ltac:(assumption).
  - intros e1 [Hall _] ev Hin Hev. rewrite Forall_forall in Hall.
    by apply Hlookups in Hev; [|apply Hall, list_elem_of_In].
  - intros e1 a e2 o [Hall Hnil] H2 ev Hin Hev. apply in_app_or in Hin.
    destruct Hin as [Hin|Hin].
    + rewrite Forall_forall in Hall.
      by apply Hlookups in Hev; [|apply Hall, list_elem_of_In].
    + destruct (H2 ev Hin) as (-> & pre & ->).
      * split; [|done]. intros nets ->. by apply Hnil.
      * split; [done|]. exists (e1 ++ pre). by rewrite app_assoc.
Qed.

End Plain.

(** X17.  A machine whose network attachments all come without a subnet
    list can only get a server on ports that exist already.  Each of its
    networks is handed to createInstance without a subnet, so the first
    lookup of a port that comes back empty makes InstanceCreate panic in
    createPort; the lookup is the last call, and neither a port nor a
    server was created after it. *)
Theorem InstanceCreate_plain_attachments {W : Type} (env : Env W) (projectID : string)
  (openStackCluster : OpenStackCluster) (machine : Machine)
  (openStackMachine : OpenStackMachine) (clusterName userData : string)
  (s : State W) (opts : PortListOpts) :
  let run := InstanceCreate env projectID openStackCluster machine
               (Some openStackMachine) clusterName userData in
  oms_Networks (osm_Spec openStackMachine) ≠ [] →
  Forall (λ p, np_Subnets p = None) (oms_Networks (osm_Spec openStackMachine)) →
  In (EvPortsList opts (Listed [])) (emitted run s) →
  fst (run s) = Panic
  ∧ ∃ pre, emitted run s = pre ++ [EvPortsList opts (Listed [])].
Proof.
  intros run Hsome Hplain Hin.
  apply (observes_emitted _ _ s
           (InstanceCreate_plain env projectID openStackCluster machine openStackMachine
              clusterName userData Hsome Hplain) _ Hin).
  by exists opts.
Qed.

Lemma InstanceCreate_plain_attachments_witness :
  let run := InstanceCreate Fake.env "project" sampleCluster pendingMachine
               (Some (machineOn [attachPlain "net-a"] "")) "c1" "" in
  fst (run (Fake.start twoNetworks)) = Panic
  ∧ map kind (emitted run (Fake.start twoNetworks)) = [KNetworksList; KPortsList].
Proof.
  intros run.
  destruct (InstanceCreate_plain_attachments Fake.env "project" sampleCluster
              pendingMachine (machineOn [attachPlain "net-a"] "") "c1" ""
              (Fake.start twoNetworks)
              {| plo_Name := "node-0"; plo_NetworkID := "id-a" |})
    as (Hpanic & _).
  - done.
  - by repeat constructor.
  - vm_compute. tauto.
  - split; [exact Hpanic|reflexivity].
Defined.

Lemma bind_ret {W A B} (a : A) (k : A → M W B) : bind (ret a) k = k a.
Proof. reflexivity. Qed.

Section Untrunked.

Context {W : Type} (env : Env W) (projectID : string).

Lemma createInstance_networks_plain clusterName i networkList :
  inst_Trunk i = false →
  ∀ accessIPv4 portsList,
    emits (among [KPortsList; KPortsCreate])
      (createInstance_networks env clusterName i networkList accessIPv4 portsList).
Proof.
  intros Hplain.
  induction networkList as [|network rest IH]; intros accessIPv4 portsList; simpl.
  - apply emits_ret.
  - rewrite Hplain. unfold createPort. emits_walk among_side. all: apply IH.
Qed.

Lemma createInstance_plain clusterName i :
  inst_Trunk i = false →
  emits (among plain_creation_kinds) (createInstance env clusterName i).
Proof.
  intros Hplain. unfold createInstance.
  apply emits_bind; [eapply emits_among_incl; [apply emits_getImageID|kinds_incl]|].
  intros [imageID [e|]]; [apply emits_ret|].
  destruct (inst_Networks i) as [networkList|]; [|apply emits_panic].
  apply emits_bind.
  { eapply emits_among_incl; [by apply createInstance_networks_plain|kinds_incl]. }
  intros [[accessIPv4 portsList]|e]; [|apply emits_ret].
  destruct (negb (inst_Subnet i =? "")%string && (accessIPv4 =? "")%string).
  { apply emits_bind; [eapply emits_among_incl; [apply emits_deletePorts|kinds_incl]|].
    intros [errd|]; apply emits_ret. }
  apply emits_bind; [apply emits_call; intros; among_side|].
  intros [flavorID|e]; [|apply emits_ret].
  destruct (inst_SecurityGroups i) as [securityGroups|]; [|apply emits_panic].
  apply emits_bind; [apply emits_call; intros; among_side|].
  intros [server|e].
  - apply emits_bind.
    + apply emits_pollLoop.
      eapply emits_among_incl; [apply emits_createInstance_condition|kinds_incl].
    + intros [instance [e|]]; apply emits_ret.
  - apply emits_bind; [eapply emits_among_incl; [apply emits_deletePorts|kinds_incl]|].
    intros [errd|]; apply emits_ret.
Qed.

Lemma emits_getServerNetworks params :
  emits (among [KNetworksList; KSubnetsByFilter]) (getServerNetworks env params).
Proof.
  unfold getServerNetworks. generalize (@nil Network).
  induction params as [|p rest IH]; intros nets0; simpl.
  - apply emits_ret.
  - apply emits_bind;
      [eapply emits_among_incl; [apply total_emits, total_GetNetworkIDsByFilter|kinds_incl]|].
    intros [ids [e|]]; [apply emits_ret|].
    apply emits_bind;
      [eapply emits_among_incl; [apply total_emits, total_getServerNetworks_ids|kinds_incl]|].
    intros [nets' [e|]]; [apply emits_ret|apply IH].
Qed.

Lemma InstanceCreate_untrunked openStackCluster machine osm clusterName userData :
  oms_Trunk (osm_Spec osm) = false →
  emits (among untrunked_kinds)
    (InstanceCreate env projectID openStackCluster machine (Some osm)
       clusterName userData).
Proof.
  intros Hplain. unfold InstanceCreate. rewrite Hplain.
  destruct (ms_FailureDomain (m_Spec machine)) as [failureDomain|]; [|apply emits_ret].
  rewrite bind_ret.
  apply emits_bind.
  { eapply emits_among_incl; [apply total_emits, total_getSecurityGroups|kinds_incl]. }
  intros [securityGroups [e|]]; [apply emits_ret|].
  apply emits_bind.
  { destruct (0 <? length (oms_Networks (osm_Spec osm)))%nat.
    - eapply emits_among_incl; [apply emits_getServerNetworks|kinds_incl].
    - emits_walk among_side. }
  intros [nets [e|]]; [apply emits_ret|].
  apply emits_bind.
  { eapply emits_among_incl; [by apply createInstance_plain|kinds_incl]. }
  intros x. emits_walk among_side.
Qed.

(** The events of InstanceCreate: lookups, then the calls of
    createInstance. *)
Lemma InstanceCreate_phased openStackCluster machine openStackMachine clusterName
  userData :
  observes (λ evs _, ∃ pre post, evs = pre ++ post
                                 ∧ Forall (among lookups) pre
                                 ∧ Forall (among creation_kinds) post)
    (InstanceCreate env projectID openStackCluster machine openStackMachine
       clusterName userData).
Proof.
  set (R := λ (evs : list Event) (_ : outcome (option Instance * option error)),
              ∃ pre post, evs = pre ++ post ∧ Forall (among lookups) pre
                          ∧ Forall (among creation_kinds) post).
  assert (Hnil : ∀ o, R [] o) by (intros o; by exists [], []).
  assert (Hpanic : ∀ e1, Forall (among lookups) e1 → R e1 Panic).
  { intros e1 Hall. exists e1, []. by rewrite app_nil_r. }
  assert (Hseq : ∀ e1 e2 o, Forall (among lookups) e1 → R e2 o → R (e1 ++ e2) o).
  { intros e1 e2 o Hall (pre & post & -> & Hpre & Hpost).
    exists (e1 ++ pre), post. rewrite app_assoc. split; [done|].
    split; [by apply Forall_app|done]. }
  unfold InstanceCreate.
  destruct openStackMachine as [osm|]; [|by apply observes_ret].
  destruct (ms_FailureDomain (m_Spec machine)) as [failureDomain|];
    [|by apply observes_ret].
  apply (observes_prefix (among lookups)); [| |done|done].
  { destruct (oms_Trunk (osm_Spec osm)); [|apply emits_ret].
    apply emits_bind.
    - eapply emits_among_incl; [apply total_emits, total_getTrunkSupport|kinds_incl].
    - intros [[|] [e|]]; apply emits_ret. }
  intros [trunk|e]; [|by apply observes_ret].
  apply (observes_prefix (among lookups)); [| |done|done].
  { eapply emits_among_incl; [apply total_emits, total_getSecurityGroups|kinds_incl]. }
  intros [securityGroups [e|]]; [by apply observes_ret|].
  apply (observes_prefix (among lookups)); [| |done|done].
  { destruct (0 <? length (oms_Networks (osm_Spec osm)))%nat.
    - eapply emits_among_incl; [apply emits_getServerNetworks|kinds_incl].
    - emits_walk among_side. }
  intros [nets [e|]]; [by apply observes_ret|].
  apply (observes_bind (λ evs _, Forall (among creation_kinds) evs)
           (λ _ evs _, evs = [])).
  - apply emits_observes, emits_createInstance.
  - intros [[instance|] [e|]]; apply observes_intro; intros s;
      unfold bind, notify, ret, panic; simpl; eexists _, _, [];
      (split; [reflexivity|]); simpl; by rewrite app_nil_r.
  - intros e1 Hall. by exists [], e1.
  - intros e1 a e2 o Hall ->. exists [], e1. by rewrite app_nil_r.
Qed.

End Untrunked.

(** X18.  A machine that asks for no trunk never has the extensions
    listed, and no trunk is looked up, created or tagged for it: the calls
    of InstanceCreate are then the lookups of security groups, networks and
    subnets, and for the image, the ports, the flavor and the server. *)
Theorem InstanceCreate_without_trunk {W : Type} (env : Env W) (projectID : string)
  (openStackCluster : OpenStackCluster) (machine : Machine)
  (openStackMachine : OpenStackMachine) (clusterName userData : string)
  (s : State W) :
  oms_Trunk (osm_Spec openStackMachine) = false →
  Forall (among untrunked_kinds)
    (emitted (InstanceCreate env projectID openStackCluster machine
                (Some openStackMachine) clusterName userData) s).
Proof.
  intros Hplain. by apply emits_emitted, InstanceCreate_untrunked.
Qed.

Lemma InstanceCreate_without_trunk_witness :
  Forall (among untrunked_kinds)
    (emitted (InstanceCreate Fake.env "project" sampleCluster pendingMachine
                (Some (machineOn [attach "net-a"; attach "net-b"] "s3")) "c1" "")
       (Fake.start trunkNetworks)).
Proof.
  by apply (InstanceCreate_without_trunk Fake.env "project" sampleCluster pendingMachine
              (machineOn [attach "net-a"; attach "net-b"] "s3") "c1" ""
              (Fake.start trunkNetworks)).
Defined.

(** X19.  InstanceCreate resolves before it creates: its calls are first
    the lookups of extensions, security groups, networks and subnets, and
    only after the last of them the calls of createInstance.  A run that
    ends during the lookups has therefore created, tagged and deleted
    nothing. *)
Theorem InstanceCreate_lookups_first {W : Type} (env : Env W) (projectID : string)
  (openStackCluster : OpenStackCluster) (machine : Machine)
  (openStackMachine : option OpenStackMachine) (clusterName userData : string)
  (s : State W) :
  ∃ pre post,
    emitted (InstanceCreate env projectID openStackCluster machine openStackMachine
               clusterName userData) s = pre ++ post
    ∧ Forall (among lookups) pre
    ∧ Forall (among creation_kinds) post.
Proof.
  exact (observes_emitted _ _ s
           (InstanceCreate_phased env projectID openStackCluster machine openStackMachine
              clusterName userData)).
Qed.

Lemma emits_and {W A} (P Q : Event → Prop) (m : M W A) :
  emits P m → emits Q m → emits (λ ev, P ev ∧ Q ev) m.
Proof.
  intros HP HQ s. destruct (HP s) as (evs & Heq & Hall).
  destruct (HQ s) as (evs' & Heq' & Hall'). rewrite Heq in Heq'.
  apply app_inv_head in Heq'. subst evs'. exists evs. split; [done|].
  apply Forall_and. by split.
Qed.

Lemma listed_groups_app (l l' : list Event) :
  listed_groups (l ++ l') = listed_groups l ++ listed_groups l'.
Proof. unfold listed_groups. apply flat_map_app. Qed.

Lemma listed_groups_none (l : list Event) :
  Forall (λ ev, kind ev ≠ KSecGroupsList) l → listed_groups l = [].
Proof.
  induction 1 as [|ev l Hev _ IH]; [done|]. simpl. rewrite IH.
  destruct ev; try done; by destruct Hev.
Qed.

Lemma uses_groups_other (securityGroups : list string) (l : list Event) :
  Forall (λ ev, kind ev ≠ KPortsCreate ∧ kind ev ≠ KServersCreate) l →
  Forall (uses_groups securityGroups) l.
Proof.
  intros Hall. eapply Forall_impl; [exact Hall|].
  intros ev [H1 H2]. by destruct ev.
Qed.

Section Groups.

Context {W : Type} (env : Env W) (projectID : string).

Local Ltac side := first [ assumption | reflexivity | exact I ].

Lemma createInstance_networks_groups clusterName i securityGroups networkList :
  inst_SecurityGroups i = Some securityGroups →
  ∀ accessIPv4 portsList,
    emits (uses_groups securityGroups)
      (createInstance_networks env clusterName i networkList accessIPv4 portsList).
Proof.
  intros Hsgs.
  induction networkList as [|network rest IH]; intros accessIPv4 portsList; simpl.
  - apply emits_ret.
  - unfold createPort, createInstance_trunk. rewrite Hsgs. emits_walk side.
    all: apply IH.
Qed.

Lemma createInstance_groups clusterName i securityGroups :
  inst_SecurityGroups i = Some securityGroups →
  emits (λ ev, uses_groups securityGroups ev ∧ kind ev ≠ KSecGroupsList)
    (createInstance env clusterName i).
Proof.
  intros Hsgs. apply emits_and.
  2:{ eapply emits_weaken; [apply emits_createInstance|].
      intros ev Hev. unfold among in Hev. simpl in Hev. intros Heq. rewrite Heq in Hev.
      intuition discriminate. }
  unfold createInstance. rewrite Hsgs.
  apply emits_bind; [eapply emits_among; [apply emits_getImageID|kinds_ok]|].
  intros [imageID [e|]]; [apply emits_ret|].
  destruct (inst_Networks i) as [networkList|]; [|apply emits_panic].
  apply emits_bind; [by apply createInstance_networks_groups|].
  intros [[accessIPv4 portsList]|e]; [|apply emits_ret].
  destruct (negb (inst_Subnet i =? "")%string && (accessIPv4 =? "")%string).
  { apply emits_bind; [eapply emits_among; [apply emits_deletePorts|kinds_ok]|].
    intros [errd|]; apply emits_ret. }
  apply emits_bind; [apply emits_call; intros; side|].
  intros [flavorID|e]; [|apply emits_ret].
  apply emits_bind.
  { apply emits_call. intros r. simpl.
    by rewrite baseOpts_applyServerGroupID, baseOpts_applyRootVolume. }
  intros [server|e].
  - apply emits_bind.
    + apply emits_pollLoop.
      eapply emits_among; [apply emits_createInstance_condition|kinds_ok].
    + intros [instance [e|]]; apply emits_ret.
  - apply emits_bind; [eapply emits_among; [apply emits_deletePorts|kinds_ok]|].
    intros [errd|]; apply emits_ret.
Qed.

Lemma getSecurityGroups_observed params :
  observes (λ evs (o : outcome (list string * option error)),
              Forall (among [KSecGroupsList]) evs
              ∧ ∃ ids err, o = Val (ids, err)
                  ∧ (err = None → ids = first_occurrences (listed_groups evs)))
    (getSecurityGroups env projectID params).
Proof.
  apply observes_intro. intros s. unfold getSecurityGroups.
  destruct (getSecurityGroups_from_run env projectID params [] s)
    as (ids & err & s' & evs & Hrun & Heq & _ & Hok & _).
  change (first_occurrences []) with (@nil string) in Hrun.
  exists (Val (ids, err)), s', evs. split; [done|]. split; [done|].
  split.
  - eapply emits_run; [|exact Hrun|exact Heq].
    apply total_emits. apply (total_getSecurityGroups env projectID params).
  - exists ids, err. split; [done|]. intros Hnone. by destruct (Hok Hnone).
Qed.

Lemma InstanceCreate_groups openStackCluster machine openStackMachine clusterName
  userData :
  observes (λ evs _,
              Forall (uses_groups (first_occurrences (listed_groups evs)
                                   ++ managed_groups env openStackCluster machine))
                     evs)
    (InstanceCreate env projectID openStackCluster machine openStackMachine
       clusterName userData).
Proof.
  set (G := managed_groups env openStackCluster machine).
  set (T := λ (evs : list Event) (_ : outcome (option Instance * option error)),
              Forall (uses_groups (first_occurrences (listed_groups evs) ++ G)) evs).
  assert (Hquiet : ∀ ks l sgs,
             Forall (among ks) l →
             (∀ k, In k ks → In k lookups ∧ k ≠ KSecGroupsList) →
             listed_groups l = [] ∧ Forall (uses_groups sgs) l).
  { intros ks l sgs Hall Hks. split.
    - apply listed_groups_none. eapply Forall_impl; [exact Hall|].
      intros ev Hev. by destruct (Hks _ Hev).
    - apply uses_groups_other. eapply Forall_impl; [exact Hall|].
      intros ev Hev. destruct (Hks _ Hev) as [Hin _]. unfold lookups in Hin.
      simpl in Hin. split; intros Heq; rewrite Heq in Hin; intuition discriminate. }
  assert (Hlisting : ∀ l sgs, Forall (among [KSecGroupsList]) l →
                              Forall (uses_groups sgs) l).
  { intros l sgs Hall. apply uses_groups_other. eapply Forall_impl; [exact Hall|].
    intros ev Hev. unfold among in Hev. simpl in Hev.
    split; intros Heq; rewrite Heq in Hev; intuition discriminate. }
  unfold InstanceCreate.
  destruct openStackMachine as [osm|]; [|apply observes_ret; by constructor].
  destruct (ms_FailureDomain (m_Spec machine)) as [failureDomain|];
    [|apply observes_ret; by constructor].
  apply (observes_prefix (among [KExtensionsList])).
  { destruct (oms_Trunk (osm_Spec osm)); [|apply emits_ret].
    apply emits_bind; [apply total_emits, total_getTrunkSupport|].
    intros [[|] [e|]]; apply emits_ret. }
  2:{ intros e1 Hall. unfold T.
      destruct (Hquiet [KExtensionsList] e1
                  (first_occurrences (listed_groups e1) ++ G) Hall) as [_ H]; [|done].
      intros k [<-|[]]. split; [|done]. unfold lookups. simpl. tauto. }
  2:{ intros e1 e2 o Hall H2. unfold T in *.
      destruct (Hquiet [KExtensionsList] e1
                  (first_occurrences (listed_groups e2) ++ G) Hall) as [Hnone H1].
      { intros k [<-|[]]. split; [|done]. unfold lookups. simpl. tauto. }
      rewrite listed_groups_app, Hnone. simpl. by apply Forall_app. }
  intros [trunk|e]; [|apply observes_ret; by constructor].
  apply (observes_bind
           (λ evs (o : outcome (list string * option error)),
              Forall (among [KSecGroupsList]) evs
              ∧ ∃ ids err, o = Val (ids, err)
                  ∧ (err = None → ids = first_occurrences (listed_groups evs)))
           (λ a evs _,
              match a with
              | (ids, None) => Forall (uses_groups (ids ++ G)) evs ∧ listed_groups evs = []
              | (_, Some _) => evs = []
              end)).
  - apply getSecurityGroups_observed.
  - intros [ids [e|]].
    { apply observes_intro. intros s. eexists _, _, []. split; [reflexivity|].
      by rewrite app_nil_r. }
    cbv zeta.
    set (U := λ (evs : list Event) (_ : outcome (option Instance * option error)),
                Forall (uses_groups (ids ++ G)) evs ∧ listed_groups evs = []).
    apply (observes_prefix (among [KNetworksList; KSubnetsByFilter]) U).
    { destruct (0 <? length (oms_Networks (osm_Spec osm)))%nat.
      - apply emits_getServerNetworks.
      - emits_walk among_side. }
    2:{ intros e1 Hall. unfold U.
        destruct (Hquiet _ e1 (ids ++ G) Hall) as [Hnone H1]; [|done].
        intros k Hk. unfold lookups. simpl in *. intuition (subst; discriminate). }
    2:{ intros e1 e2 o Hall [H2 Hnone2]. unfold U.
        destruct (Hquiet _ e1 (ids ++ G) Hall) as [Hnone H1].
        { intros k Hk. unfold lookups. simpl in *. intuition (subst; discriminate). }
        split; [by apply Forall_app|]. by rewrite listed_groups_app, Hnone, Hnone2. }
    intros [nets [e|]]; [apply observes_ret; by constructor|].
    apply (observes_prefix
             (λ ev, uses_groups (ids ++ G) ev ∧ kind ev ≠ KSecGroupsList) U).
    + match goal with
      | |- emits _ (createInstance _ _ ?i) =>
          pose proof (createInstance_groups clusterName i _ eq_refl) as Hc
      end.
      eapply emits_weaken; [exact Hc|]. intros ev [Hev Hk]. split; [|done].
      replace (ids ++ G)
        with (if ocs_ManagedSecurityGroups (osc_Spec openStackCluster)
              then if IsControlPlaneMachine env machine
                   then ids ++ [secgroup_ID (ocst_ControlPlaneSecurityGroup
                                               (osc_Status openStackCluster))]
                   else ids ++ [secgroup_ID (ocst_WorkerSecurityGroup
                                               (osc_Status openStackCluster))]
              else ids); [exact Hev|].
      subst G. unfold managed_groups.
      destruct (ocs_ManagedSecurityGroups (osc_Spec openStackCluster));
        [by destruct (IsControlPlaneMachine env machine)|by rewrite app_nil_r].
    + intros [[instance|] [e|]]; apply observes_intro; intros s;
        unfold bind, notify, ret, panic; simpl; eexists _, _, [];
        (split; [reflexivity|]); simpl; by rewrite app_nil_r.
    + intros e1 Hall. apply Forall_and in Hall as [H1 H2]. split; [done|].
      by apply listed_groups_none.
    + intros e1 e2 o Hall [H2 Hnone2]. apply Forall_and in Hall as [H1 Hk].
      split; [by apply Forall_app|].
      by rewrite listed_groups_app, Hnone2, (listed_groups_none e1).
  - intros e1 [Hall _]. unfold T. by apply Hlisting.
  - intros e1 [ids err] e2 o [Hall (ids' & err' & [= <- <-] & Hok)] H2. unfold T.
    destruct err as [e|].
    + subst e2. rewrite app_nil_r. by apply Hlisting.
    + destruct H2 as [H2 Hnone2]. rewrite listed_groups_app, Hnone2, app_nil_r.
      rewrite <- (Hok eq_refl). apply Forall_app. split; [by apply Hlisting|done].
Qed.

End Groups.

(** X20.  The security groups of a machine, end to end.  Every port that
    InstanceCreate creates and the server it creates carry the same list:
    the ids that the listings of the security groups returned, in the order
    of their first appearance and without repetition, followed by the
    group of the control plane or of the workers when the cluster manages
    its security groups.  The managed group is appended as it is, also when
    the list holds it already. *)
Theorem InstanceCreate_security_groups {W : Type} (env : Env W) (projectID : string)
  (openStackCluster : OpenStackCluster) (machine : Machine)
  (openStackMachine : option OpenStackMachine) (clusterName userData : string)
  (s : State W) :
  let evs := emitted (InstanceCreate env projectID openStackCluster machine
                        openStackMachine clusterName userData) s in
  Forall (uses_groups (first_occurrences (listed_groups evs)
                       ++ managed_groups env openStackCluster machine)) evs.
Proof.
  intros evs. subst evs.
  exact (observes_emitted _ _ s
           (InstanceCreate_groups env projectID openStackCluster machine
              openStackMachine clusterName userData)).
Qed.

(** On the in-memory backend: the groups web and db, web asked for twice,
    on a cluster whose worker group is one of them. *)
Example InstanceCreate_security_groups_run :
  let run := InstanceCreate Fake.env "project" managedCluster pendingMachine
               (Some groupedMachine) "c1" "" in
  omap (λ ev, match ev with
              | EvPortsCreate opts _ => pco_SecurityGroups opts
              | EvServersCreate b _ => Some (co_SecurityGroups (baseOpts b))
              | _ => None
              end) (emitted run (Fake.start groupedNetworks))
  = [["sg-1"; "sg-3"; "sg-2"; "sg-1"]; ["sg-1"; "sg-3"; "sg-2"; "sg-1"]].
Proof. vm_compute. reflexivity. Qed.

Section Records.

Context {W : Type}.

Lemma records_ret {A} (N : list Notice → outcome A → Prop) (a : A) :
  N [] (Val a) → records N (ret a : M W A).
Proof. intros HN s. exists []. by rewrite app_nil_r. Qed.

Lemma records_panic {A} (N : list Notice → outcome A → Prop) :
  N [] Panic → records N (@panic W A).
Proof. intros HN s. exists []. by rewrite app_nil_r. Qed.

Lemma records_bind {A B} (N1 : list Notice → outcome A → Prop)
  (N2 : A → list Notice → outcome B → Prop) (N : list Notice → outcome B → Prop)
  (m : M W A) (k : A → M W B) :
  records N1 m →
  (∀ a, records (N2 a) (k a)) →
  (∀ n1, N1 n1 Panic → N n1 Panic) →
  (∀ n1 a n2 o, N1 n1 (Val a) → N2 a n2 o → N (n1 ++ n2) o) →
  records N (bind m k).
Proof.
  intros Hm Hk Hpanic Hseq s. unfold bind.
  destruct (Hm s) as (n1 & Heq1 & H1).
  destruct (m s) as [[a|] s1]; simpl in *.
  - destruct (Hk a s1) as (n2 & Heq2 & H2).
    exists (n1 ++ n2). rewrite Heq2, Heq1, app_assoc. split; [done|]. by eapply Hseq.
  - exists n1. split; [done|]. by apply Hpanic.
Qed.

Lemma silent_records {A} (m : M W A) : silent m → records (λ ns _, ns = []) m.
Proof. intros Hm s. exists []. by rewrite app_nil_r, Hm. Qed.

(** A prefix that records nothing. *)
Lemma records_silent_bind {A B} (N : list Notice → outcome B → Prop)
  (m : M W A) (k : A → M W B) :
  silent m → (∀ a, records N (k a)) → N [] Panic → records N (bind m k).
Proof.
  intros Hm Hk Hpanic.
  apply (records_bind (λ ns _, ns = []) (λ _, N)); [by apply silent_records|done|..].
  - by intros n1 ->.
  - by intros n1 a n2 o ->.
Qed.

End Records.

Section SilentCreation.

Context {W : Type} (env : Env W) (projectID : string).

Lemma silent_getImageID name : silent (getImageID env name).
Proof. unfold getImageID. silent_walk. Qed.

Lemma silent_deletePorts nets : silent (deletePorts env nets).
Proof. induction nets as [|n rest IH]; simpl; silent_walk. Qed.

Lemma silent_createInstance_networks clusterName i networkList :
  ∀ accessIPv4 portsList,
    silent (createInstance_networks env clusterName i networkList accessIPv4 portsList).
Proof.
  induction networkList as [|network rest IH]; intros accessIPv4 portsList; simpl.
  - apply silent_ret.
  - unfold createPort, createInstance_trunk. silent_walk. all: apply IH.
Qed.

Lemma silent_createInstance_condition id : silent (createInstance_condition env id).
Proof.
  unfold createInstance_condition. apply silent_bind; [apply silent_GetInstance|].
  intros x. silent_walk.
Qed.

Lemma silent_createInstance clusterName i : silent (createInstance env clusterName i).
Proof.
  unfold createInstance, PollImmediate.
  repeat first
    [ apply silent_ret | apply silent_panic | apply silent_call
    | apply silent_getImageID | apply silent_createInstance_networks
    | apply silent_deletePorts
    | apply silent_pollLoop, silent_createInstance_condition
    | apply silent_bind; [|intros ?]
    | match goal with
      | |- silent (match ?x with _ => _ end) => destruct x
      | |- silent (if ?x then _ else _) => destruct x
      end ].
Qed.

Lemma silent_getSecurityGroups params : silent (getSecurityGroups env projectID params).
Proof.
  unfold getSecurityGroups. generalize (@nil string).
  induction params as [|sg rest IH]; intros sgIDs; simpl; silent_walk. all: apply IH.
Qed.

Lemma silent_getServerNetworks_subnets netID subnets :
  ∀ nets, silent (getServerNetworks_subnets env netID subnets nets).
Proof.
  induction subnets as [|sn rest IH]; intros nets; simpl; silent_walk. apply IH.
Qed.

Lemma silent_getServerNetworks_ids param ids :
  ∀ nets, silent (getServerNetworks_ids env param ids nets).
Proof.
  induction ids as [|id rest IH]; intros nets; simpl;
    repeat first
      [ apply silent_ret | apply silent_getServerNetworks_subnets | apply IH
      | apply silent_bind; [|intros ?]
      | match goal with
        | |- silent (match ?x with _ => _ end) => destruct x
        end ].
Qed.

Lemma silent_getServerNetworks params : silent (getServerNetworks env params).
Proof.
  unfold getServerNetworks. generalize (@nil Network).
  induction params as [|p rest IH]; intros nets; simpl; [apply silent_ret|].
  unfold GetNetworkIDsByFilter.
  repeat first
    [ apply silent_ret | apply silent_call | apply silent_getServerNetworks_ids | apply IH
    | apply silent_bind; [|intros ?]
    | match goal with
      | |- silent (match ?x with _ => _ end) => destruct x
      end ].
Qed.

(** createInstance records nothing, and a nil error comes with an active
    instance. *)
Lemma createInstance_report clusterName i :
  records (λ ns o, ns = []
                   ∧ ∀ x, o = Val (x, None) →
                          ∃ inst, x = Some inst
                                  ∧ inst_State inst = InstanceStateActive)
    (createInstance env clusterName i).
Proof.
  intros s. exists []. rewrite app_nil_r. split; [apply silent_createInstance|].
  split; [done|]. intros x Hx.
  destruct (observes_emitted _ _ s (createInstance_outcome env clusterName i))
    as [Hcreated _].
  destruct (Hcreated x Hx)
    as (inst & pre & req & made & polls & server & -> & _ & _ & Hconv & Hact).
  exists inst. split; [done|].
  unfold serverToInstance in Hconv.
  destruct (GetIPFromInstance env server); [|done]. by injection Hconv as <-.
Qed.

Lemma InstanceCreate_report openStackCluster machine openStackMachine clusterName
  userData :
  records (creation_report openStackMachine)
    (InstanceCreate env projectID openStackCluster machine openStackMachine
       clusterName userData).
Proof.
  unfold InstanceCreate.
  assert (Hret : ∀ e, records (creation_report openStackMachine)
                        (ret (None, Some e) : M W _)).
  { intros e. apply records_ret. by left. }
  destruct openStackMachine as [osm|]; [|apply Hret].
  destruct (ms_FailureDomain (m_Spec machine)) as [failureDomain|]; [|apply Hret].
  apply records_silent_bind; [| |done].
  { destruct (oms_Trunk (osm_Spec osm)); [|apply silent_ret].
    apply silent_bind; [apply silent_getTrunkSupport|].
    intros [[|] [e|]]; apply silent_ret. }
  intros [trunk|e]; [|apply Hret].
  apply records_silent_bind; [apply silent_getSecurityGroups| |done].
  intros [securityGroups [e|]]; [apply Hret|].
  apply records_silent_bind; [| |done].
  { destruct (0 <? length (oms_Networks (osm_Spec osm)))%nat.
    - apply silent_getServerNetworks.
    - silent_walk. }
  intros [nets [e|]]; [apply Hret|].
  eapply records_bind; [apply createInstance_report| | |].
  - intros a.
    instantiate (1 := λ a ns o,
      (∀ x, a = (x, None) → ∃ inst, x = Some inst
                                    ∧ inst_State inst = InstanceStateActive) →
      creation_report (Some osm) ns o).
    intros s. destruct a as [[out|] [e|]]; unfold bind, notify, ret, panic; simpl.
    + eexists [_]. split; [done|]. intros _. right. by exists osm.
    + eexists [_]. split; [done|]. intros Hact.
      destruct (Hact (Some out) eq_refl) as (inst & [= <-] & Hstate). by split.
    + eexists [_]. split; [done|]. intros _. right. by exists osm.
    + exists []. rewrite app_nil_r. split; [done|]. intros Hact.
      by destruct (Hact None eq_refl) as (inst & [=] & _).
  - by intros n1 [-> _].
  - intros n1 a n2 o [-> Hact] H2. apply H2. intros x ->. by apply Hact.
Qed.

End SilentCreation.

(** X21.  What InstanceCreate returns and what it records.  It returns an
    instance or an error, never both and never neither.  An instance is
    active, and its creation is recorded by one notification that names
    it.  A failure records at most one warning, the one that carries the
    returned error; a panic records nothing. *)
Theorem InstanceCreate_reports {W : Type} (env : Env W) (projectID : string)
  (openStackCluster : OpenStackCluster) (machine : Machine)
  (openStackMachine : option OpenStackMachine) (clusterName userData : string)
  (s : State W) :
  let run := InstanceCreate env projectID openStackCluster machine openStackMachine
               clusterName userData in
  ∃ ns, notices (snd (run s)) = notices s ++ ns
        ∧ creation_report openStackMachine ns (fst (run s)).
Proof.
  intros run.
  exact (InstanceCreate_report env projectID openStackCluster machine openStackMachine
           clusterName userData s).
Qed.

Lemma emits_run_ex {W A} (P : Event → Prop) (m : M W A) (s : State W) :
  emits P m → ∃ o s' evs, m s = (o, s') ∧ trace s' = trace s ++ evs ∧ Forall P evs.
Proof.
  intros Hm. destruct (Hm s) as (evs & Heq & Hall).
  destruct (m s) as [o s'] eqn:Hrun. by exists o, s', evs.
Qed.

Lemma accessAddress_app subnet l l' acc :
  accessAddress subnet (l ++ l') acc
  = accessAddress subnet l' (accessAddress subnet l acc).
Proof. unfold accessAddress. apply fold_left_app. Qed.

Lemma accessAddress_last subnet fixedIPs acc :
  accessAddress subnet fixedIPs acc
  = default acc (ip_IPAddress <$> last (filter (λ fip, (ip_SubnetID fip =? subnet)%string)
                                               fixedIPs)).
Proof.
  induction fixedIPs as [|fip rest IH] using rev_ind; [done|].
  rewrite accessAddress_app, IH, last_filter_snoc. simpl.
  by destruct (ip_SubnetID fip =? subnet)%string.
Qed.

Lemma obtained_ports_app l l' :
  obtained_ports (l ++ l') = obtained_ports l ++ obtained_ports l'.
Proof. unfold obtained_ports. apply omap_app. Qed.

Lemma obtained_ports_none l :
  Forall (λ ev, obtained_port ev = None) l → obtained_ports l = [].
Proof.
  induction 1 as [|ev l Hev _ IH]; [done|]. unfold obtained_ports in *. simpl.
  by rewrite Hev.
Qed.

Section Ports.

Context {W : Type} (env : Env W).

Lemma createInstance_networks_run clusterName i networkList :
  ∀ accessIPv4 portsList s, ∃ o s' evs,
    createInstance_networks env clusterName i networkList accessIPv4 portsList s = (o, s')
    ∧ trace s' = trace s ++ evs
    ∧ ∀ a p, o = Val (Ok (a, p)) →
        p = portsList ++ map (λ port, {| sn_Port := port_ID port |}) (obtained_ports evs)
        ∧ a = accessAddress (inst_Subnet i) (flat_map port_FixedIPs (obtained_ports evs))
                accessIPv4
        ∧ length (obtained_ports evs) = length networkList.
Proof.
  induction networkList as [|network rest IH]; intros accessIPv4 portsList s;
    cbn [createInstance_networks].
  { exists (Val (Ok (accessIPv4, portsList))), s, []. rewrite !app_nil_r.
    split; [done|]. split; [done|]. intros a p [= <- <-]. simpl.
    by rewrite ?app_nil_r. }
  destruct (net_ID network =? "")%string.
  { eexists _, s, []. rewrite app_nil_r. split; [reflexivity|]. split; [done|].
    intros a p [=]. }
  unfold bind at 1, call.
  match goal with |- context [ports_List env ?o (world s)] => set (listOpts := o) end.
  destruct (ports_List env listOpts (world s)) as [r w1].
  set (ev0 := EvPortsList listOpts r).
  set (s1 := {| world := w1; trace := trace s ++ [ev0]; notices := notices s |}).
  destruct r as [portList|e|e];
    try (eexists _, s1, [ev0]; split; [reflexivity|]; split; [done|]; intros a p [=]).
  (* the port: the first one listed, or a new one *)
  assert (Hport : ∃ o1 s2 evs1,
             match portList with
             | [] => createPort env clusterName (inst_Name i) network (inst_SecurityGroups i)
             | port :: _ => ret (port, None)
             end s1 = (o1, s2)
             ∧ trace s2 = trace s1 ++ evs1
             ∧ Forall (among [KPortsCreate]) evs1
             ∧ ∀ port, o1 = Val (port, None) →
                 obtained_ports (ev0 :: evs1) = [port]).
  { destruct portList as [|port0 ports].
    - unfold createPort. destruct (net_Subnet network) as [subnet|].
      + unfold bind, call.
        match goal with |- context [ports_Create env ?o (world s1)] => set (opts := o) end.
        destruct (ports_Create env opts (world s1)) as [[newPort|e] w2].
        * eexists _, _, [EvPortsCreate opts (Ok newPort)]. split; [reflexivity|].
          split; [done|]. split; [by repeat constructor|]. by intros port [= <-].
        * eexists _, _, [EvPortsCreate opts (Err e)]. split; [reflexivity|].
          split; [done|]. split; [by repeat constructor|]. by intros port [=].
      + eexists _, s1, []. rewrite app_nil_r. split; [reflexivity|]. split; [done|].
        split; [done|]. by intros port [=].
    - eexists _, s1, []. rewrite app_nil_r. split; [reflexivity|]. split; [done|].
      split; [done|]. by intros port [= <-]. }
  destruct Hport as (o1 & s2 & evs1 & Hrun1 & Heq1 & Hkinds1 & Hobt).
  unfold bind at 1. rewrite Hrun1.
  assert (Htrace2 : trace s2 = trace s ++ ev0 :: evs1).
  { rewrite Heq1. subst s1. simpl. by rewrite <- app_assoc. }
  destruct o1 as [[port [e|]]|];
    try (eexists _, s2, (ev0 :: evs1); split; [reflexivity|]; split; [done|];
         intros a p [=]).
  specialize (Hobt port eq_refl).
  destruct (emits_run_ex (among trunk_kinds)
              (if inst_Trunk i then createInstance_trunk env i port else ret None) s2)
    as (o3 & s3 & evs3 & Hrun3 & Heq3 & Hkinds3).
  { destruct (inst_Trunk i); [apply emits_createInstance_trunk|apply emits_ret]. }
  unfold bind at 1. rewrite Hrun3.
  assert (Hobt3 : obtained_ports evs3 = []).
  { apply obtained_ports_none. eapply Forall_impl; [exact Hkinds3|].
    intros ev Hev. unfold among in Hev. destruct ev; simpl in Hev; try done;
      exfalso; intuition discriminate. }
  assert (Htrace3 : trace s3 = trace s ++ (ev0 :: evs1) ++ evs3).
  { rewrite Heq3, Htrace2, <- app_assoc. done. }
  destruct o3 as [[e|]|];
    try (eexists _, s3, ((ev0 :: evs1) ++ evs3); split; [reflexivity|]; split; [done|];
         intros a p [=]).
  destruct (IH (accessAddress (inst_Subnet i) (port_FixedIPs port) accessIPv4)
              (portsList ++ [{| sn_Port := port_ID port |}]) s3)
    as (o & s' & evs & Hrun & Heq & Hres).
  exists o, s', (((ev0 :: evs1) ++ evs3) ++ evs). split; [exact Hrun|].
  split; [by rewrite Heq, Htrace3, <- !app_assoc|].
  intros a p Ho. destruct (Hres a p Ho) as (-> & -> & Hlen).
  rewrite !obtained_ports_app, Hobt, Hobt3, app_nil_r. simpl.
  rewrite <- app_assoc, accessAddress_app. simpl. split; [done|]. split; [done|].
  by rewrite Hlen.
Qed.

Lemma createInstance_requests clusterName i :
  observes (λ evs _,
              Forall (requests_ports (obtained_ports evs) (inst_Subnet i)) evs
              ∧ ∀ networkList b r,
                  inst_Networks i = Some networkList →
                  In (EvServersCreate b r) evs →
                  length (co_Networks (baseOpts b)) = length networkList)
    (createInstance env clusterName i).
Proof.
  apply observes_intro. intros s. unfold createInstance.
  assert (Hother : ∀ l ports, Forall (λ ev, kind ev ≠ KServersCreate) l →
                              Forall (requests_ports ports (inst_Subnet i)) l).
  { intros l ports Hall. eapply Forall_impl; [exact Hall|]. intros ev Hev.
    by destruct ev. }
  assert (Hnone : ∀ l b r, Forall (λ ev, kind ev ≠ KServersCreate) l →
                           ¬ In (EvServersCreate b r) l).
  { intros l b r Hall Hin. rewrite Forall_forall in Hall.
    by apply (Hall _ (proj2 (list_elem_of_In _ _) Hin)). }
  assert (Hkinds : ∀ ks l, Forall (among ks) l →
                           forallb (λ k, match k with KServersCreate => false
                                                 | _ => true end) ks = true →
                           Forall (λ ev, kind ev ≠ KServersCreate) l).
  { intros ks l Hall Hks. eapply Forall_impl; [exact Hall|]. intros ev Hev Heq.
    rewrite forallb_forall in Hks. apply Hks in Hev. by rewrite Heq in Hev. }
  (* the image *)
  destruct (emits_run_ex _ _ s (emits_getImageID env (inst_Image i)))
    as (o1 & s1 & e1 & Hrun1 & Heq1 & Hk1).
  assert (Hobt1 : obtained_ports e1 = []).
  { apply obtained_ports_none. eapply Forall_impl; [exact Hk1|].
    intros ev Hev. unfold among in Hev. destruct ev; simpl in Hev; try done;
      exfalso; intuition discriminate. }
  apply Hkinds in Hk1; [|done].
  unfold bind at 1. rewrite Hrun1.
  assert (Hstop1 : ∀ o, ∃ (o' : outcome (option Instance * option error)) s' evs,
             (o, s1) = (o', s') ∧ trace s' = trace s ++ evs
             ∧ Forall (requests_ports (obtained_ports evs) (inst_Subnet i)) evs
               ∧ ∀ networkList b r,
                   inst_Networks i = Some networkList →
                   In (EvServersCreate b r) evs →
                   length (co_Networks (baseOpts b)) = length networkList).
  { intros o. exists o, s1, e1. split; [done|]. split; [done|].
    split; [by apply Hother|]. intros networkList b r _ Hin. by apply Hnone in Hin. }
  destruct o1 as [[imageID [e|]]|]; [apply Hstop1| |apply Hstop1].
  destruct (inst_Networks i) as [networkList|]; [|apply Hstop1].
  (* the ports *)
  destruct (createInstance_networks_run clusterName i networkList "" [] s1)
    as (o2 & s2 & e2 & Hrun2 & Heq2 & Hres2).
  pose proof (emits_run _ _ _ _ _ _
                (emits_createInstance_networks env clusterName i networkList "" [])
                Hrun2 Heq2) as Hk2.
  apply Hkinds in Hk2; [|done].
  unfold bind at 1. rewrite Hrun2.
  assert (Htrace2 : trace s2 = trace s ++ e1 ++ e2).
  { by rewrite Heq2, Heq1, <- app_assoc. }
  assert (Hstop2 : ∀ o, ∃ (o' : outcome (option Instance * option error)) s' evs,
             (o, s2) = (o', s') ∧ trace s' = trace s ++ evs
             ∧ Forall (requests_ports (obtained_ports evs) (inst_Subnet i)) evs
               ∧ ∀ networkList' b r,
                   Some networkList = Some networkList' →
                   In (EvServersCreate b r) evs →
                   length (co_Networks (baseOpts b)) = length networkList').
  { intros o. exists o, s2, (e1 ++ e2). split; [done|]. split; [done|].
    split; [apply Hother; by apply Forall_app|].
    intros networkList' b r _ Hin. apply in_app_or in Hin.
    destruct Hin as [Hin|Hin]; by apply Hnone in Hin. }
  destruct o2 as [[[accessIPv4 portsList]|e]|]; [|apply Hstop2..].
  destruct (Hres2 accessIPv4 portsList eq_refl) as (Hports & Haccess & Hlen).
  simpl in Hports. clear Hstop1 Hstop2.
  (* the rest: cleanup, or flavor, server and poll *)
  match goal with
  | |- ∃ o s' evs, ?tail s2 = (o, s') ∧ _ =>
      destruct (emits_run_ex
                  (λ ev, obtained_port ev = None
                         ∧ match ev with
                           | EvServersCreate b _ =>
                               co_Networks (baseOpts b) = portsList
                               ∧ co_AccessIPv4 (baseOpts b) = accessIPv4
                               ∧ (inst_Subnet i ≠ "" → accessIPv4 ≠ "")
                           | _ => True
                           end) tail s2)
        as (o3 & s3 & e3 & Hrun3 & Heq3 & Hall3)
  end.
  { destruct (negb (inst_Subnet i =? "")%string && (accessIPv4 =? "")%string) eqn:Hacc.
    { apply emits_bind; [eapply emits_among; [apply emits_deletePorts|kinds_ok]|].
      intros [errd|]; apply emits_ret. }
    apply emits_bind; [apply emits_call; by intros r|].
    intros [flavorID|e]; [|apply emits_ret].
    destruct (inst_SecurityGroups i) as [securityGroups|]; [|apply emits_panic].
    apply emits_bind.
    { apply emits_call. intros r. split; [done|]. simpl.
      rewrite baseOpts_applyServerGroupID, baseOpts_applyRootVolume. simpl.
      split; [done|]. split; [done|]. intros Hsub ->.
      destruct (String.eqb_spec (inst_Subnet i) ""); [done|]. discriminate. }
    intros [server|e].
    - apply emits_bind.
      + apply emits_pollLoop.
        eapply emits_among; [apply emits_createInstance_condition|kinds_ok].
      + intros [instance [e|]]; apply emits_ret.
    - apply emits_bind; [eapply emits_among; [apply emits_deletePorts|kinds_ok]|].
      intros [errd|]; apply emits_ret. }
  apply Forall_and in Hall3 as [Hobt3 Hreq3].
  exists o3, s3, (e1 ++ e2 ++ e3). split; [exact Hrun3|].
  split; [by rewrite Heq3, Htrace2, <- !app_assoc|].
  assert (Hobt : obtained_ports (e1 ++ e2 ++ e3) = obtained_ports e2).
  { by rewrite !obtained_ports_app, (obtained_ports_none e3 Hobt3), app_nil_r, Hobt1. }
  rewrite Hobt. split.
  - apply Forall_app. split; [by apply Hother|].
    apply Forall_app. split; [by apply Hother|].
    eapply Forall_impl; [exact Hreq3|]. intros ev Hev.
    destruct ev; try done. destruct Hev as (Hnets & Hacc & Hne).
    simpl. rewrite Hnets, Hacc, Hports, Haccess. split; [done|].
    split; [by rewrite accessAddress_last|]. by rewrite <- Haccess.
  - intros networkList' b r [= <-] Hin. apply in_app_or in Hin.
    destruct Hin as [Hin|Hin]; [by apply Hnone in Hin|].
    apply in_app_or in Hin. destruct Hin as [Hin|Hin]; [by apply Hnone in Hin|].
    rewrite Forall_forall in Hreq3.
    specialize (Hreq3 _ (proj2 (list_elem_of_In _ _) Hin)). simpl in Hreq3.
    destruct Hreq3 as (-> & _). by rewrite Hports, length_map.
Qed.

End Ports.

(** X22.  The request for the server.  createInstance obtains one port for
    each network of the instance, the first port that the lookup returned
    or else the port it created, and the server-create request lists
    exactly these ports, in the order of the networks and with
    repetitions: a network that occurs twice brings its port twice.  The
    access address of the request is the address of the last fixed IP that
    these ports have on the access subnet of the instance, and it is not
    empty when the instance names an access subnet. *)
Theorem createInstance_request_ports {W : Type} (env : Env W) (clusterName : string)
  (i : Instance) (s : State W) :
  let evs := emitted (createInstance env clusterName i) s in
  Forall (requests_ports (obtained_ports evs) (inst_Subnet i)) evs
  ∧ ∀ networkList b r,
      inst_Networks i = Some networkList →
      In (EvServersCreate b r) evs →
      length (co_Networks (baseOpts b)) = length networkList.
Proof.
  intros evs. subst evs.
  exact (observes_emitted _ _ s (createInstance_requests env clusterName i)).
Qed.

(** A network with two subnets is two entries of the list of networks: the
    port created for the first is found for the second, and the request
    names it twice. *)
Example createInstance_duplicate_port :
  omap (λ ev, match ev with
              | EvServersCreate b _ =>
                  Some (map sn_Port (co_Networks (baseOpts b)), co_AccessIPv4 (baseOpts b))
              | _ => None
              end)
       (emitted (createInstance Fake.env "c1" doubledInstance) (Fake.start twoNetworks))
  = [(["port-1"; "port-1"; "port-2"], "192.0.2.20")].
Proof. vm_compute. reflexivity. Qed.

Lemma port_cleaned_concat {W} (env : Env W) (cleaned : list ServerNetwork)
  (chunks : list (list Event)) :
  Forall2 (port_cleaned env) cleaned chunks →
  ∀ n, In n cleaned → In (EvPortsDelete (sn_Port n) None) (concat chunks).
Proof.
  induction 1 as [|n0 chunk cleaned chunks (r & -> & Hr) _ IH]; [done|].
  intros n [<-|Hin]; simpl; [tauto|]. right. right. by apply IH.
Qed.

(** X23.  As long as no port lookup is answered with a not-found error,
    deletePorts works through the list in order.  With a nil result every
    port of the list was looked up and deleted, whatever else the lookups
    answered; with an error the last call is the delete that failed with
    it, the ports before were deleted, and the ports after it are left
    without a call. *)
Theorem deletePorts_in_order {W : Type} (env : Env W) (nets : list ServerNetwork)
  (s : State W) :
  let run := deletePorts env nets in
  (∀ id e, In (EvPortsGet id (Err e)) (emitted run s) → IsNotFound env e = false) →
  ∃ err cleaned chunks,
    fst (run s) = Val err
    ∧ Forall2 (port_cleaned env) cleaned chunks
    ∧ (∀ n, In n cleaned → In (EvPortsDelete (sn_Port n) None) (emitted run s))
    ∧ match err with
      | None => cleaned = nets ∧ emitted run s = concat chunks
      | Some e =>
          ∃ n rest r,
            nets = cleaned ++ n :: rest
            ∧ emitted run s = concat chunks ++ [EvPortsGet (sn_Port n) r;
                                                EvPortsDelete (sn_Port n) (Some e)]
      end.
Proof.
  intros run. subst run.
  destruct (deletePorts_run env nets s)
    as (err & s' & evs & cleaned & chunks & Hrun & Heq & Hcl & Hcase).
  rewrite (emitted_run _ _ _ _ _ Hrun Heq), Hrun. intros Hfound.
  pose proof (port_cleaned_concat env cleaned chunks Hcl) as Hdel.
  exists err, cleaned, chunks. split; [done|]. split; [done|].
  destruct Hcase as [(-> & -> & ->)|[(n & rest & e' & -> & -> & He & ->)
                                    |(n & rest & r & e' & -> & -> & He & ->)]].
  - by split.
  - specialize (Hfound (sn_Port n) e'). rewrite Hfound in He; [done|].
    apply in_or_app. right. by left.
  - split.
    + intros m Hm. apply in_or_app. left. by apply Hdel.
    + by exists n, rest, r.
Qed.

Lemma deletePorts_in_order_witness :
  let run := deletePorts Fake.env [{| sn_Port := "port-1" |}; {| sn_Port := "port-2" |}] in
  fst (run (Fake.start twoPorts)) = Val None
  ∧ Fake.fw_ports (world (snd (run (Fake.start twoPorts)))) = [].
Proof.
  intros run.
  destruct (deletePorts_in_order Fake.env
              [{| sn_Port := "port-1" |}; {| sn_Port := "port-2" |}]
              (Fake.start twoPorts))
    as (err & cleaned & chunks & Hres & _).
  - intros id e Hin. vm_compute in Hin.
    destruct Hin as [Hin|[Hin|[Hin|[Hin|[]]]]]; discriminate.
  - split; [|reflexivity].
    assert (Herr : None = err) by (vm_compute in Hres; by injection Hres).
    rewrite Herr. exact Hres.
Defined.

Section Stops.

Context {W : Type}.

Lemma unfailed_not_in (l : list Event) (ev : Event) :
  unfailed l → failed_lookup ev → ¬ In ev l.
Proof.
  intros Hall Hev Hin. unfold unfailed in Hall. rewrite Forall_forall in Hall.
  by apply (Hall _ (proj2 (list_elem_of_In _ _) Hin)).
Qed.

Lemma stops_ret {A} (failure : A → Prop) (a : A) :
  failure a ∨ ¬ failure a → observes (stops_when failure) (ret a : M W A).
Proof.
  intros Hdec. apply observes_ret. split; [constructor|]. right. exists a.
  split; [done|]. destruct Hdec as [Hf|Hn].
  - right. split; [done|]. exists [], []. repeat split; [simpl; lia|constructor].
  - left. split; [done|constructor].
Qed.

Lemma stops_panic {A} (failure : A → Prop) : observes (stops_when failure) (@panic W A).
Proof. apply observes_panic. split; [constructor|]. left. split; [done|constructor]. Qed.

Lemma stops_call_bind {X A} (failure : A → Prop) (op : W → X * W) (ev : X → Event)
  (k : X → M W A) :
  (∀ r, among lookups (ev r)) →
  (∀ r, (∃ b, failure b ∧ k r = ret b)
        ∨ (¬ failed_lookup (ev r) ∧ observes (stops_when failure) (k r))) →
  observes (stops_when failure) (bind (call op ev) k).
Proof.
  intros Hkind Hk. apply observes_intro. intros s. unfold bind, call.
  destruct (op (world s)) as [r w1].
  set (s1 := {| world := w1; trace := trace s ++ [ev r]; notices := notices s |}).
  destruct (Hk r) as [(b & Hb & ->)|[Hclean Hobs]].
  - exists (Val b), s1, [ev r]. split; [done|]. split; [done|].
    split; [constructor; [apply Hkind|constructor]|].
    right. exists b. split; [done|]. right.
    split; [done|]. exists [], [ev r]. repeat split; [simpl; lia|constructor].
  - destruct (Hobs s1) as (e2 & Heq2 & Hkinds & Hcase).
    destruct (k r s1) as [o s2]. simpl in *.
    exists o, s2, (ev r :: e2). split; [done|].
    split; [by rewrite Heq2, <- app_assoc|]. split; [by constructor|].
    destruct Hcase as [[-> Hun]|(a & -> & [[Hn Hun]|(Hf & pre & rest & -> & Hlen & Hun)])].
    + left. split; [done|]. by constructor.
    + right. exists a. split; [done|]. left. split; [done|]. by constructor.
    + right. exists a. split; [done|]. right. split; [done|].
      exists (ev r :: pre), rest. repeat split; [done|by constructor].
Qed.

Lemma stops_bind {A B} (failure : A → Prop) (failure' : B → Prop)
  (m : M W A) (k : A → M W B) :
  observes (stops_when failure) m →
  (∀ a, failure a → ∃ b, failure' b ∧ k a = ret b) →
  (∀ a, ¬ failure a → observes (stops_when failure') (k a)) →
  observes (stops_when failure') (bind m k).
Proof.
  intros Hm Hfail Hk. apply observes_intro. intros s. unfold bind.
  destruct (Hm s) as (e1 & Heq1 & Hkinds1 & Hcase1).
  destruct (m s) as [o1 s1]. simpl in *.
  destruct Hcase1 as [[-> Hun]|(a & -> & [[Hn Hun]|(Hf & pre & rest & -> & Hlen & Hun)])].
  - exists Panic, s1, e1. split; [done|]. split; [done|]. split; [done|]. by left.
  - destruct (Hk a Hn s1) as (e2 & Heq2 & Hkinds2 & Hcase2).
    destruct (k a s1) as [o s2]. simpl in *.
    exists o, s2, (e1 ++ e2). split; [done|].
    split; [by rewrite Heq2, Heq1, <- app_assoc|]. split; [by apply Forall_app|].
    destruct Hcase2 as [[-> Hun2]|(b & -> & [[Hn2 Hun2]
                                            |(Hf2 & pre & rest & -> & Hlen & Hun2)])].
    + left. split; [done|]. by apply Forall_app.
    + right. exists b. split; [done|]. left. split; [done|]. by apply Forall_app.
    + right. exists b. split; [done|]. right. split; [done|].
      exists (e1 ++ pre), rest. rewrite app_assoc. repeat split; [done|].
      by apply Forall_app.
  - destruct (Hfail a Hf) as (b & Hb & ->).
    exists (Val b), s1, (pre ++ rest). split; [done|]. split; [done|]. split; [done|].
    right. exists b. split; [done|]. right. split; [done|]. by exists pre, rest.
Qed.

Lemma fails_fast_bind {A} (failure : A → Prop) (m : M W A)
  (k : A → M W (option Instance * option error)) :
  observes (stops_when failure) m →
  (∀ a, failure a → ∃ e, k a = ret (None, Some e)) →
  (∀ a, ¬ failure a → observes fails_fast (k a)) →
  observes fails_fast (bind m k).
Proof.
  intros Hm Hfail Hk. apply observes_intro. intros s. unfold bind.
  destruct (Hm s) as (e1 & Heq1 & Hkinds1 & Hcase1).
  destruct (m s) as [o1 s1]. simpl in *.
  destruct Hcase1 as [[-> Hun]|(a & -> & [[Hn Hun]|(Hf & pre & rest & -> & Hlen & Hun)])].
  - exists Panic, s1, e1. split; [done|]. split; [done|].
    intros ev Hin Hev. by apply (unfailed_not_in e1 ev) in Hin.
  - destruct (Hk a Hn s1) as (e2 & Heq2 & H2).
    destruct (k a s1) as [o s2]. simpl in *.
    exists o, s2, (e1 ++ e2). split; [done|].
    split; [by rewrite Heq2, Heq1, <- app_assoc|].
    intros ev Hin Hev. apply in_app_or in Hin.
    destruct Hin as [Hin|Hin]; [by apply (unfailed_not_in e1 ev) in Hin|].
    destruct (H2 ev Hin Hev) as (Hres & (pre & ->) & Hkinds2).
    split; [done|]. split; [exists (e1 ++ pre); by rewrite app_assoc|].
    by apply Forall_app.
  - destruct (Hfail a Hf) as (e & ->).
    exists (Val (None, Some e)), s1, (pre ++ rest). split; [done|]. split; [done|].
    intros ev Hin Hev. apply in_app_or in Hin.
    destruct Hin as [Hin|Hin]; [by apply (unfailed_not_in pre ev) in Hin|].
    split; [by exists e|]. split; [|done].
    exists pre. destruct rest as [|ev0 [|ev1 rest]]; simpl in *; [done| |lia].
    by destruct Hin as [->|[]].
Qed.

Lemma fails_fast_clean (m : M W (option Instance * option error)) :
  emits (λ ev, ¬ failed_lookup ev) m → observes fails_fast m.
Proof.
  intros Hm. eapply observes_weaken; [by apply emits_observes|].
  intros evs o Hall ev Hin Hev. by apply (unfailed_not_in evs ev) in Hin.
Qed.

End Stops.

Section FailFast.

Context {W : Type} (env : Env W) (projectID : string).

Ltac lookup_kind := intros; unfold among, lookups; simpl; tauto.

Lemma stops_getTrunkSupport :
  observes (stops_when with_error) (getTrunkSupport env).
Proof.
  unfold getTrunkSupport. apply stops_call_bind; [lookup_kind|].
  intros [allExts|e|e].
  - right. split; [by intros []|]. apply stops_ret. right. by intros H.
  - left. eexists. split; [|reflexivity]. done.
  - left. eexists. split; [|reflexivity]. done.
Qed.

Lemma stops_getSecurityGroups params :
  observes (stops_when with_error) (getSecurityGroups env projectID params).
Proof.
  unfold getSecurityGroups. generalize (@nil string).
  induction params as [|sg rest IH]; intros sgIDs; cbn [getSecurityGroups_from].
  { apply stops_ret. right. by intros H. }
  apply stops_call_bind; [lookup_kind|].
  intros [[|group SGList]|e|e]; try (left; eexists; split; [|reflexivity]; done).
  right. split; [by intros []|]. apply IH.
Qed.

Lemma stops_getServerNetworks_subnets netID subnets :
  ∀ nets, observes (stops_when with_error)
            (getServerNetworks_subnets env netID subnets nets).
Proof.
  induction subnets as [|sn rest IH]; intros nets; cbn [getServerNetworks_subnets].
  { apply stops_ret. right. by intros H. }
  apply stops_call_bind; [lookup_kind|].
  intros [subnetsByFilter|e].
  - right. split; [by intros []|]. apply IH.
  - left. eexists. split; [|reflexivity]. done.
Qed.

Lemma stops_getServerNetworks_ids param ids :
  ∀ nets, observes (stops_when with_error) (getServerNetworks_ids env param ids nets).
Proof.
  induction ids as [|id rest IH]; intros nets; cbn [getServerNetworks_ids].
  { apply stops_ret. right. by intros H. }
  destruct (np_Subnets param) as [subnets|]; [|apply IH].
  eapply stops_bind; [apply stops_getServerNetworks_subnets| |].
  - intros [nets' [e|]] Hf; [|by destruct Hf]. eexists. split; [|reflexivity]. done.
  - intros [nets' [e|]] Hn; [by destruct Hn|]. apply IH.
Qed.

Lemma stops_GetNetworkIDsByFilter opts :
  observes (stops_when with_error) (GetNetworkIDsByFilter env opts).
Proof.
  unfold GetNetworkIDsByFilter. apply stops_call_bind; [lookup_kind|].
  intros [[|n ns]|e|e]; try (left; eexists; split; [|reflexivity]; done).
  right. split; [by intros []|]. apply stops_ret. right. by intros H.
Qed.

Lemma stops_getServerNetworks params :
  observes (stops_when with_error) (getServerNetworks env params).
Proof.
  unfold getServerNetworks. generalize (@nil Network).
  induction params as [|p rest IH]; intros nets; cbn [getServerNetworks_from].
  { apply stops_ret. right. by intros H. }
  eapply stops_bind; [apply stops_GetNetworkIDsByFilter| |].
  - intros [ids [e|]] Hf; [|by destruct Hf]. eexists. split; [|reflexivity]. done.
  - intros [ids [e|]] Hn; [by destruct Hn|].
    eapply stops_bind; [apply stops_getServerNetworks_ids| |].
    + intros [nets' [e|]] Hf; [|by destruct Hf]. eexists. split; [|reflexivity]. done.
    + intros [nets' [e|]] Hn'; [by destruct Hn'|]. apply IH.
Qed.

Lemma InstanceCreate_fails_fast openStackCluster machine openStackMachine clusterName
  userData :
  observes fails_fast
    (InstanceCreate env projectID openStackCluster machine openStackMachine
       clusterName userData).
Proof.
  unfold InstanceCreate.
  assert (Hret : ∀ x, observes fails_fast (ret x : M W _)).
  { intros x. apply observes_ret. by intros ev []. }
  destruct openStackMachine as [osm|]; [|apply Hret].
  destruct (ms_FailureDomain (m_Spec machine)) as [failureDomain|]; [|apply Hret].
  apply (fails_fast_bind is_error).
  { destruct (oms_Trunk (osm_Spec osm)).
    - eapply stops_bind; [apply stops_getTrunkSupport| |].
      + intros [[|] [e|]] Hf; try (by destruct Hf);
          (eexists; split; [|reflexivity]); by eexists.
      + intros [[|] [e|]] Hn; try (by destruct Hn).
        * apply stops_ret. right. by intros [e He].
        * apply stops_ret. left. by eexists.
    - apply stops_ret. right. by intros [e He]. }
  { intros [trunk|e] [e' He]; [done|]. by eexists. }
  intros [trunk|e] Hn; [|destruct Hn; by eexists].
  apply (fails_fast_bind with_error); [apply stops_getSecurityGroups| |].
  { intros [securityGroups [e|]] Hf; [|by destruct Hf]. by eexists. }
  intros [securityGroups [e|]] Hn'; [by destruct Hn'|].
  apply (fails_fast_bind with_error).
  { destruct (0 <? length (oms_Networks (osm_Spec osm)))%nat.
    - apply stops_getServerNetworks.
    - destruct (net_Subnet (ocst_Network (osc_Status openStackCluster)));
        [|apply stops_panic].
      apply stops_ret. right. by intros H. }
  { intros [nets [e|]] Hf; [|by destruct Hf]. by eexists. }
  intros [nets [e|]] Hn''; [by destruct Hn''|].
  apply fails_fast_clean.
  apply emits_bind.
  - eapply emits_weaken; [apply emits_createInstance|].
    intros ev Hev. unfold among in Hev. destruct ev; simpl in Hev; try (by intros []);
      exfalso; intuition discriminate.
  - intros [[instance|] [e|]]; emits_walk ltac:(assumption).
Qed.

End FailFast.

(** X25.  InstanceCreate gives up at the first lookup that fails.  When a
    listing of the extensions, of security groups or of networks, or a
    query for subnets, returns an error, or a listing of security groups
    finds no group, the run ends there with an error and no instance: the
    failed lookup is the last call, and every call of the run was a
    lookup, so nothing was created. *)
Theorem InstanceCreate_failed_lookup {W : Type} (env : Env W) (projectID : string)
  (openStackCluster : OpenStackCluster) (machine : Machine)
  (openStackMachine : option OpenStackMachine) (clusterName userData : string)
  (s : State W) (ev : Event) :
  let run := InstanceCreate env projectID openStackCluster machine openStackMachine
               clusterName userData in
  In ev (emitted run s) →
  failed_lookup ev →
  (∃ e, fst (run s) = Val (None, Some e))
  ∧ (∃ pre, emitted run s = pre ++ [ev])
  ∧ Forall (among lookups) (emitted run s).
Proof.
  intros run Hin Hev.
  exact (observes_emitted _ _ s
           (InstanceCreate_fails_fast env projectID openStackCluster machine
              openStackMachine clusterName userData) ev Hin Hev).
Qed.

Lemma InstanceCreate_failed_lookup_witness :
  let run := InstanceCreate Fake.env "project" sampleCluster pendingMachine
               (Some groupedMachine) "c1" "" in
  (∃ e, fst (run (Fake.start twoNetworks)) = Val (None, Some e))
  ∧ length (emitted run (Fake.start twoNetworks)) = 1%nat.
Proof.
  intros run.
  destruct (InstanceCreate_failed_lookup Fake.env "project" sampleCluster pendingMachine
              (Some groupedMachine) "c1" "" (Fake.start twoNetworks)
              (EvSecGroupsList {| sgf_ID := ""; sgf_Name := "web"; sgf_Description := "";
                                  sgf_TenantID := ""; sgf_ProjectID := "project" |}
                               (Listed [])))
    as (Hres & _ & _).
  - vm_compute. tauto.
  - exact I.
  - split; [exact Hres|reflexivity].
Defined.

Lemma guarded_from_any name prev evs :
  guarded_from name None evs → guarded_from name prev evs.
Proof.
  destruct evs as [|ev rest]; [done|]. simpl. intros [Hhead Hrest]. split; [|done].
  intros Hc. by destruct (Hhead Hc) as (p & [=] & _).
Qed.

Lemma guarded_from_app name evs1 : ∀ prev evs2,
  guarded_from name prev evs1 → guarded_from name None evs2 →
  guarded_from name prev (evs1 ++ evs2).
Proof.
  induction evs1 as [|ev rest IH]; intros prev evs2 H1 H2; simpl.
  - by apply guarded_from_any.
  - destruct H1 as [Hhead Hrest]. split; [done|]. by apply IH.
Qed.

Lemma guarded_from_free name prev evs :
  Forall (λ ev, ¬ is_creation ev) evs → guarded_from name prev evs.
Proof.
  intros Hall. revert prev. induction Hall as [|ev rest Hev _ IH]; intros prev; [done|].
  simpl. split; [done|apply IH].
Qed.

Lemma guarded_from_split name pre : ∀ prev ev post,
  guarded_from name prev (pre ++ ev :: post) → is_creation ev →
  ∃ p, last (from_option (λ x, [x]) [] prev ++ pre) = Some p ∧ guards name p ev.
Proof.
  induction pre as [|x pre IH]; intros prev ev post Hg Hc; simpl in *.
  - destruct Hg as [Hhead _]. destruct (Hhead Hc) as (p & -> & Hp). by exists p.
  - destruct Hg as [_ Hrest]. destruct (IH (Some x) ev post Hrest Hc) as (p & Hlast & Hp).
    exists p. split; [|done]. simpl in Hlast.
    destruct prev as [y|]; simpl; [|done]. by destruct pre.
Qed.

Section Guarded.

Context {W : Type} (env : Env W).

Lemma guarded_emits {A} name prev (m : M W A) :
  emits (λ ev, ¬ is_creation ev) m → observes (guarded_run name prev) m.
Proof.
  intros Hm. eapply observes_weaken; [by apply emits_observes|].
  intros evs o Hall. by apply guarded_from_free.
Qed.

Lemma guarded_among {A} name prev (ks : list Kind) (m : M W A) :
  emits (among ks) m →
  forallb (λ k, match k with KPortsCreate | KTrunksCreate => false | _ => true end) ks
  = true →
  observes (guarded_run name prev) m.
Proof.
  intros Hm Hks. apply guarded_emits. eapply emits_weaken; [exact Hm|].
  intros ev Hev. rewrite forallb_forall in Hks. unfold among in Hev.
  apply Hks in Hev. destruct ev; simpl in *; first [discriminate | tauto].
Qed.

Lemma guarded_ret {A} name prev (a : A) :
  observes (guarded_run name prev) (ret a : M W A).
Proof. by apply observes_ret. Qed.

Lemma guarded_bind {A B} name prev (m : M W A) (k : A → M W B) :
  observes (guarded_run name prev) m →
  (∀ a, observes (guarded_run name None) (k a)) →
  observes (guarded_run name prev) (bind m k).
Proof.
  intros Hm Hk.
  apply (observes_bind (guarded_run name prev) (λ _, guarded_run name None)).
  - exact Hm.
  - exact Hk.
  - intros e1 H1. exact H1.
  - intros e1 a e2 o H1 H2. by apply guarded_from_app.
Qed.

(** A call that is no creation, and what follows it. *)
Lemma guarded_call_bind {X B} name prev (op : W → X * W) (ev : X → Event)
  (k : X → M W B) :
  (∀ r, ¬ is_creation (ev r)) →
  (∀ r, observes (guarded_run name (Some (ev r))) (k r)) →
  observes (guarded_run name prev) (bind (call op ev) k).
Proof.
  intros Hev Hk. apply observes_intro. intros s. unfold bind, call.
  destruct (op (world s)) as [r w1].
  set (s1 := {| world := w1; trace := trace s ++ [ev r]; notices := notices s |}).
  destruct (Hk r s1) as (e2 & Heq2 & H2).
  destruct (k r s1) as [o s2]. simpl in *.
  exists o, s2, (ev r :: e2). split; [done|]. split; [by rewrite Heq2, <- app_assoc|].
  split; [|done]. intros Hc. by apply Hev in Hc.
Qed.

(** A creation that directly follows its lookup, and what follows it. *)
Lemma guarded_creation_bind {X B} name p (op : W → X * W) (ev : X → Event)
  (k : X → M W B) :
  (∀ r, guards name p (ev r)) →
  (∀ r, observes (guarded_run name (Some (ev r))) (k r)) →
  observes (guarded_run name (Some p)) (bind (call op ev) k).
Proof.
  intros Hev Hk. apply observes_intro. intros s. unfold bind, call.
  destruct (op (world s)) as [r w1].
  set (s1 := {| world := w1; trace := trace s ++ [ev r]; notices := notices s |}).
  destruct (Hk r s1) as (e2 & Heq2 & H2).
  destruct (k r s1) as [o s2]. simpl in *.
  exists o, s2, (ev r :: e2). split; [done|]. split; [by rewrite Heq2, <- app_assoc|].
  split; [|done]. intros _. by exists p.
Qed.

Lemma guarded_createInstance_trunk i port :
  observes (guarded_run (inst_Name i) None) (createInstance_trunk env i port).
Proof.
  unfold createInstance_trunk. apply guarded_call_bind; [by intros r []|].
  intros [[|trunk trunkList]|e|e]; try apply guarded_ret.
  - apply guarded_bind.
    + apply guarded_creation_bind; [by intros r|].
      intros [newTrunk|e]; apply guarded_ret.
    + intros [trunk|e]; [|apply guarded_ret].
      apply (guarded_among _ _ [KTagsReplaceAll]); [|reflexivity].
      emits_walk among_side.
  - apply guarded_bind; [apply guarded_ret|].
    intros [trunk'|e]; [|apply guarded_ret].
    apply (guarded_among _ _ [KTagsReplaceAll]); [|reflexivity].
    emits_walk among_side.
Qed.

Lemma guarded_createInstance_networks clusterName i networkList :
  ∀ accessIPv4 portsList,
  observes (guarded_run (inst_Name i) None)
           (createInstance_networks env clusterName i networkList accessIPv4 portsList).
Proof.
  induction networkList as [|network rest IH]; intros accessIPv4 portsList; simpl.
  - apply guarded_ret.
  - destruct (net_ID network =? "")%string; [apply guarded_ret|].
    apply guarded_call_bind; [by intros r []|].
    intros [portList|e|e]; try apply guarded_ret.
    apply guarded_bind.
    + destruct portList as [|port portList]; [|apply guarded_ret].
      unfold createPort. destruct (net_Subnet network) as [subnet|];
        [|by apply observes_panic].
      apply guarded_creation_bind; [by intros r|].
      intros [newPort|e]; apply guarded_ret.
    + intros [port [e|]]; [apply guarded_ret|].
      apply guarded_bind.
      * destruct (inst_Trunk i); [apply guarded_createInstance_trunk|apply guarded_ret].
      * intros [e|]; [apply guarded_ret|apply IH].
Qed.

Lemma guarded_createInstance clusterName i :
  observes (guarded_run (inst_Name i) None) (createInstance env clusterName i).
Proof.
  unfold createInstance.
  apply guarded_bind;
    [apply (guarded_among _ _ [KImagesList]); [apply emits_getImageID|reflexivity]|].
  intros [imageID [e|]]; [apply guarded_ret|].
  destruct (inst_Networks i) as [networkList|]; [|by apply observes_panic].
  apply guarded_bind; [apply guarded_createInstance_networks|].
  intros [[accessIPv4 portsList]|e]; [|apply guarded_ret].
  apply (guarded_among _ _
           [KPortsGet; KPortsDelete; KFlavorIDFromName; KServersCreate; KServersGet]);
    [|reflexivity].
  destruct (negb (inst_Subnet i =? "")%string && (accessIPv4 =? "")%string).
  { apply emits_bind; [eapply emits_among_incl; [apply emits_deletePorts|kinds_incl]|].
    intros [errd|]; apply emits_ret. }
  apply emits_bind; [apply emits_call; intros; among_side|].
  intros [flavorID|e]; [|apply emits_ret].
  destruct (inst_SecurityGroups i) as [securityGroups|]; [|apply emits_panic].
  apply emits_bind; [apply emits_call; intros; among_side|].
  intros [server|e].
  - apply emits_bind.
    + apply emits_pollLoop.
      eapply emits_among_incl; [apply emits_createInstance_condition|kinds_incl].
    + intros [instance [e|]]; apply emits_ret.
  - apply emits_bind; [eapply emits_among_incl; [apply emits_deletePorts|kinds_incl]|].
    intros [errd|]; apply emits_ret.
Qed.

End Guarded.

(** X26.  createInstance creates a port or a trunk only directly after it has
    looked for one and found none: the call just before the creation of a
    port is the listing of the ports named after the server on the network of
    the new port, the call just before the creation of a trunk is the listing
    of the trunks named after the server on the parent port of the new trunk,
    the listing returned no element, and the new resource gets the name of
    the server. *)
Theorem createInstance_creates_after_lookup {W : Type} (env : Env W)
  (clusterName : string) (i : Instance) (s : State W)
  (pre post : list Event) (ev : Event) :
  emitted (createInstance env clusterName i) s = pre ++ ev :: post →
  is_creation ev →
  ∃ before lookup, pre = before ++ [lookup] ∧ guards (inst_Name i) lookup ev.
Proof.
  intros Hsplit Hc.
  pose proof (observes_emitted _ _ s (guarded_createInstance env clusterName i)) as Hg.
  unfold guarded_run in Hg. rewrite Hsplit in Hg.
  destruct (guarded_from_split _ _ _ _ _ Hg Hc) as (p & Hlast & Hp). simpl in Hlast.
  apply last_Some in Hlast as [before ->]. by exists before, p.
Qed.

Lemma createInstance_creates_after_lookup_witness :
  let evs := emitted (createInstance Fake.env "c1" readyInstance)
                     (Fake.start twoNetworks) in
  ∃ ev, evs !! 1%nat = Some ev ∧ is_creation ev
        ∧ ∃ before lookup, take 1 evs = before ++ [lookup]
                           ∧ guards "node-0" lookup ev.
Proof.
  intros evs.
  destruct (evs !! 1%nat) as [ev|] eqn:Hev; [|by vm_compute in Hev].
  exists ev. split; [done|].
  assert (Hc : is_creation ev) by (vm_compute in Hev; injection Hev as <-; exact I).
  split; [done|].
  apply (createInstance_creates_after_lookup Fake.env "c1" readyInstance
           (Fake.start twoNetworks) (take 1 evs) (drop 2 evs) ev); [|done].
  rewrite <- (drop_S evs ev 1 Hev). symmetry. apply take_drop.
Defined.
